(** * Interrupt-driven 4x4 matrix keypad scanner (matrix_robust.c)

    A shallow embedding of the scanning engine of [src/matrix_robust.c]
    (Raspberry Pi Pico flavour) and of the wake path of its STM32 sibling,
    followed by the properties of the debounce state machine, the ring
    buffers, the statistics counters and the low-power transitions.

    Conventions of the embedding:
    - [uint8_t] and [uint32_t] values are integers in [Z]; every C operation
      that can wrap is written with [u8] or [u32];
    - the file-scope [static] variables of the C file form the record
      [State]; each C function becomes a function on [State];
    - a function pointer that is only tested against [NULL] and called is a
      [bool] (registered or not) together with the list of the arguments it
      has been called with; the callbacks are taken not to call back into
      the engine;
    - the GPIO levels and the clocks read during a scan step are the
      argument [ScanInput] of the step;
    - [mutex_enter_blocking]/[mutex_exit] bracket single-threaded sections of
      the model and are not represented. *)

From Stdlib Require Import ZArith List Bool Lia.
Import ListNotations.
Open Scope Z_scope.

(** ** Machine integers *)

Definition u8 (x : Z) : Z := x mod 256.
Definition u32 (x : Z) : Z := x mod 4294967296.
Definition UINT32_MAX : Z := 4294967295.

(** ** Constants of matrix_robust.h and matrix_robust.c *)

Definition MATRIX_ROWS : nat := 4.
Definition MATRIX_COLS : nat := 4.

Definition KEY_IDLE : Z := 0.
Definition KEY_PRESSED : Z := 1.
Definition KEY_HELD : Z := 2.
Definition KEY_RELEASED : Z := 3.

Definition ERROR_NONE : Z := 0.
Definition ERROR_STUCK_KEY : Z := 1.
Definition ERROR_GHOST_KEY : Z := 2.
Definition ERROR_SCAN_TIMEOUT : Z := 3.

Definition DEBOUNCE_PRESS_MS : Z := 20.
Definition DEBOUNCE_RELEASE_MS : Z := 50.
Definition STUCK_KEY_TIMEOUT_MS : Z := 5000.
Definition SCAN_INTERVAL_US : Z := 1000.

Definition EVENT_QUEUE_SIZE : Z := 32.
Definition ERROR_QUEUE_SIZE : Z := 8.

(** ** Arrays *)

(** [a[n] = v] on a C array held as a list; an index outside the array is
    undefined in C and leaves the list as it is here (the well-formedness
    predicate [wf] below keeps every index the code uses in range). *)
Fixpoint upd {A : Type} (n : nat) (v : A) (l : list A) : list A :=
  match l, n with
  | [], _ => []
  | _ :: t, O => v :: t
  | h :: t, S m => h :: upd m v t
  end.

Definition grid : Type := list (list Z).

Definition get2 (g : grid) (r c : nat) : Z := nth c (nth r g []) 0.

Definition set2 (g : grid) (r c : nat) (v : Z) : grid :=
  upd r (upd c v (nth r g [])) g.

Definition fill2 (v : Z) : grid :=
  repeat (repeat v MATRIX_COLS) MATRIX_ROWS.

Definition DEFAULT_KEYMAP : grid :=
  [ [0x1; 0x2; 0x3; 0xA];
    [0x4; 0x5; 0x6; 0xB];
    [0x7; 0x8; 0x9; 0xC];
    [0x0; 0xF; 0xE; 0xD] ].

(** ** Structures *)

(** [KeyEvent]; the fields [row], [col] and [timestamp] exist in both event
    structures of the header, hence the prefixes. *)
Record KeyEvent := mkKeyEvent {
  ev_key : Z;
  ev_state : Z;
  ev_row : Z;
  ev_col : Z;
  ev_timestamp : Z
}.

Record ErrorEvent := mkErrorEvent {
  error_code : Z;
  err_row : Z;
  err_col : Z;
  err_timestamp : Z
}.

Record ScanStatistics := mkStats {
  total_scans : Z;
  total_events : Z;
  total_errors : Z;
  queue_overflows : Z;
  max_scan_time_us : Z;
  avg_scan_time_us : Z
}.

Definition zero_event : KeyEvent := mkKeyEvent 0 0 0 0 0.
Definition zero_error : ErrorEvent := mkErrorEvent 0 0 0 0.
Definition zero_stats : ScanStatistics := mkStats 0 0 0 0 0 0.

(** The static variables of matrix_robust.c, then the part of the
    environment the engine acts on: whether the repeating timer is armed,
    the pins whose falling-edge interrupt is enabled, and the arguments the
    two callbacks have been called with (oldest first). *)
Record State := mkState {
  row_gpios : list Z;
  col_gpios : list Z;
  keymap : grid;
  current_row : Z;
  key_state : grid;
  key_timestamp : grid;
  debounce_time_press : Z;
  debounce_time_release : Z;
  event_queue : list KeyEvent;
  event_queue_head : Z;
  event_queue_tail : Z;
  error_queue : list ErrorEvent;
  error_queue_head : Z;
  error_queue_tail : Z;
  key_callback : bool;
  error_callback : bool;
  scanning_active : bool;
  scan_interval : Z;
  ghost_detection_enabled : bool;
  stuck_detection_enabled : bool;
  stuck_key_timeout : Z;
  stats : ScanStatistics;
  pressed_keys : grid;
  timer_armed : bool;
  wake_irq : list Z;
  key_callback_calls : list KeyEvent;
  error_callback_calls : list ErrorEvent
}.

Definition set_row_gpios (v : list Z) (s : State) : State :=
  mkState v (col_gpios s) (keymap s) (current_row s) (key_state s)
    (key_timestamp s) (debounce_time_press s) (debounce_time_release s)
    (event_queue s) (event_queue_head s) (event_queue_tail s) (error_queue s)
    (error_queue_head s) (error_queue_tail s) (key_callback s)
    (error_callback s) (scanning_active s) (scan_interval s)
    (ghost_detection_enabled s) (stuck_detection_enabled s)
    (stuck_key_timeout s) (stats s) (pressed_keys s) (timer_armed s)
    (wake_irq s) (key_callback_calls s) (error_callback_calls s).

Definition set_col_gpios (v : list Z) (s : State) : State :=
  mkState (row_gpios s) v (keymap s) (current_row s) (key_state s)
    (key_timestamp s) (debounce_time_press s) (debounce_time_release s)
    (event_queue s) (event_queue_head s) (event_queue_tail s) (error_queue s)
    (error_queue_head s) (error_queue_tail s) (key_callback s)
    (error_callback s) (scanning_active s) (scan_interval s)
    (ghost_detection_enabled s) (stuck_detection_enabled s)
    (stuck_key_timeout s) (stats s) (pressed_keys s) (timer_armed s)
    (wake_irq s) (key_callback_calls s) (error_callback_calls s).

Definition set_keymap (v : grid) (s : State) : State :=
  mkState (row_gpios s) (col_gpios s) v (current_row s) (key_state s)
    (key_timestamp s) (debounce_time_press s) (debounce_time_release s)
    (event_queue s) (event_queue_head s) (event_queue_tail s) (error_queue s)
    (error_queue_head s) (error_queue_tail s) (key_callback s)
    (error_callback s) (scanning_active s) (scan_interval s)
    (ghost_detection_enabled s) (stuck_detection_enabled s)
    (stuck_key_timeout s) (stats s) (pressed_keys s) (timer_armed s)
    (wake_irq s) (key_callback_calls s) (error_callback_calls s).

Definition set_current_row (v : Z) (s : State) : State :=
  mkState (row_gpios s) (col_gpios s) (keymap s) v (key_state s)
    (key_timestamp s) (debounce_time_press s) (debounce_time_release s)
    (event_queue s) (event_queue_head s) (event_queue_tail s) (error_queue s)
    (error_queue_head s) (error_queue_tail s) (key_callback s)
    (error_callback s) (scanning_active s) (scan_interval s)
    (ghost_detection_enabled s) (stuck_detection_enabled s)
    (stuck_key_timeout s) (stats s) (pressed_keys s) (timer_armed s)
    (wake_irq s) (key_callback_calls s) (error_callback_calls s).

Definition set_key_state (v : grid) (s : State) : State :=
  mkState (row_gpios s) (col_gpios s) (keymap s) (current_row s) v
    (key_timestamp s) (debounce_time_press s) (debounce_time_release s)
    (event_queue s) (event_queue_head s) (event_queue_tail s) (error_queue s)
    (error_queue_head s) (error_queue_tail s) (key_callback s)
    (error_callback s) (scanning_active s) (scan_interval s)
    (ghost_detection_enabled s) (stuck_detection_enabled s)
    (stuck_key_timeout s) (stats s) (pressed_keys s) (timer_armed s)
    (wake_irq s) (key_callback_calls s) (error_callback_calls s).

Definition set_key_timestamp (v : grid) (s : State) : State :=
  mkState (row_gpios s) (col_gpios s) (keymap s) (current_row s) (key_state s)
    v (debounce_time_press s) (debounce_time_release s) (event_queue s)
    (event_queue_head s) (event_queue_tail s) (error_queue s)
    (error_queue_head s) (error_queue_tail s) (key_callback s)
    (error_callback s) (scanning_active s) (scan_interval s)
    (ghost_detection_enabled s) (stuck_detection_enabled s)
    (stuck_key_timeout s) (stats s) (pressed_keys s) (timer_armed s)
    (wake_irq s) (key_callback_calls s) (error_callback_calls s).

Definition set_debounce_time_press (v : Z) (s : State) : State :=
  mkState (row_gpios s) (col_gpios s) (keymap s) (current_row s) (key_state s)
    (key_timestamp s) v (debounce_time_release s) (event_queue s)
    (event_queue_head s) (event_queue_tail s) (error_queue s)
    (error_queue_head s) (error_queue_tail s) (key_callback s)
    (error_callback s) (scanning_active s) (scan_interval s)
    (ghost_detection_enabled s) (stuck_detection_enabled s)
    (stuck_key_timeout s) (stats s) (pressed_keys s) (timer_armed s)
    (wake_irq s) (key_callback_calls s) (error_callback_calls s).

Definition set_debounce_time_release (v : Z) (s : State) : State :=
  mkState (row_gpios s) (col_gpios s) (keymap s) (current_row s) (key_state s)
    (key_timestamp s) (debounce_time_press s) v (event_queue s)
    (event_queue_head s) (event_queue_tail s) (error_queue s)
    (error_queue_head s) (error_queue_tail s) (key_callback s)
    (error_callback s) (scanning_active s) (scan_interval s)
    (ghost_detection_enabled s) (stuck_detection_enabled s)
    (stuck_key_timeout s) (stats s) (pressed_keys s) (timer_armed s)
    (wake_irq s) (key_callback_calls s) (error_callback_calls s).

Definition set_event_queue (v : list KeyEvent) (s : State) : State :=
  mkState (row_gpios s) (col_gpios s) (keymap s) (current_row s) (key_state s)
    (key_timestamp s) (debounce_time_press s) (debounce_time_release s) v
    (event_queue_head s) (event_queue_tail s) (error_queue s)
    (error_queue_head s) (error_queue_tail s) (key_callback s)
    (error_callback s) (scanning_active s) (scan_interval s)
    (ghost_detection_enabled s) (stuck_detection_enabled s)
    (stuck_key_timeout s) (stats s) (pressed_keys s) (timer_armed s)
    (wake_irq s) (key_callback_calls s) (error_callback_calls s).

Definition set_event_queue_head (v : Z) (s : State) : State :=
  mkState (row_gpios s) (col_gpios s) (keymap s) (current_row s) (key_state s)
    (key_timestamp s) (debounce_time_press s) (debounce_time_release s)
    (event_queue s) v (event_queue_tail s) (error_queue s)
    (error_queue_head s) (error_queue_tail s) (key_callback s)
    (error_callback s) (scanning_active s) (scan_interval s)
    (ghost_detection_enabled s) (stuck_detection_enabled s)
    (stuck_key_timeout s) (stats s) (pressed_keys s) (timer_armed s)
    (wake_irq s) (key_callback_calls s) (error_callback_calls s).

Definition set_event_queue_tail (v : Z) (s : State) : State :=
  mkState (row_gpios s) (col_gpios s) (keymap s) (current_row s) (key_state s)
    (key_timestamp s) (debounce_time_press s) (debounce_time_release s)
    (event_queue s) (event_queue_head s) v (error_queue s)
    (error_queue_head s) (error_queue_tail s) (key_callback s)
    (error_callback s) (scanning_active s) (scan_interval s)
    (ghost_detection_enabled s) (stuck_detection_enabled s)
    (stuck_key_timeout s) (stats s) (pressed_keys s) (timer_armed s)
    (wake_irq s) (key_callback_calls s) (error_callback_calls s).

Definition set_error_queue (v : list ErrorEvent) (s : State) : State :=
  mkState (row_gpios s) (col_gpios s) (keymap s) (current_row s) (key_state s)
    (key_timestamp s) (debounce_time_press s) (debounce_time_release s)
    (event_queue s) (event_queue_head s) (event_queue_tail s) v
    (error_queue_head s) (error_queue_tail s) (key_callback s)
    (error_callback s) (scanning_active s) (scan_interval s)
    (ghost_detection_enabled s) (stuck_detection_enabled s)
    (stuck_key_timeout s) (stats s) (pressed_keys s) (timer_armed s)
    (wake_irq s) (key_callback_calls s) (error_callback_calls s).

Definition set_error_queue_head (v : Z) (s : State) : State :=
  mkState (row_gpios s) (col_gpios s) (keymap s) (current_row s) (key_state s)
    (key_timestamp s) (debounce_time_press s) (debounce_time_release s)
    (event_queue s) (event_queue_head s) (event_queue_tail s) (error_queue s)
    v (error_queue_tail s) (key_callback s) (error_callback s)
    (scanning_active s) (scan_interval s) (ghost_detection_enabled s)
    (stuck_detection_enabled s) (stuck_key_timeout s) (stats s)
    (pressed_keys s) (timer_armed s) (wake_irq s) (key_callback_calls s)
    (error_callback_calls s).

Definition set_error_queue_tail (v : Z) (s : State) : State :=
  mkState (row_gpios s) (col_gpios s) (keymap s) (current_row s) (key_state s)
    (key_timestamp s) (debounce_time_press s) (debounce_time_release s)
    (event_queue s) (event_queue_head s) (event_queue_tail s) (error_queue s)
    (error_queue_head s) v (key_callback s) (error_callback s)
    (scanning_active s) (scan_interval s) (ghost_detection_enabled s)
    (stuck_detection_enabled s) (stuck_key_timeout s) (stats s)
    (pressed_keys s) (timer_armed s) (wake_irq s) (key_callback_calls s)
    (error_callback_calls s).



Definition set_scanning_active (v : bool) (s : State) : State :=
  mkState (row_gpios s) (col_gpios s) (keymap s) (current_row s) (key_state s)
    (key_timestamp s) (debounce_time_press s) (debounce_time_release s)
    (event_queue s) (event_queue_head s) (event_queue_tail s) (error_queue s)
    (error_queue_head s) (error_queue_tail s) (key_callback s)
    (error_callback s) v (scan_interval s) (ghost_detection_enabled s)
    (stuck_detection_enabled s) (stuck_key_timeout s) (stats s)
    (pressed_keys s) (timer_armed s) (wake_irq s) (key_callback_calls s)
    (error_callback_calls s).

Definition set_scan_interval (v : Z) (s : State) : State :=
  mkState (row_gpios s) (col_gpios s) (keymap s) (current_row s) (key_state s)
    (key_timestamp s) (debounce_time_press s) (debounce_time_release s)
    (event_queue s) (event_queue_head s) (event_queue_tail s) (error_queue s)
    (error_queue_head s) (error_queue_tail s) (key_callback s)
    (error_callback s) (scanning_active s) v (ghost_detection_enabled s)
    (stuck_detection_enabled s) (stuck_key_timeout s) (stats s)
    (pressed_keys s) (timer_armed s) (wake_irq s) (key_callback_calls s)
    (error_callback_calls s).

Definition set_ghost_detection_enabled (v : bool) (s : State) : State :=
  mkState (row_gpios s) (col_gpios s) (keymap s) (current_row s) (key_state s)
    (key_timestamp s) (debounce_time_press s) (debounce_time_release s)
    (event_queue s) (event_queue_head s) (event_queue_tail s) (error_queue s)
    (error_queue_head s) (error_queue_tail s) (key_callback s)
    (error_callback s) (scanning_active s) (scan_interval s) v
    (stuck_detection_enabled s) (stuck_key_timeout s) (stats s)
    (pressed_keys s) (timer_armed s) (wake_irq s) (key_callback_calls s)
    (error_callback_calls s).

Definition set_stuck_detection_enabled (v : bool) (s : State) : State :=
  mkState (row_gpios s) (col_gpios s) (keymap s) (current_row s) (key_state s)
    (key_timestamp s) (debounce_time_press s) (debounce_time_release s)
    (event_queue s) (event_queue_head s) (event_queue_tail s) (error_queue s)
    (error_queue_head s) (error_queue_tail s) (key_callback s)
    (error_callback s) (scanning_active s) (scan_interval s)
    (ghost_detection_enabled s) v (stuck_key_timeout s) (stats s)
    (pressed_keys s) (timer_armed s) (wake_irq s) (key_callback_calls s)
    (error_callback_calls s).

Definition set_stuck_key_timeout (v : Z) (s : State) : State :=
  mkState (row_gpios s) (col_gpios s) (keymap s) (current_row s) (key_state s)
    (key_timestamp s) (debounce_time_press s) (debounce_time_release s)
    (event_queue s) (event_queue_head s) (event_queue_tail s) (error_queue s)
    (error_queue_head s) (error_queue_tail s) (key_callback s)
    (error_callback s) (scanning_active s) (scan_interval s)
    (ghost_detection_enabled s) (stuck_detection_enabled s) v (stats s)
    (pressed_keys s) (timer_armed s) (wake_irq s) (key_callback_calls s)
    (error_callback_calls s).

Definition set_stats (v : ScanStatistics) (s : State) : State :=
  mkState (row_gpios s) (col_gpios s) (keymap s) (current_row s) (key_state s)
    (key_timestamp s) (debounce_time_press s) (debounce_time_release s)
    (event_queue s) (event_queue_head s) (event_queue_tail s) (error_queue s)
    (error_queue_head s) (error_queue_tail s) (key_callback s)
    (error_callback s) (scanning_active s) (scan_interval s)
    (ghost_detection_enabled s) (stuck_detection_enabled s)
    (stuck_key_timeout s) v (pressed_keys s) (timer_armed s) (wake_irq s)
    (key_callback_calls s) (error_callback_calls s).

Definition set_pressed_keys (v : grid) (s : State) : State :=
  mkState (row_gpios s) (col_gpios s) (keymap s) (current_row s) (key_state s)
    (key_timestamp s) (debounce_time_press s) (debounce_time_release s)
    (event_queue s) (event_queue_head s) (event_queue_tail s) (error_queue s)
    (error_queue_head s) (error_queue_tail s) (key_callback s)
    (error_callback s) (scanning_active s) (scan_interval s)
    (ghost_detection_enabled s) (stuck_detection_enabled s)
    (stuck_key_timeout s) (stats s) v (timer_armed s) (wake_irq s)
    (key_callback_calls s) (error_callback_calls s).

Definition set_timer_armed (v : bool) (s : State) : State :=
  mkState (row_gpios s) (col_gpios s) (keymap s) (current_row s) (key_state s)
    (key_timestamp s) (debounce_time_press s) (debounce_time_release s)
    (event_queue s) (event_queue_head s) (event_queue_tail s) (error_queue s)
    (error_queue_head s) (error_queue_tail s) (key_callback s)
    (error_callback s) (scanning_active s) (scan_interval s)
    (ghost_detection_enabled s) (stuck_detection_enabled s)
    (stuck_key_timeout s) (stats s) (pressed_keys s) v (wake_irq s)
    (key_callback_calls s) (error_callback_calls s).

Definition set_wake_irq (v : list Z) (s : State) : State :=
  mkState (row_gpios s) (col_gpios s) (keymap s) (current_row s) (key_state s)
    (key_timestamp s) (debounce_time_press s) (debounce_time_release s)
    (event_queue s) (event_queue_head s) (event_queue_tail s) (error_queue s)
    (error_queue_head s) (error_queue_tail s) (key_callback s)
    (error_callback s) (scanning_active s) (scan_interval s)
    (ghost_detection_enabled s) (stuck_detection_enabled s)
    (stuck_key_timeout s) (stats s) (pressed_keys s) (timer_armed s) v
    (key_callback_calls s) (error_callback_calls s).

Definition set_key_callback_calls (v : list KeyEvent) (s : State) : State :=
  mkState (row_gpios s) (col_gpios s) (keymap s) (current_row s) (key_state s)
    (key_timestamp s) (debounce_time_press s) (debounce_time_release s)
    (event_queue s) (event_queue_head s) (event_queue_tail s) (error_queue s)
    (error_queue_head s) (error_queue_tail s) (key_callback s)
    (error_callback s) (scanning_active s) (scan_interval s)
    (ghost_detection_enabled s) (stuck_detection_enabled s)
    (stuck_key_timeout s) (stats s) (pressed_keys s) (timer_armed s)
    (wake_irq s) v (error_callback_calls s).

Definition set_error_callback_calls (v : list ErrorEvent) (s : State) : State :=
  mkState (row_gpios s) (col_gpios s) (keymap s) (current_row s) (key_state s)
    (key_timestamp s) (debounce_time_press s) (debounce_time_release s)
    (event_queue s) (event_queue_head s) (event_queue_tail s) (error_queue s)
    (error_queue_head s) (error_queue_tail s) (key_callback s)
    (error_callback s) (scanning_active s) (scan_interval s)
    (ghost_detection_enabled s) (stuck_detection_enabled s)
    (stuck_key_timeout s) (stats s) (pressed_keys s) (timer_armed s)
    (wake_irq s) (key_callback_calls s) v.

Definition set_total_scans (v : Z) (st : ScanStatistics) : ScanStatistics :=
  mkStats v (total_events st) (total_errors st) (queue_overflows st) (max_scan_time_us st) (avg_scan_time_us st).

Definition set_total_events (v : Z) (st : ScanStatistics) : ScanStatistics :=
  mkStats (total_scans st) v (total_errors st) (queue_overflows st) (max_scan_time_us st) (avg_scan_time_us st).

Definition set_total_errors (v : Z) (st : ScanStatistics) : ScanStatistics :=
  mkStats (total_scans st) (total_events st) v (queue_overflows st) (max_scan_time_us st) (avg_scan_time_us st).

Definition set_queue_overflows (v : Z) (st : ScanStatistics) : ScanStatistics :=
  mkStats (total_scans st) (total_events st) (total_errors st) v (max_scan_time_us st) (avg_scan_time_us st).

Definition set_max_scan_time_us (v : Z) (st : ScanStatistics) : ScanStatistics :=
  mkStats (total_scans st) (total_events st) (total_errors st) (queue_overflows st) v (avg_scan_time_us st).

Definition set_avg_scan_time_us (v : Z) (st : ScanStatistics) : ScanStatistics :=
  mkStats (total_scans st) (total_events st) (total_errors st) (queue_overflows st) (max_scan_time_us st) v.


(** ** Initial values of the static variables *)

Definition initial_state : State :=
  mkState [0; 0; 0; 0] [0; 0; 0; 0] (fill2 0)
    0 (fill2 0) (fill2 0)
    DEBOUNCE_PRESS_MS DEBOUNCE_RELEASE_MS
    (repeat zero_event (Z.to_nat EVENT_QUEUE_SIZE)) 0 0
    (repeat zero_error (Z.to_nat ERROR_QUEUE_SIZE)) 0 0
    false false
    false SCAN_INTERVAL_US
    true true STUCK_KEY_TIMEOUT_MS
    zero_stats (fill2 0)
    false [] [] [].

(** ** Initialisation and configuration *)

(** [matrix_robust_init]: the pin and keymap copies, the three [memset]
    calls and the store of the scan interval; the GPIO direction and
    pull-up set-up has no counterpart in [State]. The closing [printf]
    prints [1000000 / scan_interval_us], a division C leaves undefined for a
    zero interval: the function then has no result. *)
Definition matrix_robust_init (row_pins col_pins : list Z)
    (scan_interval_us : Z) (s : State) : option State :=
  let s := set_row_gpios row_pins s in
  let s := set_col_gpios col_pins s in
  let s := set_keymap DEFAULT_KEYMAP s in
  let s := set_key_state (fill2 KEY_IDLE) s in
  let s := set_key_timestamp (fill2 0) s in
  let s := set_pressed_keys (fill2 0) s in
  let s := set_scan_interval scan_interval_us s in
  if scan_interval_us =? 0 then None else Some s.

Definition matrix_robust_set_keymap (custom_keymap : grid) (s : State) : State :=
  set_keymap custom_keymap s.

(** [add_repeating_timer_us] arms the scan timer, [cancel_repeating_timer]
    disarms it. *)
Definition matrix_robust_start (s : State) : State :=
  if negb (scanning_active s)
  then set_scanning_active true (set_timer_armed true s)
  else s.

Definition matrix_robust_stop (s : State) : State :=
  if scanning_active s
  then set_scanning_active false (set_timer_armed false s)
  else s.



Definition matrix_robust_set_ghost_detection (enable : bool) (s : State) : State :=
  set_ghost_detection_enabled enable s.

Definition matrix_robust_set_stuck_detection (enable : bool) (timeout_ms : Z)
    (s : State) : State :=
  set_stuck_key_timeout timeout_ms (set_stuck_detection_enabled enable s).

(** ** The two ring buffers *)

Definition incr_queue_overflows (s : State) : State :=
  set_stats (set_queue_overflows (u32 (queue_overflows (stats s) + 1)) (stats s)) s.

Definition incr_total_errors (s : State) : State :=
  set_stats (set_total_errors (u32 (total_errors (stats s) + 1)) (stats s)) s.

Definition incr_total_events (s : State) : State :=
  set_stats (set_total_events (u32 (total_events (stats s) + 1)) (stats s)) s.

Definition incr_total_scans (s : State) : State :=
  set_stats (set_total_scans (u32 (total_scans (stats s) + 1)) (stats s)) s.

(** [enqueue_event]: the returned [bool] is the C return value. *)
Definition enqueue_event (event : KeyEvent) (s : State) : bool * State :=
  let next_head := (event_queue_head s + 1) mod EVENT_QUEUE_SIZE in
  if next_head =? event_queue_tail s then
    (false, incr_queue_overflows s)
  else
    let s := set_event_queue
               (upd (Z.to_nat (event_queue_head s)) event (event_queue s)) s in
    (true, set_event_queue_head next_head s).

(** The call [error_callback(error)]. *)
Definition call_error_callback (error : ErrorEvent) (s : State) : State :=
  set_error_callback_calls (error_callback_calls s ++ [error]) s.

(** The call [key_callback(&event)]. *)
Definition call_key_callback (event : KeyEvent) (s : State) : State :=
  set_key_callback_calls (key_callback_calls s ++ [event]) s.

Definition enqueue_error (error : ErrorEvent) (s : State) : bool * State :=
  let next_head := (error_queue_head s + 1) mod ERROR_QUEUE_SIZE in
  if next_head =? error_queue_tail s then
    (false, s)
  else
    let s := set_error_queue
               (upd (Z.to_nat (error_queue_head s)) error (error_queue s)) s in
    let s := set_error_queue_head next_head s in
    let s := incr_total_errors s in
    let s := if error_callback s then call_error_callback error s else s in
    (true, s).

(** [matrix_robust_get_event]: [None] stands for the return value [false]
    (the caller's [*event] is then not written). *)
Definition matrix_robust_get_event (s : State) : option KeyEvent * State :=
  if event_queue_head s =? event_queue_tail s then (None, s)
  else
    let event := nth (Z.to_nat (event_queue_tail s)) (event_queue s) zero_event in
    (Some event,
     set_event_queue_tail ((event_queue_tail s + 1) mod EVENT_QUEUE_SIZE) s).

Definition matrix_robust_get_error (s : State) : option ErrorEvent * State :=
  if error_queue_head s =? error_queue_tail s then (None, s)
  else
    let error := nth (Z.to_nat (error_queue_tail s)) (error_queue s) zero_error in
    (Some error,
     set_error_queue_tail ((error_queue_tail s + 1) mod ERROR_QUEUE_SIZE) s).

Definition matrix_robust_any_key_pressed (s : State) : bool :=
  existsb (fun row =>
    existsb (fun col => negb (get2 (key_state s) row col =? KEY_IDLE))
            (seq 0 MATRIX_COLS))
    (seq 0 MATRIX_ROWS).

Definition matrix_robust_get_event_count (s : State) : Z :=
  if event_queue_tail s <=? event_queue_head s
  then u32 (event_queue_head s - event_queue_tail s)
  else u32 (u32 (EVENT_QUEUE_SIZE - event_queue_tail s) + event_queue_head s).

Definition matrix_robust_clear_events (s : State) : State :=
  set_event_queue_tail 0 (set_event_queue_head 0 s).

(** ** Anomaly detectors *)

(** The two counting loops of [detect_ghost_key] ([uint8_t] counters). *)
Definition keys_in_row (s : State) (row : nat) : Z :=
  fold_left (fun n c => if get2 (pressed_keys s) row c =? 0 then n else u8 (n + 1))
            (seq 0 MATRIX_COLS) 0.

Definition keys_in_col (s : State) (col : nat) : Z :=
  fold_left (fun n r => if get2 (pressed_keys s) r col =? 0 then n else u8 (n + 1))
            (seq 0 MATRIX_ROWS) 0.

Definition detect_ghost_key (row col : nat) (s : State) : bool :=
  (2 <=? keys_in_row s row) && (2 <=? keys_in_col s col).

Definition detect_stuck_key (row col : nat) (now : Z) (s : State) : bool :=
  let press_time := get2 (key_timestamp s) row col in
  stuck_key_timeout s <? u32 (now - press_time).

(** ** The scan step *)

(** What one run of [scan_timer_callback] reads from its environment:
    [time_us_32()] on entry and on exit, [to_ms_since_boot] after the row
    has settled, and [gpio_get] of the four column pins ([true] = high; a
    column that is not listed reads as high, the pull-up level). *)
Record ScanInput := mkScanInput {
  scan_start_us : Z;
  now_ms : Z;
  col_levels : list bool;
  scan_end_us : Z
}.

Definition gpio_get (i : ScanInput) (col : nat) : bool := nth col (col_levels i) true.

(** The delivery of a key event, written twice in the C loop body:
    [if (key_callback) key_callback(&event); else enqueue_event(&event);] *)
Definition deliver_key_event (event : KeyEvent) (s : State) : State :=
  if key_callback s then call_key_callback event s
  else snd (enqueue_event event s).

(** The body of the column loop of [scan_timer_callback], for column [col]
    of row [current_row]. The branches are in the order and under the
    conditions of the C text; the [continue] of the ghost path is the
    branch that returns straight after [enqueue_error]. *)
Definition scan_cell (i : ScanInput) (s : State) (col : nat) : State :=
  let now := now_ms i in
  let row := Z.to_nat (current_row s) in
  let pressed := negb (gpio_get i col) in
  let current_state := get2 (key_state s) row col in
  let last_change := get2 (key_timestamp s) row col in
  if pressed then
    if current_state =? KEY_IDLE then
      let s := set_key_timestamp (set2 (key_timestamp s) row col now) s in
      set_key_state (set2 (key_state s) row col KEY_IDLE) s
    else if (current_state =? KEY_IDLE)
            && (debounce_time_press s <=? u32 (now - last_change)) then
      if ghost_detection_enabled s && detect_ghost_key row col s then
        snd (enqueue_error
               (mkErrorEvent ERROR_GHOST_KEY (current_row s) (Z.of_nat col) now) s)
      else
        let event := mkKeyEvent (get2 (keymap s) row col) KEY_PRESSED
                       (current_row s) (Z.of_nat col) now in
        let s := set_key_state (set2 (key_state s) row col KEY_PRESSED) s in
        let s := set_pressed_keys (set2 (pressed_keys s) row col 1) s in
        let s := deliver_key_event event s in
        incr_total_events s
    else if current_state =? KEY_PRESSED then
      let s := set_key_state (set2 (key_state s) row col KEY_HELD) s in
      if stuck_detection_enabled s && detect_stuck_key row col now s then
        snd (enqueue_error
               (mkErrorEvent ERROR_STUCK_KEY (current_row s) (Z.of_nat col) now) s)
      else s
    else s
  else
    if (current_state =? KEY_PRESSED) || (current_state =? KEY_HELD) then
      set_key_timestamp (set2 (key_timestamp s) row col now) s
    else if ((current_state =? KEY_PRESSED) || (current_state =? KEY_HELD))
            && (debounce_time_release s <=? u32 (now - last_change)) then
      let event := mkKeyEvent (get2 (keymap s) row col) KEY_RELEASED
                     (current_row s) (Z.of_nat col) now in
      let s := set_key_state (set2 (key_state s) row col KEY_IDLE) s in
      let s := set_pressed_keys (set2 (pressed_keys s) row col 0) s in
      let s := deliver_key_event event s in
      incr_total_events s
    else s.

(** [for (int col = 0; col < MATRIX_COLS; col++) ...] *)
Definition scan_columns (i : ScanInput) (s : State) : State :=
  fold_left (scan_cell i) (seq 0 MATRIX_COLS) s.

(** The statistics update that ends the step. The division is by
    [stats.total_scans], which is zero only when the increment at the top of
    the step has wrapped; C leaves that division undefined, and the step
    then has no result. *)
Definition update_scan_time (scan_time : Z) (s : State) : option State :=
  let st := stats s in
  let st := if max_scan_time_us st <? scan_time
            then set_max_scan_time_us scan_time st else st in
  if total_scans st =? 0 then None
  else
    let avg := u32 (u32 (avg_scan_time_us st * u32 (total_scans st - 1)) + scan_time)
               / total_scans st in
    Some (set_stats (set_avg_scan_time_us avg st) s).

(** [scan_timer_callback]. The row outputs it drives are not part of
    [State]; the value it returns to the timer is always [true]. *)
Definition scan_timer_callback (i : ScanInput) (s : State) : option State :=
  let s := incr_total_scans s in
  let s := scan_columns i s in
  let s := set_current_row (u8 ((current_row s + 1) mod Z.of_nat MATRIX_ROWS)) s in
  let scan_time := u32 (scan_end_us i - scan_start_us i) in
  update_scan_time scan_time s.

(** Successive scan steps, one [ScanInput] per timer tick. *)
Fixpoint run_scans (inputs : list ScanInput) (s : State) : option State :=
  match inputs with
  | [] => Some s
  | i :: rest =>
      match scan_timer_callback i s with
      | Some s' => run_scans rest s'
      | None => None
      end
  end.

(** ** Wake interrupt, statistics access and low power *)

Definition irq_enabled (s : State) (gpio : Z) : bool :=
  existsb (Z.eqb gpio) (wake_irq s).

(** [gpio_set_irq_enabled(gpio, GPIO_IRQ_EDGE_FALL, enabled)]. *)
Definition gpio_set_irq_enabled (gpio : Z) (enabled : bool) (s : State) : State :=
  let others := filter (fun g => negb (g =? gpio)) (wake_irq s) in
  set_wake_irq (if enabled then gpio :: others else others) s.

Definition matrix_robust_enable_wake_interrupt (s : State) : State :=
  fold_left (fun s i => gpio_set_irq_enabled (nth i (col_gpios s) 0) true s)
            (seq 0 MATRIX_COLS) s.

Definition matrix_robust_disable_wake_interrupt (s : State) : State :=
  fold_left (fun s i => gpio_set_irq_enabled (nth i (col_gpios s) 0) false s)
            (seq 0 MATRIX_COLS) s.

(** [gpio_interrupt_callback]; neither argument is read. *)
Definition gpio_interrupt_callback (gpio events : Z) (s : State) : State :=
  if negb (scanning_active s) then matrix_robust_start s else s.

Definition matrix_robust_get_statistics (s : State) : ScanStatistics := stats s.

Definition matrix_robust_reset_statistics (s : State) : State :=
  set_stats zero_stats s.

Definition matrix_robust_enter_low_power (s : State) : State :=
  matrix_robust_enable_wake_interrupt (matrix_robust_stop s).

Definition matrix_robust_exit_low_power (s : State) : State :=
  matrix_robust_start (matrix_robust_disable_wake_interrupt s).

(** The wake path of the STM32 port, [matrix_robust_exti_callback] of
    src/stm32/matrix_robust_stm32.c, on the same state ([GPIO_Pin] is
    compared with the pin of each column; [scan_timer] is taken as set). *)
Definition matrix_robust_exti_callback (GPIO_Pin : Z) (s : State) : State :=
  if existsb (fun i => GPIO_Pin =? nth i (col_gpios s) 0) (seq 0 MATRIX_COLS) then
    if negb (scanning_active s) then matrix_robust_exit_low_power s else s
  else s.

(** The engine state of the specification, read off the C variables: the
    engine is Active while [scanning_active] is set, in LowPower while it is
    not and the wake interrupt of some column pin is enabled, and Stopped
    otherwise. *)
Inductive EngineState := Stopped | Active | LowPower.

Definition wake_armed (s : State) : bool :=
  existsb (fun i => irq_enabled s (nth i (col_gpios s) 0)) (seq 0 MATRIX_COLS).

Definition engine_state (s : State) : EngineState :=
  if scanning_active s then Active
  else if wake_armed s then LowPower else Stopped.

(** * Auxiliary definitions for the proofs *)

(** Whether [g[r][c]] lies inside the array. *)
Definition inb (g : grid) (r c : nat) : bool :=
  ((r <? length g)%nat && (c <? length (nth r g []))%nat)%bool.


(** In [scan_cell] the second test of each chain repeats the first one
    ([current_state == KEY_IDLE], respectively
    [current_state == KEY_PRESSED || current_state == KEY_HELD]) in
    conjunction with the debounce test, so the branch it guards is never
    taken. [scan_cell_live] is [scan_cell] without those two branches. *)
Definition scan_cell_live (i : ScanInput) (s : State) (col : nat) : State :=
  let now := now_ms i in
  let row := Z.to_nat (current_row s) in
  let current_state := get2 (key_state s) row col in
  if negb (gpio_get i col) then
    if current_state =? KEY_IDLE then
      let s := set_key_timestamp (set2 (key_timestamp s) row col now) s in
      set_key_state (set2 (key_state s) row col KEY_IDLE) s
    else if current_state =? KEY_PRESSED then
      let s := set_key_state (set2 (key_state s) row col KEY_HELD) s in
      if stuck_detection_enabled s && detect_stuck_key row col now s then
        snd (enqueue_error
               (mkErrorEvent ERROR_STUCK_KEY (current_row s) (Z.of_nat col) now) s)
      else s
    else s
  else
    if (current_state =? KEY_PRESSED) || (current_state =? KEY_HELD) then
      set_key_timestamp (set2 (key_timestamp s) row col now) s
    else s.


(** What no scan step writes: the configuration, the whole key-event path
    (queue, indices, callback calls, [total_events], [queue_overflows]),
    the ghost buffer, the read index of the error queue, and the timer and
    wake-interrupt state. *)
Record scan_frame (s s' : State) : Prop := mkScanFrame {
  fr_row_gpios : row_gpios s' = row_gpios s;
  fr_col_gpios : col_gpios s' = col_gpios s;
  fr_keymap : keymap s' = keymap s;
  fr_debounce_press : debounce_time_press s' = debounce_time_press s;
  fr_debounce_release : debounce_time_release s' = debounce_time_release s;
  fr_event_queue : event_queue s' = event_queue s;
  fr_event_queue_head : event_queue_head s' = event_queue_head s;
  fr_event_queue_tail : event_queue_tail s' = event_queue_tail s;
  fr_error_queue_tail : error_queue_tail s' = error_queue_tail s;
  fr_key_callback : key_callback s' = key_callback s;
  fr_error_callback : error_callback s' = error_callback s;
  fr_scanning_active : scanning_active s' = scanning_active s;
  fr_scan_interval : scan_interval s' = scan_interval s;
  fr_ghost_enabled : ghost_detection_enabled s' = ghost_detection_enabled s;
  fr_stuck_enabled : stuck_detection_enabled s' = stuck_detection_enabled s;
  fr_stuck_timeout : stuck_key_timeout s' = stuck_key_timeout s;
  fr_pressed_keys : pressed_keys s' = pressed_keys s;
  fr_timer_armed : timer_armed s' = timer_armed s;
  fr_wake_irq : wake_irq s' = wake_irq s;
  fr_key_callback_calls : key_callback_calls s' = key_callback_calls s;
  fr_total_events : total_events (stats s') = total_events (stats s);
  fr_queue_overflows : queue_overflows (stats s') = queue_overflows (stats s)
}.


(** ** States equal up to the bookkeeping of a step *)

(** Two states that differ at most in [current_row] and in the scan count
    and scan times of [stats]: the relation between a state and the one
    left by the bookkeeping around the column loop. *)
Record same_engine (s s' : State) : Prop := mkSameEngine {
  se_row_gpios : row_gpios s' = row_gpios s;
  se_col_gpios : col_gpios s' = col_gpios s;
  se_keymap : keymap s' = keymap s;
  se_key_state : key_state s' = key_state s;
  se_key_timestamp : key_timestamp s' = key_timestamp s;
  se_debounce_time_press : debounce_time_press s' = debounce_time_press s;
  se_debounce_time_release : debounce_time_release s' = debounce_time_release s;
  se_event_queue : event_queue s' = event_queue s;
  se_event_queue_head : event_queue_head s' = event_queue_head s;
  se_event_queue_tail : event_queue_tail s' = event_queue_tail s;
  se_error_queue : error_queue s' = error_queue s;
  se_error_queue_head : error_queue_head s' = error_queue_head s;
  se_error_queue_tail : error_queue_tail s' = error_queue_tail s;
  se_key_callback : key_callback s' = key_callback s;
  se_error_callback : error_callback s' = error_callback s;
  se_scanning_active : scanning_active s' = scanning_active s;
  se_scan_interval : scan_interval s' = scan_interval s;
  se_ghost_detection_enabled : ghost_detection_enabled s' = ghost_detection_enabled s;
  se_stuck_detection_enabled : stuck_detection_enabled s' = stuck_detection_enabled s;
  se_stuck_key_timeout : stuck_key_timeout s' = stuck_key_timeout s;
  se_pressed_keys : pressed_keys s' = pressed_keys s;
  se_timer_armed : timer_armed s' = timer_armed s;
  se_wake_irq : wake_irq s' = wake_irq s;
  se_key_callback_calls : key_callback_calls s' = key_callback_calls s;
  se_error_callback_calls : error_callback_calls s' = error_callback_calls s;
  se_total_events : total_events (stats s') = total_events (stats s);
  se_total_errors : total_errors (stats s') = total_errors (stats s);
  se_queue_overflows : queue_overflows (stats s') = queue_overflows (stats s)
}.

(** The only change of [key_state] that a step makes: a cell in
    [KEY_PRESSED] becomes [KEY_HELD]. *)
Definition cell_step (old new : Z) : Prop :=
  new = old \/ (old = KEY_PRESSED /\ new = KEY_HELD).

Ltac split_ifs :=
  repeat match goal with
         | |- context [if ?b then _ else _] => destruct b eqn:?
         end.


(** A cell counts as logically pressed in [KEY_PRESSED] and [KEY_HELD]. *)
Definition is_pressed_state (v : Z) : bool :=
  (v =? KEY_PRESSED) || (v =? KEY_HELD).

(** The error path left as it was: queue, write index, callback calls and
    [total_errors]. *)
Record errors_same (s s' : State) : Prop := mkErrorsSame {
  es_error_queue : error_queue s' = error_queue s;
  es_error_queue_head : error_queue_head s' = error_queue_head s;
  es_error_callback_calls : error_callback_calls s' = error_callback_calls s;
  es_total_errors : total_errors (stats s') = total_errors (stats s)
}.

(** No cell of the board is in [KEY_PRESSED]. *)
Definition no_pressed (s : State) : Prop :=
  forall r c : nat, get2 (key_state s) r c <> KEY_PRESSED.

(** The same, as a test on the array. *)
Definition no_pressedb (s : State) : bool :=
  forallb (forallb (fun v => negb (v =? KEY_PRESSED))) (key_state s).

(** No ghost-key report is stored in the error queue or was handed to the
    error callback. *)
Definition no_ghost_recorded (s : State) : Prop :=
  Forall (fun e => error_code e <> ERROR_GHOST_KEY) (error_queue s) /\
  Forall (fun e => error_code e <> ERROR_GHOST_KEY) (error_callback_calls s).

(** The ghost buffer mirrors the debounced state of every cell. *)
Definition ghost_buffer_consistent (s : State) : Prop :=
  forall r c : nat, (r < MATRIX_ROWS)%nat -> (c < MATRIX_COLS)%nat ->
    get2 (pressed_keys s) r c =
    if is_pressed_state (get2 (key_state s) r c) then 1 else 0.

(** Number of debounce-confirmed pressed cells of a row and of a column. *)
Definition pressed_in_row (s : State) (row : nat) : Z :=
  Z.of_nat (length (filter (fun c => is_pressed_state (get2 (key_state s) row c))
                           (seq 0 MATRIX_COLS))).

Definition pressed_in_col (s : State) (col : nat) : Z :=
  Z.of_nat (length (filter (fun r => is_pressed_state (get2 (key_state s) r col))
                           (seq 0 MATRIX_ROWS))).

(** ** Concrete boards and input traces *)

Definition result_or (d : State) (o : option State) : State :=
  match o with Some s => s | None => d end.

(** The engine after [matrix_robust_init] with the pins of
    main_robust_example.c and a 1 kHz scan. *)
Definition idle_board : State :=
  Eval vm_compute in
    result_or initial_state
      (matrix_robust_init [2; 3; 4; 5] [6; 7; 8; 9] 1000 initial_state).

(** The scan step at millisecond [n]: it starts at [1000 n] us and takes
    12 us. *)
Definition tick (n : Z) (levels : list bool) : ScanInput :=
  mkScanInput (1000 * n) n levels (1000 * n + 12).

(** Scans at milliseconds [t0, t0 + 1, ...], [n] of them, starting with
    [current_row = 0]; [closed k] tells whether key (0,0) is closed at scan
    [k]. Column 0 reads low exactly when row 0 is driven and the key is
    closed. *)
Definition key00_trace (t0 : Z) (n : nat) (closed : nat -> bool) : list ScanInput :=
  map (fun k => tick (t0 + Z.of_nat k)
                  [negb ((k mod 4 =? 0)%nat && closed k); true; true; true])
      (seq 0 n).

(** [force_cell r c st ts]: the board with cell [(r, c)] put in state [st]
    at time [ts], the ghost buffer kept in step. *)
Definition force_cell (r c : nat) (st ts : Z) (s : State) : State :=
  let s := set_key_state (set2 (key_state s) r c st) s in
  let s := set_key_timestamp (set2 (key_timestamp s) r c ts) s in
  set_pressed_keys
    (set2 (pressed_keys s) r c (if is_pressed_state st then 1 else 0)) s.

(** Key (0,0) closed for 40 ms from boot. *)
Definition press00_inputs : list ScanInput := key00_trace 0 40 (fun _ => true).
Definition press00_result : State :=
  Eval vm_compute in result_or initial_state (run_scans press00_inputs idle_board).

(** Key (0,0) confirmed pressed at 0 ms, then open for 80 ms from 100 ms. *)
Definition pressed00_board : State := force_cell 0 0 KEY_PRESSED 0 idle_board.
Definition release00_inputs : list ScanInput := key00_trace 100 80 (fun _ => false).
Definition release00_result : State :=
  Eval vm_compute in
    result_or initial_state (run_scans release00_inputs pressed00_board).

(** Key (0,0) held since 0 ms and still closed from 6000 ms on, past the
    5000 ms stuck-key timeout. *)
Definition held00_board : State := force_cell 0 0 KEY_HELD 0 idle_board.
Definition stuck00_inputs : list ScanInput := key00_trace 6000 40 (fun _ => true).
Definition stuck00_result : State :=
  Eval vm_compute in
    result_or initial_state (run_scans stuck00_inputs held00_board).

(** The ghost scene: (2,0), (2,1), (0,2) and (1,2) are held, row 2 is
    about to be scanned, and (2,2) has read closed since 70 ms. *)
Definition ghost_board : State :=
  set_current_row 2
    (force_cell 2 2 KEY_IDLE 70
      (force_cell 2 0 KEY_HELD 0 (force_cell 2 1 KEY_HELD 0
        (force_cell 0 2 KEY_HELD 0 (force_cell 1 2 KEY_HELD 0 idle_board))))).
Definition ghost_input : ScanInput := tick 100 [false; false; false; true].
Definition ghost_result : State :=
  Eval vm_compute in
    result_or initial_state (scan_timer_callback ghost_input ghost_board).

(** ** Using the event queue *)

(** [enqueue_event] for each event of a list, in order. *)
Definition enqueue_events (es : list KeyEvent) (s : State) : State :=
  fold_left (fun s e => snd (enqueue_event e s)) es s.

(** At most [n] calls of [matrix_robust_get_event], stopping at the first
    that finds the queue empty; the events returned, oldest first. *)
Fixpoint drain_events (n : nat) (s : State) : list KeyEvent * State :=
  match n with
  | O => ([], s)
  | S n' =>
      match matrix_robust_get_event s with
      | (Some e, s') => let (l, s'') := drain_events n' s' in (e :: l, s'')
      | (None, s') => ([], s')
      end
  end.

(** The event array has its 32 slots and both indices are inside it. *)
Definition event_queue_wf (s : State) : Prop :=
  length (event_queue s) = Z.to_nat EVENT_QUEUE_SIZE /\
  0 <= event_queue_head s < EVENT_QUEUE_SIZE /\
  0 <= event_queue_tail s < EVENT_QUEUE_SIZE.

(** The events between the read and the write index, oldest first. *)
Definition pending_events (s : State) : list KeyEvent :=
  map (fun k => nth (Z.to_nat ((event_queue_tail s + Z.of_nat k) mod EVENT_QUEUE_SIZE))
                    (event_queue s) zero_event)
      (seq 0 (Z.to_nat ((event_queue_head s - event_queue_tail s)
                        mod EVENT_QUEUE_SIZE))).

(** Press events E1 .. En: key code and timestamp [k] for the k-th. *)
Definition numbered_events (n : nat) : list KeyEvent :=
  map (fun k => mkKeyEvent (Z.of_nat k) KEY_PRESSED 0 0 (Z.of_nat k)) (seq 1 n).

(** ** Operations on the engine, as a caller or the timer issues them *)

Inductive EngineOp :=
| OpScan (i : ScanInput)
| OpEnqueueEvent (e : KeyEvent)
| OpEnqueueError (e : ErrorEvent)
| OpGetEvent
| OpGetError.

Definition apply_op (op : EngineOp) (s : State) : option State :=
  match op with
  | OpScan i => scan_timer_callback i s
  | OpEnqueueEvent e => Some (snd (enqueue_event e s))
  | OpEnqueueError e => Some (snd (enqueue_error e s))
  | OpGetEvent => Some (snd (matrix_robust_get_event s))
  | OpGetError => Some (snd (matrix_robust_get_error s))
  end.

Fixpoint run_ops (ops : list EngineOp) (s : State) : option State :=
  match ops with
  | [] => Some s
  | op :: rest =>
      match apply_op op s with
      | Some s' => run_ops rest s'
      | None => None
      end
  end.

(** Stuck-key reports for key (0,0) at times 1 .. n. *)
Definition numbered_errors (n : nat) : list ErrorEvent :=
  map (fun k => mkErrorEvent ERROR_STUCK_KEY 0 0 (Z.of_nat k)) (seq 1 n).

Definition enqueue_errors (es : list ErrorEvent) (s : State) : State :=
  fold_left (fun s e => snd (enqueue_error e s)) es s.

(** The error queue holding the seven reports it has room for. *)
Definition full_error_board : State :=
  Eval vm_compute in enqueue_errors (numbered_errors 7) idle_board.

(** The event queue full and [queue_overflows] at its largest value. *)
Definition overflowing_board : State :=
  Eval vm_compute in
    set_stats (set_queue_overflows UINT32_MAX zero_stats)
      (enqueue_events (numbered_events 31) idle_board).



(** A scan, an enqueue and a drain of each queue. *)
Definition sample_ops : list EngineOp :=
  [ OpScan (tick 0 [false; true; true; true]);
    OpEnqueueEvent (mkKeyEvent 1 KEY_PRESSED 0 0 1);
    OpEnqueueError (mkErrorEvent ERROR_STUCK_KEY 0 0 1);
    OpGetEvent;
    OpGetError ].

(** ** Using the error queue *)

(** At most [n] calls of [matrix_robust_get_error], stopping at the first
    that finds the queue empty; the reports returned, oldest first. *)
Fixpoint drain_errors (n : nat) (s : State) : list ErrorEvent * State :=
  match n with
  | O => ([], s)
  | S n' =>
      match matrix_robust_get_error s with
      | (Some e, s') => let (l, s'') := drain_errors n' s' in (e :: l, s'')
      | (None, s') => ([], s')
      end
  end.

(** The error array has its 8 slots and both indices are inside it. *)
Definition error_queue_wf (s : State) : Prop :=
  length (error_queue s) = Z.to_nat ERROR_QUEUE_SIZE /\
  0 <= error_queue_head s < ERROR_QUEUE_SIZE /\
  0 <= error_queue_tail s < ERROR_QUEUE_SIZE.

(** The reports between the read and the write index, oldest first. *)
Definition pending_errors (s : State) : list ErrorEvent :=
  map (fun k => nth (Z.to_nat ((error_queue_tail s + Z.of_nat k) mod ERROR_QUEUE_SIZE))
                    (error_queue s) zero_error)
      (seq 0 (Z.to_nat ((error_queue_head s - error_queue_tail s)
                        mod ERROR_QUEUE_SIZE))).

(** ** The board as an array *)

(** A 4x4 array. *)
Definition grid_wf (g : grid) : Prop :=
  length g = MATRIX_ROWS /\ Forall (fun row => length row = MATRIX_COLS) g.

(** The three per-cell arrays have their 4x4 shape and the row cursor is a
    row index. *)
Definition board_wf (s : State) : Prop :=
  grid_wf (key_state s) /\ grid_wf (key_timestamp s) /\
  grid_wf (pressed_keys s) /\ 0 <= current_row s < Z.of_nat MATRIX_ROWS.

(** The duration of a scan step as the step computes it. *)
Definition scan_time (i : ScanInput) : Z :=
  u32 (scan_end_us i - scan_start_us i).

(** What a scan step does to the state and to the timestamp of a cell of
    the scanned row, given the level read on its column. *)
Definition next_key_state (closed : bool) (st : Z) : Z :=
  if closed && (st =? KEY_PRESSED) then KEY_HELD else st.

Definition next_key_timestamp (closed : bool) (st ts now : Z) : Z :=
  if closed then (if st =? KEY_IDLE then now else ts)
  else (if is_pressed_state st then now else ts).

(** The timer is armed exactly while [scanning_active] is set. *)
Definition timer_consistent (s : State) : Prop :=
  timer_armed s = scanning_active s.

(** Key (0,0) Pressed at 0 ms while (0,1) is Idle; at 7 ms row 0 is scanned
    with both columns reading closed. *)
Definition two_key_input : ScanInput := tick 7 [false; false; true; true].
Definition two_key_result : State :=
  Eval vm_compute in
    result_or initial_state (scan_timer_callback two_key_input pressed00_board).

(** The first scan after initialisation, key (0,0) closed. *)
Definition first_scan_input : ScanInput := tick 0 [false; true; true; true].
Definition first_scan_result : State :=
  Eval vm_compute in
    result_or initial_state (scan_timer_callback first_scan_input idle_board).

(** Key (0,0) Pressed since 0 ms and scanned closed at 6000 ms, stuck
    detection at its defaults. *)
Definition stuck_fire_input : ScanInput := tick 6000 [false; true; true; true].
Definition stuck_fire_result : State :=
  Eval vm_compute in
    result_or initial_state (scan_timer_callback stuck_fire_input pressed00_board).

(** ** The function-mode layer (stm32/keymap_functions_stm32.c) *)

Definition MAX_FUNCTION_KEYS : Z := 15.

Inductive OperatingMode := MODE_NORMAL | MODE_FUNCTION.

(** The functions a table entry can point to: the five of the file, or a
    function of the application, told apart by a number. *)
Inductive KeyActionFunc :=
| function_key_1 | function_key_2 | function_key_3
| function_key_4 | function_key_5
| user_function (id : Z).

(** The two static variables of the file, and the calls made through the
    table, oldest first, each with the key it was given. A [NULL] entry is
    [None]. *)
Record KeymapState := mkKeymapState {
  current_mode : OperatingMode;
  function_table : list (option KeyActionFunc);
  function_calls : list (KeyActionFunc * Z)
}.

Definition keymap_init (k : KeymapState) : KeymapState :=
  let t := repeat None (Z.to_nat MAX_FUNCTION_KEYS) in
  let t := upd 1 (Some function_key_1) t in
  let t := upd 2 (Some function_key_2) t in
  let t := upd 3 (Some function_key_3) t in
  let t := upd 4 (Some function_key_4) t in
  let t := upd 5 (Some function_key_5) t in
  mkKeymapState MODE_NORMAL t (function_calls k).

(** [keymap_process_key]; [key] is a [uint8_t]. *)
Definition keymap_process_key (key : Z) (k : KeymapState) : bool * KeymapState :=
  if key =? 0xF then
    match current_mode k with
    | MODE_NORMAL =>
        (true, mkKeymapState MODE_FUNCTION (function_table k) (function_calls k))
    | MODE_FUNCTION =>
        (true, mkKeymapState MODE_NORMAL (function_table k) (function_calls k))
    end
  else
    match current_mode k with
    | MODE_FUNCTION =>
        if key <? MAX_FUNCTION_KEYS then
          match nth (Z.to_nat key) (function_table k) None with
          | Some f =>
              (true, mkKeymapState (current_mode k) (function_table k)
                       (function_calls k ++ [(f, key)]))
          | None => (true, k)
          end
        else (true, k)
    | MODE_NORMAL => (false, k)
    end.

Definition keymap_get_mode (k : KeymapState) : OperatingMode := current_mode k.

Definition keymap_set_function (key : Z) (func : option KeyActionFunc)
    (k : KeymapState) : KeymapState :=
  if key <? MAX_FUNCTION_KEYS then
    mkKeymapState (current_mode k)
      (upd (Z.to_nat key) func (function_table k)) (function_calls k)
  else k.

Definition keymap_clear_function (key : Z) (k : KeymapState) : KeymapState :=
  if key <? MAX_FUNCTION_KEYS then
    mkKeymapState (current_mode k)
      (upd (Z.to_nat key) None (function_table k)) (function_calls k)
  else k.

(** The table has its 15 entries. *)
Definition keymap_wf (k : KeymapState) : Prop :=
  length (function_table k) = Z.to_nat MAX_FUNCTION_KEYS.

(** The static variables as the file initialises them. *)
Definition keymap_initial : KeymapState :=
  mkKeymapState MODE_NORMAL (repeat None (Z.to_nat MAX_FUNCTION_KEYS)) [].

(** * The polled driver (matrix.c) *)

(** [matrix.c] keeps its own static variables and its own [KeyEvent]
    (without a timestamp); the names of matrix.h are kept inside the module.
    The key-state constants have the values of matrix_robust.h and are
    shared. *)
Module Matrix.

Definition DEBOUNCE_PRESS : Z := 3.
Definition DEBOUNCE_RELEASE : Z := 3.

Record KeyEvent := mkKeyEvent {
  key : Z;
  state : Z;
  row : Z;
  col : Z
}.

Record State := mkState {
  row_gpios : list Z;
  col_gpios : list Z;
  keymap : grid;
  current_row : Z;
  last_key_state : grid;
  debounce_counter : grid;
  current_key_state : grid;
  last_pressed_row : Z;
  last_pressed_col : Z
}.

Definition set_current_row (v : Z) (s : State) : State :=
  mkState (row_gpios s) (col_gpios s) (keymap s) v (last_key_state s)
    (debounce_counter s) (current_key_state s) (last_pressed_row s)
    (last_pressed_col s).

Definition set_last_key_state (v : grid) (s : State) : State :=
  mkState (row_gpios s) (col_gpios s) (keymap s) (current_row s) v
    (debounce_counter s) (current_key_state s) (last_pressed_row s)
    (last_pressed_col s).

Definition set_debounce_counter (v : grid) (s : State) : State :=
  mkState (row_gpios s) (col_gpios s) (keymap s) (current_row s)
    (last_key_state s) v (current_key_state s) (last_pressed_row s)
    (last_pressed_col s).

Definition set_current_key_state (v : grid) (s : State) : State :=
  mkState (row_gpios s) (col_gpios s) (keymap s) (current_row s)
    (last_key_state s) (debounce_counter s) v (last_pressed_row s)
    (last_pressed_col s).

Definition set_last_pressed (r c : Z) (s : State) : State :=
  mkState (row_gpios s) (col_gpios s) (keymap s) (current_row s)
    (last_key_state s) (debounce_counter s) (current_key_state s) r c.

Definition initial_state : State :=
  mkState [0; 0; 0; 0] [0; 0; 0; 0] (fill2 0) 0 (fill2 0) (fill2 0) (fill2 0)
    0xFF 0xFF.

(** [matrix_init]; the GPIO set-up has no counterpart in [State]. *)
Definition matrix_init (row_pins col_pins : list Z) (s : State) : State :=
  mkState row_pins col_pins DEFAULT_KEYMAP (current_row s)
    (fill2 KEY_IDLE) (fill2 0) (fill2 KEY_IDLE)
    (last_pressed_row s) (last_pressed_col s).

Definition matrix_set_keymap (custom_keymap : grid) (s : State) : State :=
  mkState (row_gpios s) (col_gpios s) custom_keymap (current_row s)
    (last_key_state s) (debounce_counter s) (current_key_state s)
    (last_pressed_row s) (last_pressed_col s).

(** The body of the column loop of [matrix_scan]. [event_given] tells
    whether the [event] pointer is non-null; the accumulator carries the
    state and the event written so far, [Some] exactly when
    [event_detected] is set. [levels] are the column levels read while the
    row is driven ([true] = high). *)
Definition scan_col (event_given : bool) (levels : list bool)
    (acc : State * option KeyEvent) (c : nat) : State * option KeyEvent :=
  let (s, ev) := acc in
  let r := Z.to_nat (current_row s) in
  let pressed := negb (nth c levels true) in
  let cnt := get2 (debounce_counter s) r c in
  let s :=
    if pressed then
      if cnt <? DEBOUNCE_PRESS
      then set_debounce_counter (set2 (debounce_counter s) r c (u8 (cnt + 1))) s
      else s
    else
      if 0 <? cnt
      then set_debounce_counter (set2 (debounce_counter s) r c (u8 (cnt - 1))) s
      else s in
  let new_state :=
    if DEBOUNCE_PRESS <=? get2 (debounce_counter s) r c
    then KEY_PRESSED else KEY_IDLE in
  let last := get2 (last_key_state s) r c in
  if negb (new_state =? last) then
    let (s, ev) :=
      if (new_state =? KEY_PRESSED) && (last =? KEY_IDLE) then
        let (s, ev) :=
          match ev with
          | None =>
              if event_given then
                (set_last_pressed (current_row s) (Z.of_nat c) s,
                 Some (mkKeyEvent (get2 (keymap s) r c) KEY_PRESSED
                         (current_row s) (Z.of_nat c)))
              else (s, None)
          | Some _ => (s, ev)
          end in
        (set_current_key_state (set2 (current_key_state s) r c KEY_PRESSED) s, ev)
      else if (new_state =? KEY_IDLE) && (last =? KEY_PRESSED) then
        let ev :=
          match ev with
          | None =>
              if event_given then
                Some (mkKeyEvent (get2 (keymap s) r c) KEY_RELEASED
                        (current_row s) (Z.of_nat c))
              else None
          | Some _ => ev
          end in
        (set_current_key_state (set2 (current_key_state s) r c KEY_IDLE) s, ev)
      else (s, ev) in
    (set_last_key_state (set2 (last_key_state s) r c new_state) s, ev)
  else if (new_state =? KEY_PRESSED) && (last =? KEY_PRESSED) then
    (set_current_key_state (set2 (current_key_state s) r c KEY_HELD) s, ev)
  else (s, ev).

(** [matrix_scan]: the event written through [event], [Some] exactly when
    the function returns [true], and the state it leaves. *)
Definition matrix_scan (event_given : bool) (levels : list bool) (s : State)
  : option KeyEvent * State :=
  let (s, ev) := fold_left (scan_col event_given levels) (seq 0 MATRIX_COLS)
                   (s, None) in
  (ev, set_current_row (u8 ((current_row s + 1) mod Z.of_nat MATRIX_ROWS)) s).

(** [matrix_get_key]: [levels r] are the column levels read while row [r]
    is driven. *)
Fixpoint get_key_rows (levels : nat -> list bool) (s : State) (rows : list nat)
  : Z :=
  match rows with
  | [] => 0
  | r :: rest =>
      match find (fun c => negb (nth c (levels r) true)) (seq 0 MATRIX_COLS) with
      | Some c => get2 (keymap s) r c
      | None => get_key_rows levels s rest
      end
  end.

Definition matrix_get_key (levels : nat -> list bool) (s : State) : Z :=
  get_key_rows levels s (seq 0 MATRIX_ROWS).

Definition matrix_any_key_pressed (s : State) : bool :=
  existsb (fun r =>
    existsb (fun c => negb (get2 (current_key_state s) r c =? KEY_IDLE))
            (seq 0 MATRIX_COLS))
    (seq 0 MATRIX_ROWS).

(** ** What one column of a scan does to its cell *)

Definition next_counter (closed : bool) (cnt : Z) : Z :=
  if closed then (if cnt <? DEBOUNCE_PRESS then u8 (cnt + 1) else cnt)
  else (if 0 <? cnt then u8 (cnt - 1) else cnt).

Definition debounced (cnt : Z) : Z :=
  if DEBOUNCE_PRESS <=? cnt then KEY_PRESSED else KEY_IDLE.

(** The kind of event a change of the debounced state stands for. *)
Definition transition (new last : Z) : option Z :=
  if negb (new =? last) then
    if (new =? KEY_PRESSED) && (last =? KEY_IDLE) then Some KEY_PRESSED
    else if (new =? KEY_IDLE) && (last =? KEY_PRESSED) then Some KEY_RELEASED
    else None
  else None.

Definition next_current (new last cur : Z) : Z :=
  if negb (new =? last) then
    if (new =? KEY_PRESSED) && (last =? KEY_IDLE) then KEY_PRESSED
    else if (new =? KEY_IDLE) && (last =? KEY_PRESSED) then KEY_IDLE
    else cur
  else if (new =? KEY_PRESSED) && (last =? KEY_PRESSED) then KEY_HELD
  else cur.

(** The event of column [c] of the scanned row, if its debounced state
    changes in this scan. *)
Definition column_event (levels : list bool) (s : State) (c : nat)
  : option KeyEvent :=
  let r := Z.to_nat (current_row s) in
  let new := debounced (next_counter (negb (nth c levels true))
                          (get2 (debounce_counter s) r c)) in
  option_map (fun st => mkKeyEvent (get2 (keymap s) r c) st (current_row s)
                          (Z.of_nat c))
             (transition new (get2 (last_key_state s) r c)).

(** The event of the first column of [cols] that has one. *)
Fixpoint first_event (levels : list bool) (s : State) (cols : list nat)
  : option KeyEvent :=
  match cols with
  | [] => None
  | c :: rest =>
      match column_event levels s c with
      | Some e => Some e
      | None => first_event levels s rest
      end
  end.

(** The two halves of the loop body: the counter update, and what follows
    from the new debounced state [new] and the last one [last]. *)
Definition bump_counter (levels : list bool) (s : State) (c : nat) : State :=
  let r := Z.to_nat (current_row s) in
  let cnt := get2 (debounce_counter s) r c in
  if negb (nth c levels true) then
    if cnt <? DEBOUNCE_PRESS
    then set_debounce_counter (set2 (debounce_counter s) r c (u8 (cnt + 1))) s
    else s
  else
    if 0 <? cnt
    then set_debounce_counter (set2 (debounce_counter s) r c (u8 (cnt - 1))) s
    else s.

Definition settle (event_given : bool) (s : State) (ev : option KeyEvent)
    (c : nat) (new last : Z) : State * option KeyEvent :=
  let r := Z.to_nat (current_row s) in
  if negb (new =? last) then
    let (s, ev) :=
      if (new =? KEY_PRESSED) && (last =? KEY_IDLE) then
        let (s, ev) :=
          match ev with
          | None =>
              if event_given then
                (set_last_pressed (current_row s) (Z.of_nat c) s,
                 Some (mkKeyEvent (get2 (keymap s) r c) KEY_PRESSED
                         (current_row s) (Z.of_nat c)))
              else (s, None)
          | Some _ => (s, ev)
          end in
        (set_current_key_state (set2 (current_key_state s) r c KEY_PRESSED) s, ev)
      else if (new =? KEY_IDLE) && (last =? KEY_PRESSED) then
        let ev :=
          match ev with
          | None =>
              if event_given then
                Some (mkKeyEvent (get2 (keymap s) r c) KEY_RELEASED
                        (current_row s) (Z.of_nat c))
              else None
          | Some _ => ev
          end in
        (set_current_key_state (set2 (current_key_state s) r c KEY_IDLE) s, ev)
      else (s, ev) in
    (set_last_key_state (set2 (last_key_state s) r c new) s, ev)
  else if (new =? KEY_PRESSED) && (last =? KEY_PRESSED) then
    (set_current_key_state (set2 (current_key_state s) r c KEY_HELD) s, ev)
  else (s, ev).

(** The arrays are 4x4, the row cursor is a row index, every counter is
    between 0 and [DEBOUNCE_PRESS] and [last_key_state] is the debounced
    reading of the counter. *)
Definition scan_wf (s : State) : Prop :=
  grid_wf (debounce_counter s) /\ grid_wf (last_key_state s) /\
  grid_wf (current_key_state s) /\ 0 <= current_row s < Z.of_nat MATRIX_ROWS.

Definition counters_consistent (s : State) : Prop :=
  forall r c, (r < MATRIX_ROWS)%nat -> (c < MATRIX_COLS)%nat ->
    0 <= get2 (debounce_counter s) r c <= DEBOUNCE_PRESS /\
    get2 (last_key_state s) r c = debounced (get2 (debounce_counter s) r c).

(** [scanned cols k]: column [k] is one of [cols]. *)
Definition scanned (cols : list nat) (k : nat) : bool :=
  existsb (Nat.eqb k) cols.

(** What the columns [cols] of the current row have done to the arrays
    when the loop has run over them from [s] to [s']. *)
Definition cols_done (levels : list bool) (cols : list nat) (s s' : State)
  : Prop :=
  scan_wf s' /\ keymap s' = keymap s /\ current_row s' = current_row s /\
  (forall r k,
     get2 (debounce_counter s') r k
     = if (r =? Z.to_nat (current_row s))%nat && scanned cols k
       then next_counter (negb (nth k levels true)) (get2 (debounce_counter s) r k)
       else get2 (debounce_counter s) r k) /\
  (forall r k,
     get2 (last_key_state s') r k
     = if (r =? Z.to_nat (current_row s))%nat && scanned cols k
       then debounced (next_counter (negb (nth k levels true))
                         (get2 (debounce_counter s) r k))
       else get2 (last_key_state s) r k) /\
  (forall r k,
     get2 (current_key_state s') r k
     = if (r =? Z.to_nat (current_row s))%nat && scanned cols k
       then next_current
              (debounced (next_counter (negb (nth k levels true))
                            (get2 (debounce_counter s) r k)))
              (get2 (last_key_state s) r k) (get2 (current_key_state s) r k)
       else get2 (current_key_state s) r k).

(** Every cell is idle or pressed in [last_key_state], and idle there
    exactly when it is idle in [current_key_state]. *)
Definition states_consistent (s : State) : Prop :=
  forall r c, (r < MATRIX_ROWS)%nat -> (c < MATRIX_COLS)%nat ->
    (get2 (current_key_state s) r c = KEY_IDLE <->
     get2 (last_key_state s) r c = KEY_IDLE).

Definition scan_invariant (s : State) : Prop :=
  scan_wf s /\ counters_consistent s /\ states_consistent s.

(** A caller's loop: one [matrix_scan] per input, an input being whether
    an [event] is passed and the column levels read in that scan. *)
Definition scans (inputs : list (bool * list bool)) (s : State) : State :=
  fold_left (fun s i => snd (matrix_scan (fst i) (snd i) s)) inputs s.

(** [closed levels r c]: column [c] reads low while row [r] is driven. *)
Definition closed (levels : nat -> list bool) (r c : nat) : bool :=
  negb (nth c (levels r) true).

(** Row-major order of the cells, the order of the loops of
    [matrix_get_key]. *)
Definition before (r' c' r c : nat) : Prop :=
  (r' < r)%nat \/ (r' = r /\ (c' < c)%nat).

(** The driver after [matrix_init], and key (1,2) read closed. *)
Definition ready : State := matrix_init [2; 3; 4; 5] [6; 7; 8; 9] initial_state.
Definition key12 (r : nat) : list bool :=
  if (r =? 1)%nat then [true; true; false; true] else [true; true; true; true].


(** Key (0,2) held closed for three passes over the rows. *)
Definition open_row : list bool := [true; true; true; true].
Definition col2_closed : list bool := [true; true; false; true].
Definition one_pass : list (bool * list bool) :=
  [(true, col2_closed); (true, open_row); (true, open_row); (true, open_row)].
Definition pressed02 : State := scans (one_pass ++ one_pass ++ one_pass) ready.

(** Key (3,0) alone read closed. *)
Definition key30 (r : nat) : list bool :=
  if (r =? 3)%nat then [false; true; true; true] else open_row.

End Matrix.

(** * Properties *)

(** ** Arrays *)

Lemma upd_length {A : Type} (n : nat) (v : A) (l : list A) :
  length (upd n v l) = length l.
Proof.
  revert n; induction l as [|h t IH]; intros [|n]; simpl; auto.
Qed.

Lemma nth_upd {A : Type} (n m : nat) (v d : A) (l : list A) :
  nth m (upd n v l) d =
  if ((n =? m)%nat && (n <? length l)%nat)%bool then v else nth m l d.
Proof.
  revert n m; induction l as [|h t IH]; intros n m.
  - destruct n, m; simpl; rewrite ?andb_false_r; reflexivity.
  - destruct n as [|n], m as [|m]; simpl; try reflexivity.
    rewrite IH. reflexivity.
Qed.

Lemma Forall_upd {A : Type} (P : A -> Prop) (n : nat) (v : A) (l : list A) :
  P v -> Forall P l -> Forall P (upd n v l).
Proof.
  intros Hv Hl; revert n; induction Hl as [|h t Hh Ht IH]; intros [|n]; simpl;
    constructor; auto.
Qed.

Lemma get2_set2 (g : grid) (r c r' c' : nat) (v : Z) :
  get2 (set2 g r c v) r' c' =
  if ((r =? r')%nat && (c =? c')%nat && inb g r c)%bool then v
  else get2 g r' c'.
Proof.
  unfold get2, set2, inb. rewrite nth_upd.
  destruct (Nat.eqb_spec r r') as [->|Hr]; simpl.
  - destruct (r' <? length g)%nat; simpl.
    + rewrite nth_upd. reflexivity.
    + rewrite andb_false_r. reflexivity.
  - reflexivity.
Qed.

Lemma get2_set2_same (g : grid) (r c : nat) (v : Z) :
  inb g r c = true -> get2 (set2 g r c v) r c = v.
Proof.
  intros H. rewrite get2_set2, H, !Nat.eqb_refl. reflexivity.
Qed.

(** ** The branches of the column loop that can run *)

Lemma scan_cell_live_eq (i : ScanInput) (s : State) (col : nat) :
  scan_cell i s col = scan_cell_live i s col.
Proof.
  unfold scan_cell, scan_cell_live.
  destruct (negb (gpio_get i col)).
  - destruct (get2 (key_state s) (Z.to_nat (current_row s)) col =? KEY_IDLE);
      reflexivity.
  - destruct ((get2 (key_state s) (Z.to_nat (current_row s)) col =? KEY_PRESSED)
              || (get2 (key_state s) (Z.to_nat (current_row s)) col =? KEY_HELD));
      reflexivity.
Qed.

Lemma scan_frame_refl (s : State) : scan_frame s s.
Proof. constructor; reflexivity. Qed.

Lemma scan_frame_trans (s1 s2 s3 : State) :
  scan_frame s1 s2 -> scan_frame s2 s3 -> scan_frame s1 s3.
Proof. intros [] []; constructor; congruence. Qed.

Lemma enqueue_error_frame (e : ErrorEvent) (s : State) :
  scan_frame s (snd (enqueue_error e s)).
Proof.
  unfold enqueue_error, call_error_callback, incr_total_errors.
  split_ifs; constructor; reflexivity.
Qed.

Lemma scan_cell_frame (i : ScanInput) (s : State) (col : nat) :
  scan_frame s (scan_cell i s col).
Proof.
  rewrite scan_cell_live_eq. unfold scan_cell_live.
  split_ifs; try (constructor; reflexivity).
  eapply scan_frame_trans; [|apply enqueue_error_frame].
  constructor; reflexivity.
Qed.

Lemma scan_cell_current_row (i : ScanInput) (s : State) (col : nat) :
  current_row (scan_cell i s col) = current_row s.
Proof.
  rewrite scan_cell_live_eq. unfold scan_cell_live, enqueue_error,
    call_error_callback, incr_total_errors.
  split_ifs; reflexivity.
Qed.

Lemma scan_cell_total_scans (i : ScanInput) (s : State) (col : nat) :
  total_scans (stats (scan_cell i s col)) = total_scans (stats s).
Proof.
  rewrite scan_cell_live_eq. unfold scan_cell_live, enqueue_error,
    call_error_callback, incr_total_errors.
  split_ifs; reflexivity.
Qed.

Lemma fold_scan_cell_frame (i : ScanInput) (cols : list nat) (s : State) :
  scan_frame s (fold_left (scan_cell i) cols s).
Proof.
  revert s; induction cols as [|c cols IH]; intros s; cbn [fold_left].
  - apply scan_frame_refl.
  - eapply scan_frame_trans; [apply scan_cell_frame | apply IH].
Qed.

Lemma fold_scan_cell_current_row (i : ScanInput) (cols : list nat) (s : State) :
  current_row (fold_left (scan_cell i) cols s) = current_row s.
Proof.
  revert s; induction cols as [|c cols IH]; intros s; cbn [fold_left]; auto.
  rewrite IH. apply scan_cell_current_row.
Qed.

Lemma fold_scan_cell_total_scans (i : ScanInput) (cols : list nat) (s : State) :
  total_scans (stats (fold_left (scan_cell i) cols s)) = total_scans (stats s).
Proof.
  revert s; induction cols as [|c cols IH]; intros s; cbn [fold_left]; auto.
  rewrite IH. apply scan_cell_total_scans.
Qed.

(** The statistics update and the step in terms of the column loop. *)
Lemma update_scan_time_inv (t : Z) (m s' : State) :
  update_scan_time t m = Some s' ->
  exists st,
    s' = set_stats st m /\
    total_scans st = total_scans (stats m) /\
    total_scans st <> 0 /\
    total_events st = total_events (stats m) /\
    total_errors st = total_errors (stats m) /\
    queue_overflows st = queue_overflows (stats m).
Proof.
  unfold update_scan_time. intros H.
  set (st0 := if max_scan_time_us (stats m) <? t
              then set_max_scan_time_us t (stats m) else stats m) in *.
  assert (Hsame : total_scans st0 = total_scans (stats m) /\
                  total_events st0 = total_events (stats m) /\
                  total_errors st0 = total_errors (stats m) /\
                  queue_overflows st0 = queue_overflows (stats m)).
  { subst st0. destruct (_ <? _); repeat split; reflexivity. }
  clearbody st0. destruct Hsame as (Hts0 & Hev & Her & Hov).
  destruct (total_scans st0 =? 0) eqn:Hz; [discriminate H|].
  apply Z.eqb_neq in Hz. inversion H as [Hs'].
  eexists; split; [reflexivity|].
  exact (conj Hts0 (conj Hz (conj Hev (conj Her Hov)))).
Qed.

Lemma update_scan_time_defined (t : Z) (m : State) :
  total_scans (stats m) <> 0 -> exists s', update_scan_time t m = Some s'.
Proof.
  unfold update_scan_time. intros H.
  assert (Hts : total_scans (if max_scan_time_us (stats m) <? t
              then set_max_scan_time_us t (stats m) else stats m)
              = total_scans (stats m)) by (destruct (_ <? _); reflexivity).
  rewrite Hts. apply Z.eqb_neq in H. rewrite H. eexists; reflexivity.
Qed.

Lemma scan_timer_callback_unfold (i : ScanInput) (s : State) :
  scan_timer_callback i s =
  update_scan_time (u32 (scan_end_us i - scan_start_us i))
    (set_current_row
       (u8 ((current_row (scan_columns i (incr_total_scans s)) + 1) mod 4))
       (scan_columns i (incr_total_scans s))).
Proof. reflexivity. Qed.

Lemma scan_timer_callback_inv (i : ScanInput) (s s' : State) :
  scan_timer_callback i s = Some s' ->
  exists st,
    s' = set_stats st (set_current_row (u8 ((current_row s + 1) mod 4))
                         (scan_columns i (incr_total_scans s))) /\
    total_scans st = u32 (total_scans (stats s) + 1) /\
    total_scans st <> 0 /\
    total_events st = total_events (stats (scan_columns i (incr_total_scans s))) /\
    total_errors st = total_errors (stats (scan_columns i (incr_total_scans s))) /\
    queue_overflows st
    = queue_overflows (stats (scan_columns i (incr_total_scans s))).
Proof.
  rewrite scan_timer_callback_unfold. intros H.
  assert (Hrow : current_row (scan_columns i (incr_total_scans s)) = current_row s).
  { unfold scan_columns. rewrite fold_scan_cell_current_row. reflexivity. }
  assert (Hts : total_scans (stats (scan_columns i (incr_total_scans s)))
                = u32 (total_scans (stats s) + 1)).
  { unfold scan_columns. rewrite fold_scan_cell_total_scans. reflexivity. }
  revert H Hrow Hts. generalize (scan_columns i (incr_total_scans s)) as m.
  intros m H Hrow Hts. rewrite Hrow in H.
  apply update_scan_time_inv in H. destruct H as (st & -> & H1 & H2 & H3).
  exists st. split; [reflexivity|]. split; [|split; assumption].
  rewrite H1. exact Hts.
Qed.

Lemma scan_timer_callback_defined (i : ScanInput) (s : State) :
  u32 (total_scans (stats s) + 1) <> 0 ->
  exists s', scan_timer_callback i s = Some s'.
Proof.
  intros H. rewrite scan_timer_callback_unfold.
  assert (Hts : total_scans (stats (scan_columns i (incr_total_scans s))) <> 0).
  { unfold scan_columns. rewrite fold_scan_cell_total_scans. exact H. }
  revert Hts. generalize (scan_columns i (incr_total_scans s)) as m.
  intros m Hts. apply update_scan_time_defined. exact Hts.
Qed.

(** ** Reading a step through its column loop *)

Lemma same_engine_frame (s s' : State) : same_engine s s' -> scan_frame s s'.
Proof. intros []; constructor; assumption. Qed.

Lemma incr_total_scans_same_engine (s : State) :
  same_engine s (incr_total_scans s).
Proof. constructor; reflexivity. Qed.

Lemma incr_total_scans_current_row (s : State) :
  current_row (incr_total_scans s) = current_row s.
Proof. reflexivity. Qed.

Lemma finish_same_engine (st : ScanStatistics) (v : Z) (m : State) :
  total_events st = total_events (stats m) ->
  total_errors st = total_errors (stats m) ->
  queue_overflows st = queue_overflows (stats m) ->
  same_engine m (set_stats st (set_current_row v m)).
Proof. intros H1 H2 H3. constructor; try reflexivity; assumption. Qed.

Lemma finish_current_row (st : ScanStatistics) (v : Z) (m : State) :
  current_row (set_stats st (set_current_row v m)) = v.
Proof. reflexivity. Qed.

Lemma finish_stats (st : ScanStatistics) (v : Z) (m : State) :
  stats (set_stats st (set_current_row v m)) = st.
Proof. reflexivity. Qed.

(** A successful step is the column loop, run on the state with the scan
    count incremented, followed by bookkeeping. *)
Lemma scan_timer_callback_cols (i : ScanInput) (s s' : State) :
  scan_timer_callback i s = Some s' ->
  same_engine (scan_columns i (incr_total_scans s)) s' /\
  current_row s' = u8 ((current_row s + 1) mod 4) /\
  total_scans (stats s') = u32 (total_scans (stats s) + 1) /\
  total_scans (stats s') <> 0.
Proof.
  intros H. apply scan_timer_callback_inv in H.
  destruct H as (st & -> & Hts & Hnz & Hev & Her & Hov).
  split; [apply finish_same_engine; assumption|].
  rewrite finish_current_row, finish_stats. auto.
Qed.

Lemma scan_columns_frame (i : ScanInput) (s : State) :
  scan_frame s (scan_columns i s).
Proof. unfold scan_columns. apply fold_scan_cell_frame. Qed.

Lemma scan_timer_callback_frame (i : ScanInput) (s s' : State) :
  scan_timer_callback i s = Some s' -> scan_frame s s'.
Proof.
  intros H. apply scan_timer_callback_cols in H. destruct H as (Hse & _).
  apply (scan_frame_trans s (incr_total_scans s));
    [apply same_engine_frame, incr_total_scans_same_engine|].
  apply (scan_frame_trans _ (scan_columns i (incr_total_scans s)));
    [apply scan_columns_frame | apply same_engine_frame, Hse].
Qed.

Lemma run_scans_nil (s : State) : run_scans [] s = Some s.
Proof. reflexivity. Qed.

Lemma run_scans_cons (i : ScanInput) (rest : list ScanInput) (s : State) :
  run_scans (i :: rest) s =
  match scan_timer_callback i s with
  | Some s' => run_scans rest s'
  | None => None
  end.
Proof. reflexivity. Qed.

Lemma run_scans_step (i : ScanInput) (rest : list ScanInput) (s s' : State) :
  run_scans (i :: rest) s = Some s' ->
  exists s1, scan_timer_callback i s = Some s1 /\ run_scans rest s1 = Some s'.
Proof.
  rewrite run_scans_cons.
  generalize (scan_timer_callback i s) as o. intros [s1|] H.
  - exists s1. split; [reflexivity | exact H].
  - discriminate H.
Qed.

Lemma run_scans_frame (inputs : list ScanInput) (s s' : State) :
  run_scans inputs s = Some s' -> scan_frame s s'.
Proof.
  revert s; induction inputs as [|i rest IH]; intros s H.
  - rewrite run_scans_nil in H. injection H as <-. apply scan_frame_refl.
  - apply run_scans_step in H. destruct H as (s1 & H1 & H2).
    exact (scan_frame_trans s s1 s' (scan_timer_callback_frame i s s1 H1)
             (IH s1 H2)).
Qed.

(** ** How a scan step changes a cell's logical state *)

Lemma cell_step_refl (v : Z) : cell_step v v.
Proof. left; reflexivity. Qed.

Lemma cell_step_trans (a b c : Z) :
  cell_step a b -> cell_step b c -> cell_step a c.
Proof.
  unfold cell_step, KEY_PRESSED, KEY_HELD.
  intros [->|[-> ->]] [->|[H ->]]; auto; discriminate H.
Qed.

Lemma enqueue_error_key_state (e : ErrorEvent) (s : State) :
  key_state (snd (enqueue_error e s)) = key_state s.
Proof.
  unfold enqueue_error, call_error_callback, incr_total_errors.
  split_ifs; reflexivity.
Qed.

Lemma enqueue_error_key_timestamp (e : ErrorEvent) (s : State) :
  key_timestamp (snd (enqueue_error e s)) = key_timestamp s.
Proof.
  unfold enqueue_error, call_error_callback, incr_total_errors.
  split_ifs; reflexivity.
Qed.

Lemma scan_cell_key_state (i : ScanInput) (s : State) (col r c : nat) :
  cell_step (get2 (key_state s) r c) (get2 (key_state (scan_cell i s col)) r c).
Proof.
  rewrite scan_cell_live_eq. unfold scan_cell_live.
  destruct (negb (gpio_get i col)).
  - destruct (Z.eqb_spec (get2 (key_state s) (Z.to_nat (current_row s)) col)
                         KEY_IDLE) as [Hidle|_].
    + cbn [key_state set_key_state set_key_timestamp]. rewrite get2_set2.
      destruct (_ && _)%bool eqn:Hc; [|apply cell_step_refl].
      apply andb_prop in Hc as [Hc _]. apply andb_prop in Hc as [Hr Hc].
      apply Nat.eqb_eq in Hr, Hc. subst r c. left. symmetry; exact Hidle.
    + destruct (Z.eqb_spec (get2 (key_state s) (Z.to_nat (current_row s)) col)
                           KEY_PRESSED) as [Hp|_]; [|apply cell_step_refl].
      assert (Hk : cell_step (get2 (key_state s) r c)
                     (get2 (set2 (key_state s) (Z.to_nat (current_row s)) col
                              KEY_HELD) r c)).
      { rewrite get2_set2.
        destruct (_ && _)%bool eqn:Hc; [|apply cell_step_refl].
        apply andb_prop in Hc as [Hc _]. apply andb_prop in Hc as [Hr Hc].
        apply Nat.eqb_eq in Hr, Hc. subst r c. right. split; auto. }
      destruct (_ && _)%bool.
      * rewrite enqueue_error_key_state. exact Hk.
      * exact Hk.
  - destruct (_ || _)%bool; apply cell_step_refl.
Qed.

Lemma fold_scan_cell_key_state (i : ScanInput) (cols : list nat) (s : State)
    (r c : nat) :
  cell_step (get2 (key_state s) r c)
            (get2 (key_state (fold_left (scan_cell i) cols s)) r c).
Proof.
  revert s; induction cols as [|k cols IH]; intros s; cbn [fold_left].
  - apply cell_step_refl.
  - exact (cell_step_trans _ _ _ (scan_cell_key_state i s k r c)
             (IH (scan_cell i s k))).
Qed.

Lemma scan_columns_key_state (i : ScanInput) (s : State) (r c : nat) :
  cell_step (get2 (key_state s) r c) (get2 (key_state (scan_columns i s)) r c).
Proof. unfold scan_columns. apply fold_scan_cell_key_state. Qed.

Lemma scan_timer_callback_key_state (i : ScanInput) (s s' : State) (r c : nat) :
  scan_timer_callback i s = Some s' ->
  cell_step (get2 (key_state s) r c) (get2 (key_state s') r c).
Proof.
  intros H. apply scan_timer_callback_cols in H. destruct H as (Hse & _).
  rewrite (se_key_state _ _ Hse).
  rewrite <- (se_key_state _ _ (incr_total_scans_same_engine s)) at 1.
  apply scan_columns_key_state.
Qed.

Lemma run_scans_key_state (inputs : list ScanInput) (s s' : State) (r c : nat) :
  run_scans inputs s = Some s' ->
  cell_step (get2 (key_state s) r c) (get2 (key_state s') r c).
Proof.
  revert s; induction inputs as [|i rest IH]; intros s H.
  - rewrite run_scans_nil in H. injection H as <-. apply cell_step_refl.
  - apply run_scans_step in H. destruct H as (s1 & H1 & H2).
    exact (cell_step_trans _ _ _ (scan_timer_callback_key_state i s s1 r c H1)
             (IH s1 H2)).
Qed.

(** ** Press and release confirmation (C1, C2) *)

Lemma idle_board_is_init :
  matrix_robust_init [2; 3; 4; 5] [6; 7; 8; 9] 1000 initial_state
  = Some idle_board.
Proof. reflexivity. Qed.

(** C1. Whatever the raw inputs of a run of scan steps - in particular a
    contact closed for longer than [debounce_time_press] - a cell that is
    Idle stays Idle and no KeyEvent is produced: the event queue, its two
    indices, the calls of the key callback and [total_events] are as before
    the run. The press of the claim is therefore never confirmed. *)
Theorem press_never_confirmed (inputs : list ScanInput) (s s' : State) (r c : nat) :
  run_scans inputs s = Some s' ->
  get2 (key_state s) r c = KEY_IDLE ->
  get2 (key_state s') r c = KEY_IDLE /\
  event_queue s' = event_queue s /\
  event_queue_head s' = event_queue_head s /\
  event_queue_tail s' = event_queue_tail s /\
  key_callback_calls s' = key_callback_calls s /\
  total_events (stats s') = total_events (stats s).
Proof.
  intros Hrun Hidle.
  pose proof (run_scans_frame _ _ _ Hrun) as F.
  pose proof (run_scans_key_state _ _ _ r c Hrun) as [Hk|[Hk _]].
  - split; [congruence|]. destruct F; auto.
  - rewrite Hidle in Hk. discriminate Hk.
Qed.

(** Key (0,0) closed for 40 ms, twice the 20 ms press debounce time. *)
Lemma press_never_confirmed_witness :
  run_scans press00_inputs idle_board = Some press00_result /\
  get2 (key_state idle_board) 0 0 = KEY_IDLE /\
  get2 (key_state press00_result) 0 0 = KEY_IDLE /\
  event_queue_head press00_result = event_queue_tail press00_result /\
  key_callback_calls press00_result = [] /\
  total_events (stats press00_result) = 0.
Proof.
  assert (Hrun : run_scans press00_inputs idle_board = Some press00_result)
    by (vm_compute; reflexivity).
  assert (Hidle : get2 (key_state idle_board) 0 0 = KEY_IDLE) by reflexivity.
  destruct (press_never_confirmed _ _ _ 0%nat 0%nat Hrun Hidle)
    as (H1 & _ & H3 & H4 & H5 & H6).
  split; [exact Hrun|]. split; [exact Hidle|]. split; [exact H1|].
  split; [rewrite H3, H4; reflexivity|].
  split; [rewrite H5; reflexivity | rewrite H6; reflexivity].
Defined.

(** C2. Whatever the raw inputs of a run of scan steps - in particular a
    contact open for longer than [debounce_time_release] - a cell that is
    Pressed or Held stays Pressed or Held, its ghost-buffer entry stays, and
    no KeyEvent is produced. The release of the claim is never confirmed. *)
Theorem release_never_confirmed (inputs : list ScanInput) (s s' : State) (r c : nat) :
  run_scans inputs s = Some s' ->
  is_pressed_state (get2 (key_state s) r c) = true ->
  is_pressed_state (get2 (key_state s') r c) = true /\
  pressed_keys s' = pressed_keys s /\
  event_queue s' = event_queue s /\
  event_queue_head s' = event_queue_head s /\
  event_queue_tail s' = event_queue_tail s /\
  key_callback_calls s' = key_callback_calls s /\
  total_events (stats s') = total_events (stats s).
Proof.
  intros Hrun Hp.
  pose proof (run_scans_frame _ _ _ Hrun) as F.
  split; [|destruct F; auto 10].
  pose proof (run_scans_key_state _ _ _ r c Hrun) as [Hk|[_ Hk]].
  - rewrite Hk. exact Hp.
  - rewrite Hk. reflexivity.
Qed.

(** Key (0,0) open for 80 ms after a confirmed press, against a 50 ms
    release debounce time. *)
Lemma release_never_confirmed_witness :
  run_scans release00_inputs pressed00_board = Some release00_result /\
  is_pressed_state (get2 (key_state pressed00_board) 0 0) = true /\
  is_pressed_state (get2 (key_state release00_result) 0 0) = true /\
  event_queue_head release00_result = event_queue_tail release00_result /\
  total_events (stats release00_result) = 0.
Proof.
  assert (Hrun : run_scans release00_inputs pressed00_board = Some release00_result)
    by (vm_compute; reflexivity).
  assert (Hp : is_pressed_state (get2 (key_state pressed00_board) 0 0) = true)
    by reflexivity.
  destruct (release_never_confirmed _ _ _ 0%nat 0%nat Hrun Hp)
    as (H1 & _ & _ & H3 & H4 & _ & H6).
  split; [exact Hrun|]. split; [exact Hp|]. split; [exact H1|].
  split; [rewrite H3, H4; reflexivity | rewrite H6; reflexivity].
Defined.

(** ** The error path during a scan *)

Lemma errors_same_refl (s : State) : errors_same s s.
Proof. constructor; reflexivity. Qed.

Lemma errors_same_trans (s1 s2 s3 : State) :
  errors_same s1 s2 -> errors_same s2 s3 -> errors_same s1 s3.
Proof. intros [] []; constructor; congruence. Qed.

Lemma same_engine_errors_same (s s' : State) :
  same_engine s s' -> errors_same s s'.
Proof. intros []; constructor; assumption. Qed.

(** Only a cell in [KEY_PRESSED] can make the loop body call
    [enqueue_error]. *)
Lemma scan_cell_errors_same (i : ScanInput) (s : State) (col : nat) :
  get2 (key_state s) (Z.to_nat (current_row s)) col <> KEY_PRESSED ->
  errors_same s (scan_cell i s col).
Proof.
  intros Hnp. rewrite scan_cell_live_eq. unfold scan_cell_live.
  destruct (negb (gpio_get i col)).
  - destruct (_ =? KEY_IDLE); [constructor; reflexivity|].
    destruct (Z.eqb_spec (get2 (key_state s) (Z.to_nat (current_row s)) col)
                         KEY_PRESSED) as [Hp|_]; [contradiction|].
    apply errors_same_refl.
  - destruct (_ || _)%bool; constructor; reflexivity.
Qed.

Lemma cell_step_not_pressed (a b : Z) :
  cell_step a b -> a <> KEY_PRESSED -> b <> KEY_PRESSED.
Proof.
  intros [->|[-> _]] H; [exact H | contradiction].
Qed.

Lemma scan_cell_no_pressed (i : ScanInput) (s : State) (col : nat) :
  no_pressed s -> no_pressed (scan_cell i s col).
Proof.
  intros H r c.
  exact (cell_step_not_pressed _ _ (scan_cell_key_state i s col r c) (H r c)).
Qed.

Lemma fold_scan_cell_errors_same (i : ScanInput) (cols : list nat) (s : State) :
  no_pressed s -> errors_same s (fold_left (scan_cell i) cols s).
Proof.
  revert s; induction cols as [|k cols IH]; intros s H; cbn [fold_left].
  - apply errors_same_refl.
  - apply (errors_same_trans s (scan_cell i s k)).
    + apply scan_cell_errors_same, H.
    + apply IH, scan_cell_no_pressed, H.
Qed.

Lemma scan_columns_errors_same (i : ScanInput) (s : State) :
  no_pressed s -> errors_same s (scan_columns i s).
Proof. unfold scan_columns. apply fold_scan_cell_errors_same. Qed.

Lemma no_pressed_key_state (s s' : State) :
  key_state s' = key_state s -> no_pressed s -> no_pressed s'.
Proof. unfold no_pressed. intros -> H. exact H. Qed.

Lemma scan_timer_callback_errors_same (i : ScanInput) (s s' : State) :
  scan_timer_callback i s = Some s' -> no_pressed s -> errors_same s s'.
Proof.
  intros H Hnp. apply scan_timer_callback_cols in H. destruct H as (Hse & _).
  pose proof (incr_total_scans_same_engine s) as H0.
  apply (errors_same_trans s (incr_total_scans s));
    [apply same_engine_errors_same, H0|].
  apply (errors_same_trans _ (scan_columns i (incr_total_scans s)));
    [|apply same_engine_errors_same, Hse].
  apply scan_columns_errors_same.
  exact (no_pressed_key_state _ _ (se_key_state _ _ H0) Hnp).
Qed.

Lemma scan_timer_callback_no_pressed (i : ScanInput) (s s' : State) :
  scan_timer_callback i s = Some s' -> no_pressed s -> no_pressed s'.
Proof.
  intros H Hnp r c.
  exact (cell_step_not_pressed _ _ (scan_timer_callback_key_state i s s' r c H)
           (Hnp r c)).
Qed.

(** ** Stuck-key reports (C3) *)

(** The loop body at a Held cell that still reads closed: no test of the
    chain matches [KEY_HELD], and the state is returned as it is. *)
Lemma scan_cell_held_closed (i : ScanInput) (s : State) (col : nat) :
  gpio_get i col = false ->
  get2 (key_state s) (Z.to_nat (current_row s)) col = KEY_HELD ->
  scan_cell i s col = s.
Proof.
  intros Hlow Hheld. unfold scan_cell. rewrite Hlow, Hheld. reflexivity.
Qed.

(** C3. On a board without a cell in [KEY_PRESSED] - every cell Idle or
    Held, for any time since its last transition, any timeout and with stuck
    detection on or off - no run of scan steps reports an error: the error
    queue, its write index, the calls of the error callback and
    [total_errors] are as before the run. A Held cell past the timeout thus
    yields no StuckKey report at any scan of its row. *)
Theorem held_cells_report_no_stuck_key (inputs : list ScanInput) (s s' : State) :
  run_scans inputs s = Some s' ->
  no_pressed s ->
  error_queue s' = error_queue s /\
  error_queue_head s' = error_queue_head s /\
  error_callback_calls s' = error_callback_calls s /\
  total_errors (stats s') = total_errors (stats s).
Proof.
  intros Hrun Hnp.
  assert (He : errors_same s s').
  { revert s Hrun Hnp. induction inputs as [|i rest IH]; intros s Hrun Hnp.
    - rewrite run_scans_nil in Hrun. injection Hrun as <-.
      apply errors_same_refl.
    - apply run_scans_step in Hrun. destruct Hrun as (s1 & H1 & H2).
      apply (errors_same_trans s s1).
      + exact (scan_timer_callback_errors_same i s s1 H1 Hnp).
      + exact (IH s1 H2 (scan_timer_callback_no_pressed i s s1 H1 Hnp)). }
  destruct He; auto.
Qed.

Lemma no_pressedb_sound (s : State) : no_pressedb s = true -> no_pressed s.
Proof.
  unfold no_pressedb, no_pressed, get2. intros H r c.
  rewrite forallb_forall in H.
  destruct (nth_in_or_default r (key_state s) []) as [Hr|Hr].
  - specialize (H _ Hr). rewrite forallb_forall in H.
    destruct (nth_in_or_default c (nth r (key_state s) []) 0) as [Hc|Hc].
    + specialize (H _ Hc). apply negb_true_iff, Z.eqb_neq in H. exact H.
    + rewrite Hc. discriminate.
  - rewrite Hr. destruct c; discriminate.
Qed.

Lemma held00_board_no_pressed : no_pressed held00_board.
Proof. apply no_pressedb_sound. reflexivity. Qed.

(** Key (0,0) Held since 0 ms, stuck detection enabled with the 5000 ms
    timeout, the key still closed during 40 scans from 6000 ms on. *)
Lemma held_cells_report_no_stuck_key_witness :
  run_scans stuck00_inputs held00_board = Some stuck00_result /\
  get2 (key_state held00_board) 0 0 = KEY_HELD /\
  stuck_detection_enabled held00_board = true /\
  stuck_key_timeout held00_board < 6000 - get2 (key_timestamp held00_board) 0 0 /\
  error_queue_head stuck00_result = error_queue_tail stuck00_result /\
  error_callback_calls stuck00_result = [] /\
  total_errors (stats stuck00_result) = 0.
Proof.
  assert (Hrun : run_scans stuck00_inputs held00_board = Some stuck00_result)
    by (vm_compute; reflexivity).
  destruct (held_cells_report_no_stuck_key _ _ _ Hrun held00_board_no_pressed)
    as (_ & H2 & H3 & H4).
  split; [exact Hrun|]. split; [reflexivity|]. split; [reflexivity|].
  split; [vm_compute; reflexivity|].
  split; [rewrite H2; reflexivity|].
  split; [rewrite H3; reflexivity | rewrite H4; reflexivity].
Defined.

(** ** Ghost-key reports (C4) *)

Lemma no_ghost_recorded_ext (s s' : State) :
  error_queue s' = error_queue s ->
  error_callback_calls s' = error_callback_calls s ->
  no_ghost_recorded s -> no_ghost_recorded s'.
Proof. unfold no_ghost_recorded. intros -> ->. auto. Qed.

Lemma enqueue_error_no_ghost (e : ErrorEvent) (s : State) :
  error_code e <> ERROR_GHOST_KEY ->
  no_ghost_recorded s -> no_ghost_recorded (snd (enqueue_error e s)).
Proof.
  unfold enqueue_error, call_error_callback, incr_total_errors, no_ghost_recorded.
  intros He [Hq Hc]. split_ifs; cbn; split; auto using Forall_upd.
  apply Forall_app. split; auto.
Qed.

Lemma scan_cell_no_ghost (i : ScanInput) (s : State) (col : nat) :
  no_ghost_recorded s -> no_ghost_recorded (scan_cell i s col).
Proof.
  intros H. rewrite scan_cell_live_eq. unfold scan_cell_live.
  split_ifs; try exact H;
    try (apply (no_ghost_recorded_ext s); [reflexivity | reflexivity | exact H]).
  apply enqueue_error_no_ghost; [discriminate|].
  apply (no_ghost_recorded_ext s); [reflexivity | reflexivity | exact H].
Qed.

Lemma fold_scan_cell_no_ghost (i : ScanInput) (cols : list nat) (s : State) :
  no_ghost_recorded s -> no_ghost_recorded (fold_left (scan_cell i) cols s).
Proof.
  revert s; induction cols as [|k cols IH]; intros s H; cbn [fold_left].
  - exact H.
  - apply IH, scan_cell_no_ghost, H.
Qed.

Lemma scan_columns_no_ghost (i : ScanInput) (s : State) :
  no_ghost_recorded s -> no_ghost_recorded (scan_columns i s).
Proof. unfold scan_columns. apply fold_scan_cell_no_ghost. Qed.

(** No run of scan steps ever stores a ghost-key report or hands one to the
    error callback. *)
Lemma run_scans_no_ghost (inputs : list ScanInput) (s s' : State) :
  run_scans inputs s = Some s' -> no_ghost_recorded s -> no_ghost_recorded s'.
Proof.
  revert s; induction inputs as [|i rest IH]; intros s Hrun H.
  - rewrite run_scans_nil in Hrun. injection Hrun as <-. exact H.
  - apply run_scans_step in Hrun. destruct Hrun as (s1 & H1 & H2).
    apply (IH s1 H2). apply scan_timer_callback_cols in H1.
    destruct H1 as (Hse & _).
    apply (no_ghost_recorded_ext _ _ (se_error_queue _ _ Hse)
             (se_error_callback_calls _ _ Hse)).
    apply scan_columns_no_ghost.
    pose proof (incr_total_scans_same_engine s) as H0.
    exact (no_ghost_recorded_ext _ _ (se_error_queue _ _ H0)
             (se_error_callback_calls _ _ H0) H).
Qed.

(** C4. The loop body at an Idle cell that reads closed, with the press
    debounce time elapsed, ghost detection enabled and [detect_ghost_key]
    true for the cell: it stores the time of the scan in [key_timestamp],
    writes [KEY_IDLE] back and does nothing else. No ghost-key report
    reaches the error queue or the error callback; no KeyEvent is produced
    and the cell stays Idle. *)
Theorem ghost_condition_reports_nothing (i : ScanInput) (s : State) (col : nat) :
  gpio_get i col = false ->
  get2 (key_state s) (Z.to_nat (current_row s)) col = KEY_IDLE ->
  debounce_time_press s
    <= u32 (now_ms i - get2 (key_timestamp s) (Z.to_nat (current_row s)) col) ->
  ghost_detection_enabled s = true ->
  detect_ghost_key (Z.to_nat (current_row s)) col s = true ->
  scan_cell i s col =
    set_key_state (set2 (key_state s) (Z.to_nat (current_row s)) col KEY_IDLE)
      (set_key_timestamp
         (set2 (key_timestamp s) (Z.to_nat (current_row s)) col (now_ms i)) s) /\
  errors_same s (scan_cell i s col) /\
  scan_frame s (scan_cell i s col) /\
  get2 (key_state (scan_cell i s col)) (Z.to_nat (current_row s)) col = KEY_IDLE.
Proof.
  intros Hlow Hidle _ _ _.
  assert (Heq : scan_cell i s col =
    set_key_state (set2 (key_state s) (Z.to_nat (current_row s)) col KEY_IDLE)
      (set_key_timestamp
         (set2 (key_timestamp s) (Z.to_nat (current_row s)) col (now_ms i)) s)).
  { unfold scan_cell. rewrite Hlow, Hidle. reflexivity. }
  split; [exact Heq|]. split; [|split].
  - apply scan_cell_errors_same. rewrite Hidle. discriminate.
  - apply scan_cell_frame.
  - pose proof (scan_cell_key_state i s col (Z.to_nat (current_row s)) col)
      as [Hk|[Hk _]].
    + rewrite Hk. exact Hidle.
    + rewrite Hidle in Hk. discriminate Hk.
Qed.

(** The ghost scene of the specification: (2,0), (2,1), (0,2), (1,2)
    pressed, (2,2) closed for 30 ms; the whole step leaves the error queue
    empty. *)
Lemma ghost_condition_reports_nothing_witness :
  gpio_get ghost_input 2 = false /\
  get2 (key_state ghost_board) 2 2 = KEY_IDLE /\
  keys_in_row ghost_board 2 = 2 /\ keys_in_col ghost_board 2 = 2 /\
  errors_same ghost_board (scan_cell ghost_input ghost_board 2) /\
  scan_timer_callback ghost_input ghost_board = Some ghost_result /\
  error_queue_head ghost_result = error_queue_tail ghost_result /\
  total_errors (stats ghost_result) = 0 /\
  get2 (key_state ghost_result) 2 2 = KEY_IDLE.
Proof.
  split; [reflexivity|]. split; [reflexivity|].
  split; [reflexivity|]. split; [reflexivity|].
  split.
  - apply (ghost_condition_reports_nothing ghost_input ghost_board 2).
    + reflexivity.
    + reflexivity.
    + vm_compute. discriminate.
    + reflexivity.
    + reflexivity.
  - split; [vm_compute; reflexivity|]. repeat split.
Defined.

(** ** The ghost buffer and the debounced state (C10) *)

Lemma get2_fill2 (v : Z) (r c : nat) :
  (r < MATRIX_ROWS)%nat -> (c < MATRIX_COLS)%nat -> get2 (fill2 v) r c = v.
Proof.
  unfold MATRIX_ROWS, MATRIX_COLS. intros Hr Hc.
  destruct r as [|[|[|[|r]]]]; try lia;
    destruct c as [|[|[|[|c]]]]; try lia; reflexivity.
Qed.

Lemma cell_step_is_pressed (a b : Z) :
  cell_step a b -> is_pressed_state b = is_pressed_state a.
Proof. intros [->|[-> ->]]; reflexivity. Qed.

Lemma init_ghost_buffer_consistent (row_pins col_pins : list Z)
    (scan_interval_us : Z) (s s' : State) :
  matrix_robust_init row_pins col_pins scan_interval_us s = Some s' ->
  ghost_buffer_consistent s'.
Proof.
  unfold matrix_robust_init. destruct (scan_interval_us =? 0); [discriminate|].
  intros H. injection H as <-. intros r c Hr Hc.
  cbn [pressed_keys key_state set_scan_interval set_pressed_keys
       set_key_timestamp set_key_state].
  rewrite !get2_fill2 by assumption. reflexivity.
Qed.

Lemma init_defined (row_pins col_pins : list Z) (scan_interval_us : Z)
    (s : State) :
  scan_interval_us <> 0 ->
  exists s', matrix_robust_init row_pins col_pins scan_interval_us s = Some s'.
Proof.
  intros H. unfold matrix_robust_init. apply Z.eqb_neq in H. rewrite H.
  eexists; reflexivity.
Qed.

Lemma scan_timer_callback_consistent (i : ScanInput) (s s' : State) :
  scan_timer_callback i s = Some s' ->
  ghost_buffer_consistent s -> ghost_buffer_consistent s'.
Proof.
  intros H Hc r c Hr Hcol.
  rewrite (fr_pressed_keys _ _ (scan_timer_callback_frame i s s' H)).
  rewrite (cell_step_is_pressed _ _ (scan_timer_callback_key_state i s s' r c H)).
  apply Hc; assumption.
Qed.

Lemma keys_in_row_count (s : State) (row : nat) :
  ghost_buffer_consistent s -> (row < MATRIX_ROWS)%nat ->
  keys_in_row s row = pressed_in_row s row.
Proof.
  intros Hc Hr. unfold keys_in_row, pressed_in_row.
  change (seq 0 MATRIX_COLS) with [0; 1; 2; 3]%nat.
  cbn [fold_left filter].
  rewrite (Hc row 0%nat), (Hc row 1%nat), (Hc row 2%nat), (Hc row 3%nat)
    by (assumption || (unfold MATRIX_COLS; lia)).
  destruct (is_pressed_state (get2 (key_state s) row 0));
    destruct (is_pressed_state (get2 (key_state s) row 1));
    destruct (is_pressed_state (get2 (key_state s) row 2));
    destruct (is_pressed_state (get2 (key_state s) row 3)); reflexivity.
Qed.

Lemma keys_in_col_count (s : State) (col : nat) :
  ghost_buffer_consistent s -> (col < MATRIX_COLS)%nat ->
  keys_in_col s col = pressed_in_col s col.
Proof.
  intros Hc Hr. unfold keys_in_col, pressed_in_col.
  change (seq 0 MATRIX_ROWS) with [0; 1; 2; 3]%nat.
  cbn [fold_left filter].
  rewrite (Hc 0%nat col), (Hc 1%nat col), (Hc 2%nat col), (Hc 3%nat col)
    by (assumption || (unfold MATRIX_ROWS; lia)).
  destruct (is_pressed_state (get2 (key_state s) 0 col));
    destruct (is_pressed_state (get2 (key_state s) 1 col));
    destruct (is_pressed_state (get2 (key_state s) 2 col));
    destruct (is_pressed_state (get2 (key_state s) 3 col)); reflexivity.
Qed.

Lemma is_pressed_state_spec (v : Z) :
  is_pressed_state v = true <-> v = KEY_PRESSED \/ v = KEY_HELD.
Proof.
  unfold is_pressed_state. rewrite orb_true_iff, !Z.eqb_eq. reflexivity.
Qed.

(** C10. [ghost_buffer_consistent] - [pressed_keys[r][c]] is 1 when
    [key_state[r][c]] is [KEY_PRESSED] or [KEY_HELD] and 0 otherwise, for
    every cell of the 4x4 board - holds after [matrix_robust_init] (which
    has a result for every non-zero scan interval); a scan
    step from a consistent state has a result unless the scan count wraps,
    and its result is consistent; the weaker reading, an entry is 1 exactly
    when the cell is Pressed or Held, is preserved by a step as well; and in
    a consistent state an entry of the ghost buffer is 1 exactly when the
    cell is Pressed or Held and the two counts of [detect_ghost_key] are the
    numbers of Pressed or Held cells of the row and of the column. *)
Theorem ghost_buffer_invariant :
  (forall row_pins col_pins scan_interval_us s,
     scan_interval_us <> 0 ->
     exists s', matrix_robust_init row_pins col_pins scan_interval_us s = Some s' /\
                ghost_buffer_consistent s') /\
  (forall i s,
     ghost_buffer_consistent s ->
     u32 (total_scans (stats s) + 1) <> 0 ->
     exists s', scan_timer_callback i s = Some s' /\ ghost_buffer_consistent s') /\
  (forall i s s',
     ghost_buffer_consistent s ->
     scan_timer_callback i s = Some s' -> ghost_buffer_consistent s') /\
  (forall i s s',
     (forall r c, (r < MATRIX_ROWS)%nat -> (c < MATRIX_COLS)%nat ->
        (get2 (pressed_keys s) r c = 1 <->
         is_pressed_state (get2 (key_state s) r c) = true)) ->
     scan_timer_callback i s = Some s' ->
     (forall r c, (r < MATRIX_ROWS)%nat -> (c < MATRIX_COLS)%nat ->
        (get2 (pressed_keys s') r c = 1 <->
         is_pressed_state (get2 (key_state s') r c) = true))) /\
  (forall s r c,
     ghost_buffer_consistent s ->
     (r < MATRIX_ROWS)%nat -> (c < MATRIX_COLS)%nat ->
     (get2 (pressed_keys s) r c = 1 <->
      get2 (key_state s) r c = KEY_PRESSED \/ get2 (key_state s) r c = KEY_HELD) /\
     keys_in_row s r = pressed_in_row s r /\
     keys_in_col s c = pressed_in_col s c).
Proof.
  split; [|split; [|split; [|split]]].
  - intros rp cp si s Hsi. destruct (init_defined rp cp si s Hsi) as (s' & Hs').
    exists s'. split; [exact Hs'|].
    exact (init_ghost_buffer_consistent rp cp si s s' Hs').
  - intros i s Hc Hnz.
    destruct (scan_timer_callback_defined i s Hnz) as (s' & Hs').
    exists s'. split; [exact Hs'|].
    exact (scan_timer_callback_consistent i s s' Hs' Hc).
  - intros i s s' Hc Hs'. exact (scan_timer_callback_consistent i s s' Hs' Hc).
  - intros i s s' Hc Hs' r c Hr Hcol.
    rewrite (fr_pressed_keys _ _ (scan_timer_callback_frame i s s' Hs')).
    rewrite (cell_step_is_pressed _ _
               (scan_timer_callback_key_state i s s' r c Hs')).
    apply Hc; assumption.
  - intros s r c Hc Hr Hcol. split; [|split].
    + rewrite (Hc r c Hr Hcol), <- is_pressed_state_spec.
      destruct (is_pressed_state (get2 (key_state s) r c)); split;
        try reflexivity; discriminate.
    + apply keys_in_row_count; assumption.
    + apply keys_in_col_count; assumption.
Qed.

(** The invariant at work: the initialised board, one step from it, and
    the counts on the ghost scene. *)
Lemma ghost_buffer_invariant_witness :
  ghost_buffer_consistent idle_board /\
  (exists s', scan_timer_callback (tick 0 [false; true; true; true]) idle_board
              = Some s' /\ ghost_buffer_consistent s') /\
  keys_in_row (force_cell 2 0 KEY_HELD 0 (force_cell 2 1 KEY_PRESSED 0 idle_board)) 2
  = pressed_in_row
      (force_cell 2 0 KEY_HELD 0 (force_cell 2 1 KEY_PRESSED 0 idle_board)) 2.
Proof.
  destruct ghost_buffer_invariant as (Hinit & Hstep & _ & _ & Hcount).
  assert (H0 : ghost_buffer_consistent idle_board).
  { destruct (Hinit [2; 3; 4; 5] [6; 7; 8; 9] 1000 initial_state)
      as (s' & Hs' & Hc'); [discriminate|].
    vm_compute in Hs'. injection Hs' as <-. exact Hc'. }
  split; [exact H0|]. split.
  - apply (Hstep _ _ H0). vm_compute. discriminate.
  - assert (H1 : ghost_buffer_consistent (force_cell 2 1 KEY_PRESSED 0 idle_board)).
    { intros r c Hr Hc. unfold MATRIX_ROWS, MATRIX_COLS in *.
      destruct r as [|[|[|[|r]]]]; try lia;
        destruct c as [|[|[|[|c]]]]; try lia; reflexivity. }
    assert (H2 : ghost_buffer_consistent
                   (force_cell 2 0 KEY_HELD 0
                      (force_cell 2 1 KEY_PRESSED 0 idle_board))).
    { intros r c Hr Hc. unfold MATRIX_ROWS, MATRIX_COLS in *.
      destruct r as [|[|[|[|r]]]]; try lia;
        destruct c as [|[|[|[|c]]]]; try lia; reflexivity. }
    apply (Hcount _ 2%nat 0%nat H2); unfold MATRIX_ROWS, MATRIX_COLS; lia.
Defined.

(** ** The event queue as a FIFO (C5) *)

Lemma enqueue_event_full (e : KeyEvent) (s : State) :
  (event_queue_head s + 1) mod EVENT_QUEUE_SIZE = event_queue_tail s ->
  enqueue_event e s = (false, incr_queue_overflows s).
Proof.
  intros H. unfold enqueue_event. rewrite H, Z.eqb_refl. reflexivity.
Qed.

Lemma enqueue_event_room (e : KeyEvent) (s : State) :
  (event_queue_head s + 1) mod EVENT_QUEUE_SIZE <> event_queue_tail s ->
  enqueue_event e s =
  (true,
   set_event_queue_head ((event_queue_head s + 1) mod EVENT_QUEUE_SIZE)
     (set_event_queue
        (upd (Z.to_nat (event_queue_head s)) e (event_queue s)) s)).
Proof.
  intros H. unfold enqueue_event. apply Z.eqb_neq in H. rewrite H. reflexivity.
Qed.

Lemma pending_events_length (s : State) :
  length (pending_events s) =
  Z.to_nat ((event_queue_head s - event_queue_tail s) mod EVENT_QUEUE_SIZE).
Proof. unfold pending_events. rewrite length_map, length_seq. reflexivity. Qed.

Lemma enqueue_event_room_pending (e : KeyEvent) (s : State) :
  event_queue_wf s ->
  (length (pending_events s) < 31)%nat ->
  let s' := snd (enqueue_event e s) in
  fst (enqueue_event e s) = true /\
  event_queue_wf s' /\
  pending_events s' = pending_events s ++ [e] /\
  stats s' = stats s.
Proof.
  intros (Hlen & Hh & Ht) Hroom. rewrite pending_events_length in Hroom.
  unfold EVENT_QUEUE_SIZE in *.
  assert (Hnf : (event_queue_head s + 1) mod 32 <> event_queue_tail s).
  { intros Heq. revert Hroom. rewrite <- Heq.
    generalize (event_queue_head s) Hh. intros h Hh' H.
    apply Nat2Z.inj_lt in H. rewrite Z2Nat.id in H
      by (apply Z.mod_pos_bound; lia).
    revert H. Z.div_mod_to_equations. lia. }
  rewrite (enqueue_event_room e s Hnf). cbn [fst snd].
  split; [reflexivity|]. split; [|split; [|reflexivity]].
  - unfold event_queue_wf, EVENT_QUEUE_SIZE.
    cbn [event_queue event_queue_head event_queue_tail set_event_queue_head
         set_event_queue].
    rewrite upd_length. split; [exact Hlen|]. split; [|exact Ht].
    apply Z.mod_pos_bound. lia.
  - unfold pending_events, EVENT_QUEUE_SIZE.
    cbn [event_queue event_queue_head event_queue_tail set_event_queue_head
         set_event_queue].
    set (h := event_queue_head s) in *. set (t := event_queue_tail s) in *.
    set (n := Z.to_nat ((h - t) mod 32)).
    assert (Hn : Z.to_nat (((h + 1) mod 32 - t) mod 32) = S n).
    { unfold n. rewrite <- Z2Nat.inj_succ by (apply Z.mod_pos_bound; lia).
      f_equal. revert Hnf. Z.div_mod_to_equations. lia. }
    rewrite Hn, seq_S, map_app. cbn [map Nat.add]. f_equal.
    + apply map_ext_in. intros k Hk. apply in_seq in Hk.
      rewrite nth_upd.
      destruct (Nat.eqb_spec (Z.to_nat h)
                  (Z.to_nat ((t + Z.of_nat k) mod 32))) as [Heq|_];
        [|reflexivity].
      exfalso. apply Z2Nat.inj in Heq;
        [|lia|apply Z.mod_pos_bound; lia].
      assert (Hk' : Z.of_nat k < (h - t) mod 32).
      { unfold n in Hk. pose proof (Z.mod_pos_bound (h - t) 32). lia. }
      revert Heq Hk'. Z.div_mod_to_equations. lia.
    + f_equal. rewrite nth_upd.
      assert (Hidx : Z.to_nat ((t + Z.of_nat n) mod 32) = Z.to_nat h).
      { f_equal. unfold n. rewrite Z2Nat.id by (apply Z.mod_pos_bound; lia).
        Z.div_mod_to_equations. lia. }
      rewrite Hidx, Nat.eqb_refl, Hlen. 
      destruct (Nat.ltb_spec (Z.to_nat h) (Z.to_nat 32)) as [_|Hge];
        [reflexivity|]. exfalso. apply Z2Nat.inj_le in Hge; lia.
Qed.

Lemma get_event_pending (s : State) :
  event_queue_wf s ->
  match pending_events s with
  | [] => matrix_robust_get_event s = (None, s)
  | e :: rest =>
      exists s', matrix_robust_get_event s = (Some e, s') /\
                 event_queue_wf s' /\ pending_events s' = rest /\
                 stats s' = stats s
  end.
Proof.
  intros (Hlen & Hh & Ht). unfold pending_events, matrix_robust_get_event.
  unfold EVENT_QUEUE_SIZE in *.
  set (h := event_queue_head s) in *. set (t := event_queue_tail s) in *.
  destruct (Z.eqb_spec h t) as [Heq|Hne].
  - rewrite Heq, Z.sub_diag. reflexivity.
  - assert (Hn : exists n, Z.to_nat ((h - t) mod 32) = S n /\
                           Z.to_nat ((h - (t + 1) mod 32) mod 32) = n).
    { exists (Z.to_nat ((h - t) mod 32 - 1)). split.
      - rewrite <- Z2Nat.inj_succ; [f_equal; lia|].
        revert Hne. Z.div_mod_to_equations. lia.
      - f_equal. revert Hne. Z.div_mod_to_equations. lia. }
    destruct Hn as (n & Hn & Hn').
    rewrite Hn. cbn [seq map]. rewrite <- seq_shift, map_map.
    replace ((t + Z.of_nat 0) mod 32) with t
      by (rewrite Z.add_0_r; symmetry; apply Z.mod_small; lia).
    eexists. split; [reflexivity|]. split; [|split; [|reflexivity]].
    + unfold event_queue_wf, EVENT_QUEUE_SIZE.
      cbn [event_queue event_queue_head event_queue_tail set_event_queue_tail].
      split; [exact Hlen|]. split; [exact Hh|]. apply Z.mod_pos_bound. lia.
    + cbn [event_queue event_queue_head event_queue_tail set_event_queue_tail].
      fold h t. rewrite Hn'. apply map_ext. intros k. f_equal. f_equal.
      rewrite Nat2Z.inj_succ. Z.div_mod_to_equations. lia.
Qed.

Lemma drain_events_pending (s : State) (n : nat) :
  event_queue_wf s -> (length (pending_events s) <= n)%nat ->
  fst (drain_events n s) = pending_events s /\
  pending_events (snd (drain_events n s)) = [] /\
  event_queue_wf (snd (drain_events n s)).
Proof.
  revert s; induction n as [|n IH]; intros s Hwf Hlen.
  - cbn [drain_events fst snd].
    destruct (pending_events s) eqn:Hp; [auto | cbn in Hlen; lia].
  - cbn [drain_events]. pose proof (get_event_pending s Hwf) as Hget.
    destruct (pending_events s) as [|e rest] eqn:Hp.
    + rewrite Hget. cbn [fst snd]. auto.
    + destruct Hget as (s' & -> & Hwf' & Hp' & _).
      cbn [length] in Hlen.
      destruct (IH s' Hwf') as (H1 & H2 & H3); [rewrite Hp'; lia|].
      destruct (drain_events n s') as [l s'']. cbn [fst snd] in *.
      rewrite H1, Hp'. auto.
Qed.

Lemma enqueue_events_nil (s : State) : enqueue_events [] s = s.
Proof. reflexivity. Qed.

Lemma enqueue_events_cons (e : KeyEvent) (es : list KeyEvent) (s : State) :
  enqueue_events (e :: es) s = enqueue_events es (snd (enqueue_event e s)).
Proof. reflexivity. Qed.

Lemma enqueue_events_pending (es : list KeyEvent) (s : State) :
  event_queue_wf s ->
  (length (pending_events s) + length es <= 31)%nat ->
  event_queue_wf (enqueue_events es s) /\
  pending_events (enqueue_events es s) = pending_events s ++ es /\
  stats (enqueue_events es s) = stats s.
Proof.
  revert s; induction es as [|e es IH]; intros s Hwf Hlen.
  - rewrite enqueue_events_nil, app_nil_r. auto.
  - rewrite enqueue_events_cons. cbn [length] in Hlen.
    destruct (enqueue_event_room_pending e s Hwf) as (_ & Hwf' & Hp' & Hst');
      [lia|].
    destruct (IH _ Hwf') as (H1 & H2 & H3).
    + rewrite Hp', length_app. cbn [length]. lia.
    + rewrite H2, H3, Hp', Hst', <- app_assoc. auto.
Qed.

Lemma pending_events_full (s : State) :
  event_queue_wf s -> length (pending_events s) = 31%nat ->
  (event_queue_head s + 1) mod EVENT_QUEUE_SIZE = event_queue_tail s.
Proof.
  intros (_ & Hh & Ht). rewrite pending_events_length.
  unfold EVENT_QUEUE_SIZE in *. intros H.
  assert (H' : (event_queue_head s - event_queue_tail s) mod 32 = 31).
  { pose proof (Z.mod_pos_bound (event_queue_head s - event_queue_tail s) 32).
    lia. }
  revert H'. Z.div_mod_to_equations. lia.
Qed.

Lemma pending_events_empty (s : State) :
  event_queue_head s = event_queue_tail s -> pending_events s = [].
Proof.
  intros H. unfold pending_events. rewrite H, Z.sub_diag. reflexivity.
Qed.

Lemma incr_queue_overflows_pending (s : State) :
  pending_events (incr_queue_overflows s) = pending_events s /\
  (event_queue_wf s -> event_queue_wf (incr_queue_overflows s)).
Proof. split; [reflexivity | intros H; exact H]. Qed.

(** C5, amended to the 31 events the 32-slot array can hold. From an empty
    event queue - wherever its two indices stand - enqueueing 31 events
    counts no overflow, and draining then returns the 31 events in the order
    they were enqueued and leaves the queue empty. A 32nd event enqueued
    before any drain is refused: [queue_overflows] goes up by one (modulo
    2^32), the array and both indices are left as they were, the next event
    drained is the first one enqueued and the drain still returns the 31
    events in order. *)
Theorem event_queue_fifo (s : State) (es : list KeyEvent) (e : KeyEvent) :
  event_queue_wf s ->
  event_queue_head s = event_queue_tail s ->
  length es = 31%nat ->
  stats (enqueue_events es s) = stats s /\
  fst (drain_events 31 (enqueue_events es s)) = es /\
  fst (matrix_robust_get_event (snd (drain_events 31 (enqueue_events es s))))
  = None /\
  fst (enqueue_event e (enqueue_events es s)) = false /\
  queue_overflows (stats (snd (enqueue_event e (enqueue_events es s))))
  = u32 (queue_overflows (stats s) + 1) /\
  event_queue (snd (enqueue_event e (enqueue_events es s)))
  = event_queue (enqueue_events es s) /\
  event_queue_head (snd (enqueue_event e (enqueue_events es s)))
  = event_queue_head (enqueue_events es s) /\
  event_queue_tail (snd (enqueue_event e (enqueue_events es s)))
  = event_queue_tail (enqueue_events es s) /\
  fst (matrix_robust_get_event (snd (enqueue_event e (enqueue_events es s))))
  = Some (hd zero_event es) /\
  fst (drain_events 31 (snd (enqueue_event e (enqueue_events es s)))) = es.
Proof.
  intros Hwf Hempty Hlen.
  pose proof (pending_events_empty s Hempty) as Hp0.
  destruct (enqueue_events_pending es s Hwf) as (Hwf1 & Hp1 & Hst1).
  { rewrite Hp0, Hlen. cbn. lia. }
  rewrite Hp0 in Hp1. cbn [app] in Hp1.
  revert Hwf1 Hp1 Hst1. generalize (enqueue_events es s) as s1.
  intros s1 Hwf1 Hp1 Hst1.
  assert (Hfull : (event_queue_head s1 + 1) mod EVENT_QUEUE_SIZE
                  = event_queue_tail s1).
  { apply pending_events_full; [exact Hwf1 | rewrite Hp1; exact Hlen]. }
  destruct (drain_events_pending s1 31 Hwf1) as (Hd1 & Hd2 & Hd3).
  { rewrite Hp1, Hlen. lia. }
  split; [exact Hst1|]. split; [rewrite Hd1; exact Hp1|]. split.
  { pose proof (get_event_pending _ Hd3) as Hg. rewrite Hd2 in Hg.
    rewrite Hg. reflexivity. }
  rewrite (enqueue_event_full e s1 Hfull). cbn [fst snd].
  split; [reflexivity|]. split.
  { unfold incr_queue_overflows. cbn [stats set_stats queue_overflows
      set_queue_overflows]. rewrite Hst1. reflexivity. }
  split; [reflexivity|]. split; [reflexivity|]. split; [reflexivity|].
  destruct (incr_queue_overflows_pending s1) as (Hp2 & Hwf2).
  specialize (Hwf2 Hwf1). rewrite Hp1 in Hp2. split.
  - pose proof (get_event_pending _ Hwf2) as Hg. rewrite Hp2 in Hg.
    destruct es as [|e1 es']; [discriminate Hlen|].
    destruct Hg as (s' & -> & _). reflexivity.
  - destruct (drain_events_pending _ 31 Hwf2) as (Hd & _).
    + rewrite Hp2, Hlen. lia.
    + rewrite Hd. exact Hp2.
Qed.

(** The amended C5 on the initialised engine with E1 .. E31, then E32. *)
Lemma event_queue_fifo_witness :
  event_queue_wf idle_board /\
  event_queue_head idle_board = event_queue_tail idle_board /\
  length (numbered_events 31) = 31%nat /\
  fst (drain_events 31 (enqueue_events (numbered_events 31) idle_board))
  = numbered_events 31 /\
  queue_overflows
    (stats (snd (enqueue_event (mkKeyEvent 32 KEY_PRESSED 0 0 32)
                   (enqueue_events (numbered_events 31) idle_board))))
  = u32 (queue_overflows (stats idle_board) + 1).
Proof.
  assert (Hwf : event_queue_wf idle_board).
  { split; [reflexivity|]. split; split; (reflexivity || discriminate). }
  assert (Hempty : event_queue_head idle_board = event_queue_tail idle_board)
    by reflexivity.
  assert (Hlen : length (numbered_events 31) = 31%nat) by reflexivity.
  destruct (event_queue_fifo idle_board (numbered_events 31)
              (mkKeyEvent 32 KEY_PRESSED 0 0 32) Hwf Hempty Hlen)
    as (_ & Hdrain & _ & _ & Hov & _).
  split; [exact Hwf|]. split; [exact Hempty|]. split; [exact Hlen|].
  split; [exact Hdrain | exact Hov].
Defined.

(** C5 as stated fails: of E1 .. E32 enqueued into the empty queue only
    E1 .. E31 are stored and drained, and the 32nd enqueue already counts as
    an overflow. *)
Lemma event_queue_drops_32nd :
  fst (drain_events 32 (enqueue_events (numbered_events 32) idle_board))
  <> numbered_events 32 /\
  fst (drain_events 32 (enqueue_events (numbered_events 32) idle_board))
  = numbered_events 31 /\
  queue_overflows (stats (enqueue_events (numbered_events 31) idle_board)) = 0 /\
  queue_overflows (stats (enqueue_events (numbered_events 32) idle_board)) = 1.
Proof.
  assert (H : fst (drain_events 32 (enqueue_events (numbered_events 32) idle_board))
              = numbered_events 31) by (vm_compute; reflexivity).
  split; [|split; [exact H|split; vm_compute; reflexivity]].
  rewrite H. intros Heq. apply (f_equal (@length KeyEvent)) in Heq.
  vm_compute in Heq. discriminate Heq.
Qed.

(** ** Enqueueing into a full buffer (C6) *)

(** The event side of C6: a full event queue keeps its array and both
    indices, the event is dropped and [queue_overflows] is incremented. *)
Lemma enqueue_event_full_drops (e : KeyEvent) (s : State) :
  (event_queue_head s + 1) mod EVENT_QUEUE_SIZE = event_queue_tail s ->
  fst (enqueue_event e s) = false /\
  event_queue (snd (enqueue_event e s)) = event_queue s /\
  event_queue_head (snd (enqueue_event e s)) = event_queue_head s /\
  event_queue_tail (snd (enqueue_event e s)) = event_queue_tail s /\
  queue_overflows (stats (snd (enqueue_event e s)))
  = u32 (queue_overflows (stats s) + 1).
Proof.
  intros H. rewrite (enqueue_event_full e s H). repeat split.
Qed.

(** Neither enqueue changes the size of its array. *)
Lemma enqueue_keeps_array_size (ev : KeyEvent) (er : ErrorEvent) (s : State) :
  length (event_queue (snd (enqueue_event ev s))) = length (event_queue s) /\
  length (error_queue (snd (enqueue_error er s))) = length (error_queue s).
Proof.
  unfold enqueue_event, enqueue_error, incr_queue_overflows, incr_total_errors,
    call_error_callback.
  split; split_ifs; cbn; rewrite ?upd_length; reflexivity.
Qed.

(** C6. [enqueue_error] on a full error queue returns [false] and leaves
    the whole state as it was: the report is dropped, the array and the
    indices are unchanged, and no counter of the statistics - not
    [queue_overflows], not any other - records the loss. *)
Theorem enqueue_error_full_is_silent (e : ErrorEvent) (s : State) :
  (error_queue_head s + 1) mod ERROR_QUEUE_SIZE = error_queue_tail s ->
  enqueue_error e s = (false, s) /\
  stats (snd (enqueue_error e s)) = stats s.
Proof.
  intros H. unfold enqueue_error. rewrite H, Z.eqb_refl. split; reflexivity.
Qed.

(** The eighth report offered to the 8-slot error queue. *)
Lemma enqueue_error_full_is_silent_witness :
  (error_queue_head full_error_board + 1) mod ERROR_QUEUE_SIZE
  = error_queue_tail full_error_board /\
  enqueue_error (mkErrorEvent ERROR_STUCK_KEY 0 0 8) full_error_board
  = (false, full_error_board) /\
  queue_overflows
    (stats (snd (enqueue_error (mkErrorEvent ERROR_STUCK_KEY 0 0 8)
                   full_error_board))) = 0.
Proof.
  assert (Hfull : (error_queue_head full_error_board + 1) mod ERROR_QUEUE_SIZE
                  = error_queue_tail full_error_board) by reflexivity.
  destruct (enqueue_error_full_is_silent (mkErrorEvent ERROR_STUCK_KEY 0 0 8)
              full_error_board Hfull) as (H1 & H2).
  split; [exact Hfull|]. split; [exact H1|]. rewrite H2. reflexivity.
Defined.

(** ** Callbacks and queues (C7) *)

Lemma enqueue_error_room (e : ErrorEvent) (s : State) :
  (error_queue_head s + 1) mod ERROR_QUEUE_SIZE <> error_queue_tail s ->
  fst (enqueue_error e s) = true /\
  error_queue (snd (enqueue_error e s))
  = upd (Z.to_nat (error_queue_head s)) e (error_queue s) /\
  error_queue_head (snd (enqueue_error e s))
  = (error_queue_head s + 1) mod ERROR_QUEUE_SIZE /\
  total_errors (stats (snd (enqueue_error e s)))
  = u32 (total_errors (stats s) + 1) /\
  error_callback_calls (snd (enqueue_error e s))
  = if error_callback s then error_callback_calls s ++ [e]
    else error_callback_calls s.
Proof.
  intros H. apply Z.eqb_neq in H. unfold enqueue_error. rewrite H.
  cbn [fst snd error_callback set_error_queue set_error_queue_head
       incr_total_errors set_stats].
  destruct (error_callback s); repeat split.
Qed.


(** ** Low power and the wake edge (C8) *)

Lemma existsb_eqb_filter (p g : Z) (l : list Z) :
  existsb (Z.eqb p) (filter (fun x => negb (x =? g)) l)
  = negb (p =? g) && existsb (Z.eqb p) l.
Proof.
  induction l as [|x l IH]; cbn [filter existsb].
  - rewrite andb_false_r. reflexivity.
  - destruct (Z.eqb_spec x g) as [->|Hx]; cbn [negb existsb].
    + rewrite IH. destruct (Z.eqb_spec p g); reflexivity.
    + rewrite IH. destruct (Z.eqb_spec p x) as [->|Hp]; cbn [orb].
      * apply Z.eqb_neq in Hx. rewrite Hx. reflexivity.
      * reflexivity.
Qed.

Lemma irq_enabled_set (g : Z) (enabled : bool) (s : State) (p : Z) :
  irq_enabled (gpio_set_irq_enabled g enabled s) p
  = if p =? g then enabled else irq_enabled s p.
Proof.
  unfold irq_enabled, gpio_set_irq_enabled. cbn [wake_irq set_wake_irq].
  destruct enabled; cbn [existsb]; rewrite existsb_eqb_filter;
    destruct (p =? g); reflexivity.
Qed.

(** The loop over the column pins used by the enable and the disable
    function, on any list of column indices. *)
Lemma fold_irq_frame (enabled : bool) (cols : list nat) (s : State) :
  let s' := fold_left
              (fun s i => gpio_set_irq_enabled (nth i (col_gpios s) 0) enabled s)
              cols s in
  col_gpios s' = col_gpios s /\ scanning_active s' = scanning_active s /\
  timer_armed s' = timer_armed s /\
  (forall p, irq_enabled s' p =
             if existsb (fun i => p =? nth i (col_gpios s) 0) cols
             then enabled else irq_enabled s p).
Proof.
  revert s; induction cols as [|k cols IH]; intros s; cbn [fold_left existsb].
  - auto.
  - destruct (IH (gpio_set_irq_enabled (nth k (col_gpios s) 0) enabled s))
      as (H1 & H2 & H3 & H4).
    cbv zeta. rewrite H1, H2, H3. repeat split. intros p. rewrite H4.
    change (col_gpios (gpio_set_irq_enabled (nth k (col_gpios s) 0) enabled s))
      with (col_gpios s).
    rewrite irq_enabled_set.
    destruct (p =? nth k (col_gpios s) 0); cbn [orb];
      destruct (existsb _ cols); reflexivity.
Qed.

Lemma enter_low_power_state (s : State) :
  let s' := matrix_robust_enter_low_power s in
  scanning_active s' = false /\ timer_armed s' = timer_armed (matrix_robust_stop s) /\
  col_gpios s' = col_gpios s /\
  (forall c, (c < MATRIX_COLS)%nat -> irq_enabled s' (nth c (col_gpios s) 0) = true).
Proof.
  unfold matrix_robust_enter_low_power, matrix_robust_enable_wake_interrupt.
  destruct (fold_irq_frame true (seq 0 MATRIX_COLS) (matrix_robust_stop s))
    as (H1 & H2 & H3 & H4).
  assert (Hcols : col_gpios (matrix_robust_stop s) = col_gpios s).
  { unfold matrix_robust_stop. destruct (scanning_active s); reflexivity. }
  assert (Hact : scanning_active (matrix_robust_stop s) = false).
  { unfold matrix_robust_stop. destruct (scanning_active s) eqn:E;
      [reflexivity | exact E]. }
  cbv zeta. rewrite H1, H2, H3, Hcols, Hact. repeat split.
  intros c Hc. rewrite H4, Hcols.
  assert (He : existsb (fun i => nth c (col_gpios s) 0 =? nth i (col_gpios s) 0)
                 (seq 0 MATRIX_COLS) = true).
  { apply existsb_exists. exists c. split; [apply in_seq; lia|].
    apply Z.eqb_refl. }
  rewrite He. reflexivity.
Qed.

Lemma wake_armed_intro (s : State) (c : nat) :
  (c < MATRIX_COLS)%nat -> irq_enabled s (nth c (col_gpios s) 0) = true ->
  wake_armed s = true.
Proof.
  intros Hc H. unfold wake_armed. apply existsb_exists.
  exists c. split; [apply in_seq; lia | exact H].
Qed.

(** C8. After [matrix_robust_enter_low_power] the engine is in LowPower; a
    wake edge ([gpio_interrupt_callback], for any pin and event mask) makes
    it Active and arms the scan timer again, but leaves the falling-edge
    interrupt of every column pin enabled: the wake source is not
    disarmed. *)
Theorem wake_edge_keeps_wake_armed (s : State) (gpio events : Z) :
  engine_state (matrix_robust_enter_low_power s) = LowPower /\
  engine_state
    (gpio_interrupt_callback gpio events (matrix_robust_enter_low_power s))
  = Active /\
  timer_armed
    (gpio_interrupt_callback gpio events (matrix_robust_enter_low_power s))
  = true /\
  wake_irq
    (gpio_interrupt_callback gpio events (matrix_robust_enter_low_power s))
  = wake_irq (matrix_robust_enter_low_power s) /\
  wake_armed
    (gpio_interrupt_callback gpio events (matrix_robust_enter_low_power s))
  = true /\
  (forall c, (c < MATRIX_COLS)%nat ->
     irq_enabled
       (gpio_interrupt_callback gpio events (matrix_robust_enter_low_power s))
       (nth c (col_gpios s) 0) = true).
Proof.
  destruct (enter_low_power_state s) as (Hact & _ & Hcols & Hirq).
  revert Hact Hcols Hirq. generalize (matrix_robust_enter_low_power s) as l.
  intros l Hact Hcols Hirq.
  assert (Harmed : wake_armed l = true).
  { apply (wake_armed_intro l 0); [unfold MATRIX_COLS; lia|].
    rewrite Hcols. apply Hirq. unfold MATRIX_COLS; lia. }
  assert (Hcb : gpio_interrupt_callback gpio events l
                = set_scanning_active true (set_timer_armed true l)).
  { unfold gpio_interrupt_callback, matrix_robust_start. rewrite Hact.
    reflexivity. }
  split; [unfold engine_state; rewrite Hact, Harmed; reflexivity|].
  rewrite Hcb. split; [reflexivity|]. split; [reflexivity|].
  split; [reflexivity|]. split; [exact Harmed|]. exact Hirq.
Qed.

(** The same sequence on the STM32 port, whose wake callback goes through
    [matrix_robust_exit_low_power]: the engine is Active and the interrupt
    of every column pin is disabled. *)
Lemma stm32_wake_edge_disarms (s : State) (c0 : nat) :
  (c0 < MATRIX_COLS)%nat ->
  let s' := matrix_robust_exti_callback (nth c0 (col_gpios s) 0)
              (matrix_robust_enter_low_power s) in
  scanning_active s' = true /\ timer_armed s' = true /\
  (forall c, (c < MATRIX_COLS)%nat ->
     irq_enabled s' (nth c (col_gpios s) 0) = false).
Proof.
  intros Hc0. destruct (enter_low_power_state s) as (Hact & _ & Hcols & _).
  revert Hact Hcols. generalize (matrix_robust_enter_low_power s) as l.
  intros l Hact Hcols. cbv zeta.
  unfold matrix_robust_exti_callback. rewrite Hcols.
  assert (He : forall c, (c < MATRIX_COLS)%nat ->
            existsb (fun i => nth c (col_gpios s) 0 =? nth i (col_gpios s) 0)
              (seq 0 MATRIX_COLS) = true).
  { intros c Hc. apply existsb_exists. exists c.
    split; [apply in_seq; lia | apply Z.eqb_refl]. }
  rewrite (He c0 Hc0), Hact. cbn [negb].
  unfold matrix_robust_exit_low_power, matrix_robust_disable_wake_interrupt.
  destruct (fold_irq_frame false (seq 0 MATRIX_COLS) l) as (H1 & H2 & H3 & H4).
  cbv zeta in H1, H2, H3, H4. rewrite Hcols in H4.
  revert H1 H2 H3 H4.
  generalize (fold_left
    (fun s0 i => gpio_set_irq_enabled (nth i (col_gpios s0) 0) false s0)
    (seq 0 MATRIX_COLS) l) as d.
  intros d H1 H2 H3 H4. unfold matrix_robust_start. rewrite H2, Hact.
  cbn [negb]. split; [reflexivity|]. split; [reflexivity|].
  intros c Hc.
  change (irq_enabled (set_scanning_active true (set_timer_armed true d))
            (nth c (col_gpios s) 0))
    with (irq_enabled d (nth c (col_gpios s) 0)).
  rewrite H4, (He c Hc). reflexivity.
Qed.

(** ** The statistics counters (C9) *)

Lemma u32_succ (x : Z) : 0 <= x < UINT32_MAX -> u32 (x + 1) = x + 1.
Proof. unfold u32, UINT32_MAX. intros H. apply Z.mod_small. lia. Qed.

Lemma enqueue_error_total_errors (e : ErrorEvent) (s : State) :
  total_errors (stats (snd (enqueue_error e s))) = total_errors (stats s) \/
  total_errors (stats (snd (enqueue_error e s)))
  = u32 (total_errors (stats s) + 1).
Proof.
  unfold enqueue_error, call_error_callback, incr_total_errors.
  split_ifs; cbn; auto.
Qed.

Lemma scan_cell_total_errors (i : ScanInput) (s : State) (col : nat) :
  0 <= total_errors (stats s) < UINT32_MAX ->
  total_errors (stats s) <= total_errors (stats (scan_cell i s col))
  <= total_errors (stats s) + 1.
Proof.
  intros H. rewrite scan_cell_live_eq. unfold scan_cell_live.
  split_ifs; cbn [stats set_key_state set_key_timestamp]; try lia.
  match goal with
  | |- context [enqueue_error ?e ?s0] =>
      destruct (enqueue_error_total_errors e s0) as [Ht|Ht]; rewrite Ht
  end; cbn [stats set_key_state]; rewrite ?u32_succ by exact H; lia.
Qed.

Lemma fold_scan_cell_total_errors (i : ScanInput) (cols : list nat) (s : State) :
  0 <= total_errors (stats s) ->
  total_errors (stats s) + Z.of_nat (length cols) <= UINT32_MAX ->
  total_errors (stats s)
  <= total_errors (stats (fold_left (scan_cell i) cols s))
  <= total_errors (stats s) + Z.of_nat (length cols).
Proof.
  revert s; induction cols as [|k cols IH]; intros s H0 H1;
    cbn [fold_left length] in *.
  - lia.
  - pose proof (scan_cell_total_errors i s k) as Hc.
    specialize (IH (scan_cell i s k)). lia.
Qed.

Lemma scan_columns_total_errors (i : ScanInput) (s : State) :
  0 <= total_errors (stats s) ->
  total_errors (stats s) + 4 <= UINT32_MAX ->
  total_errors (stats s) <= total_errors (stats (scan_columns i s))
  <= total_errors (stats s) + 4.
Proof.
  intros H0 H1. unfold scan_columns.
  apply (fold_scan_cell_total_errors i (seq 0 MATRIX_COLS) s H0). exact H1.
Qed.

Lemma scan_timer_callback_counters (i : ScanInput) (s : State) :
  0 <= total_scans (stats s) < UINT32_MAX ->
  0 <= total_errors (stats s) ->
  total_errors (stats s) + 4 <= UINT32_MAX ->
  exists s', scan_timer_callback i s = Some s' /\
    total_scans (stats s') = total_scans (stats s) + 1 /\
    total_events (stats s') = total_events (stats s) /\
    total_errors (stats s) <= total_errors (stats s') <= total_errors (stats s) + 4 /\
    queue_overflows (stats s') = queue_overflows (stats s).
Proof.
  intros Hts Hte0 Hte1.
  destruct (scan_timer_callback_defined i s) as (s' & Hs').
  { rewrite u32_succ by exact Hts. lia. }
  exists s'. split; [exact Hs'|].
  pose proof (scan_timer_callback_frame i s s' Hs') as F.
  apply scan_timer_callback_cols in Hs'. destruct Hs' as (Hse & _ & Hsc & _).
  split; [rewrite Hsc; apply u32_succ, Hts|].
  split; [exact (fr_total_events _ _ F)|].
  split; [|exact (fr_queue_overflows _ _ F)].
  rewrite (se_total_errors _ _ Hse).
  exact (scan_columns_total_errors i (incr_total_scans s) Hte0 Hte1).
Qed.

Lemma apply_op_counters (op : EngineOp) (s : State) :
  0 <= total_scans (stats s) < UINT32_MAX ->
  0 <= total_errors (stats s) ->
  total_errors (stats s) + 4 <= UINT32_MAX ->
  0 <= queue_overflows (stats s) < UINT32_MAX ->
  exists s', apply_op op s = Some s' /\
    total_scans (stats s) <= total_scans (stats s') <= total_scans (stats s) + 1 /\
    total_events (stats s') = total_events (stats s) /\
    total_errors (stats s) <= total_errors (stats s') <= total_errors (stats s) + 4 /\
    queue_overflows (stats s) <= queue_overflows (stats s')
    <= queue_overflows (stats s) + 1.
Proof.
  intros Hts Hte0 Hte1 Hqo. destruct op as [i|e|e| |]; cbn [apply_op].
  - destruct (scan_timer_callback_counters i s Hts Hte0 Hte1)
      as (s' & Hs' & H1 & H2 & H3 & H4).
    exists s'. split; [exact Hs'|]. lia.
  - eexists; split; [reflexivity|]. unfold enqueue_event, incr_queue_overflows.
    split_ifs; cbn; rewrite ?u32_succ by exact Hqo; lia.
  - eexists; split; [reflexivity|].
    assert (Hother : total_scans (stats (snd (enqueue_error e s)))
                     = total_scans (stats s) /\
                     total_events (stats (snd (enqueue_error e s)))
                     = total_events (stats s) /\
                     queue_overflows (stats (snd (enqueue_error e s)))
                     = queue_overflows (stats s)).
    { unfold enqueue_error, call_error_callback, incr_total_errors.
      split_ifs; cbn; auto. }
    destruct Hother as (H1 & H2 & H3).
    destruct (enqueue_error_total_errors e s) as [Ht|Ht];
      rewrite H1, H2, H3, Ht, ?u32_succ by lia; lia.
  - eexists; split; [reflexivity|]. unfold matrix_robust_get_event.
    split_ifs; cbn; lia.
  - eexists; split; [reflexivity|]. unfold matrix_robust_get_error.
    split_ifs; cbn; lia.
Qed.

Lemma run_ops_counters (ops : list EngineOp) (s : State) :
  0 <= total_scans (stats s) ->
  total_scans (stats s) + Z.of_nat (length ops) <= UINT32_MAX ->
  0 <= total_errors (stats s) ->
  total_errors (stats s) + 4 * Z.of_nat (length ops) <= UINT32_MAX ->
  0 <= queue_overflows (stats s) ->
  queue_overflows (stats s) + Z.of_nat (length ops) <= UINT32_MAX ->
  exists s', run_ops ops s = Some s' /\
    total_scans (stats s) <= total_scans (stats s') /\
    total_events (stats s') = total_events (stats s) /\
    total_errors (stats s) <= total_errors (stats s') /\
    queue_overflows (stats s) <= queue_overflows (stats s').
Proof.
  revert s; induction ops as [|op ops IH]; intros s Hts0 Hts1 Hte0 Hte1 Hqo0 Hqo1.
  - exists s. split; [reflexivity|]. lia.
  - cbn [length] in *. rewrite Nat2Z.inj_succ in *.
    destruct (apply_op_counters op s) as (s1 & H1 & Ha & Hb & Hc & Hd);
      try lia.
    destruct (IH s1) as (s' & Hs' & Ha' & Hb' & Hc' & Hd'); try lia.
    exists s'. split.
    + change (run_ops (op :: ops) s)
        with (match apply_op op s with
              | Some x => run_ops ops x
              | None => None
              end).
      rewrite H1. exact Hs'.
    + rewrite Hb', Hb. lia.
Qed.

(** C9, amended for the 32-bit counters. Over any sequence of scan steps,
    enqueues and drains during which no counter can pass 4294967295 - the
    bounds allow one more scan and one more overflow per operation and four
    more errors, one per column of a scan - the sequence runs to its end and
    none of [total_scans], [total_events], [total_errors],
    [queue_overflows] has decreased; and [matrix_robust_reset_statistics]
    leaves every field of the statistics at zero. *)
Theorem counters_monotone_until_wrap (ops : list EngineOp) (s : State) :
  0 <= total_scans (stats s) ->
  total_scans (stats s) + Z.of_nat (length ops) <= UINT32_MAX ->
  0 <= total_errors (stats s) ->
  total_errors (stats s) + 4 * Z.of_nat (length ops) <= UINT32_MAX ->
  0 <= queue_overflows (stats s) ->
  queue_overflows (stats s) + Z.of_nat (length ops) <= UINT32_MAX ->
  (exists s', run_ops ops s = Some s' /\
     total_scans (stats s) <= total_scans (stats s') /\
     total_events (stats s) <= total_events (stats s') /\
     total_errors (stats s) <= total_errors (stats s') /\
     queue_overflows (stats s) <= queue_overflows (stats s')) /\
  stats (matrix_robust_reset_statistics s) = mkStats 0 0 0 0 0 0.
Proof.
  intros Hts0 Hts1 Hte0 Hte1 Hqo0 Hqo1. split; [|reflexivity].
  destruct (run_ops_counters ops s Hts0 Hts1 Hte0 Hte1 Hqo0 Hqo1)
    as (s' & Hs' & Ha & Hb & Hc & Hd).
  exists s'. split; [exact Hs'|]. rewrite Hb. lia.
Qed.

(** The amended C9 on the initialised engine. *)
Lemma counters_monotone_until_wrap_witness :
  total_scans (stats idle_board) + Z.of_nat (length sample_ops) <= UINT32_MAX /\
  (exists s', run_ops sample_ops idle_board = Some s' /\
     total_scans (stats idle_board) <= total_scans (stats s') /\
     total_events (stats idle_board) <= total_events (stats s') /\
     total_errors (stats idle_board) <= total_errors (stats s') /\
     queue_overflows (stats idle_board) <= queue_overflows (stats s')) /\
  stats (matrix_robust_reset_statistics idle_board) = mkStats 0 0 0 0 0 0.
Proof.
  split; [vm_compute; discriminate|].
  apply (counters_monotone_until_wrap sample_ops idle_board);
    vm_compute; discriminate.
Defined.

(** C9 as stated fails at the top of the 32-bit range: with the event queue
    full and [queue_overflows] at 4294967295, one more enqueue takes the
    counter to 0. *)
Lemma queue_overflows_wraps :
  queue_overflows (stats overflowing_board) = UINT32_MAX /\
  exists s',
    run_ops [OpEnqueueEvent (mkKeyEvent 32 KEY_PRESSED 0 0 32)] overflowing_board
    = Some s' /\
    queue_overflows (stats s') = 0 /\
    queue_overflows (stats s') < queue_overflows (stats overflowing_board).
Proof.
  split; [reflexivity|]. eexists. split; [reflexivity|].
  split; vm_compute; reflexivity.
Qed.

(** At the top of the range [total_scans] does not wrap silently either:
    the step that increments it to 0 divides by it. *)
Lemma scan_count_wrap_undefined (i : ScanInput) (s : State) :
  total_scans (stats s) = UINT32_MAX -> scan_timer_callback i s = None.
Proof.
  intros H. rewrite scan_timer_callback_unfold.
  assert (Hts : total_scans (stats (scan_columns i (incr_total_scans s))) = 0).
  { unfold scan_columns. rewrite fold_scan_cell_total_scans.
    unfold incr_total_scans. cbn [stats set_stats total_scans set_total_scans].
    rewrite H. reflexivity. }
  revert Hts. generalize (scan_columns i (incr_total_scans s)) as m.
  intros m Hts. unfold update_scan_time.
  cbn [stats set_current_row].
  assert (Hz : total_scans
                 (if max_scan_time_us (stats m) <? u32 (scan_end_us i - scan_start_us i)
                  then set_max_scan_time_us (u32 (scan_end_us i - scan_start_us i))
                         (stats m)
                  else stats m) = 0).
  { destruct (_ <? _); exact Hts. }
  rewrite Hz. reflexivity.
Qed.

(** * Further properties of the engine *)

(** ** The event queue: count, clear, enqueue and drain *)

Lemma get_event_count_pending (s : State) :
  event_queue_wf s ->
  matrix_robust_get_event_count s = Z.of_nat (length (pending_events s)).
Proof.
  intros (_ & Hh & Ht). rewrite pending_events_length.
  unfold matrix_robust_get_event_count, EVENT_QUEUE_SIZE, u32 in *.
  pose proof (Z.mod_pos_bound (event_queue_head s - event_queue_tail s) 32).
  rewrite Z2Nat.id by lia.
  destruct (Z.leb_spec (event_queue_tail s) (event_queue_head s)).
  - rewrite (Z.mod_small (_ - _) 4294967296) by lia.
    rewrite (Z.mod_small (_ - _) 32) by lia. lia.
  - rewrite (Z.mod_small (32 - _) 4294967296) by lia.
    rewrite (Z.mod_small (_ + _) 4294967296) by lia.
    Z.div_mod_to_equations. lia.
Qed.

(** X1. On a well-formed event queue [matrix_robust_get_event_count] is the
    number of events waiting between the read and the write index, and it
    never exceeds 31. *)
Theorem event_count_is_pending (s : State) :
  event_queue_wf s ->
  matrix_robust_get_event_count s = Z.of_nat (length (pending_events s)) /\
  0 <= matrix_robust_get_event_count s <= 31.
Proof.
  intros Hwf. split; [exact (get_event_count_pending s Hwf)|].
  destruct Hwf as (_ & Hh & Ht).
  unfold matrix_robust_get_event_count, EVENT_QUEUE_SIZE, u32 in *.
  destruct (Z.leb_spec (event_queue_tail s) (event_queue_head s)).
  - rewrite (Z.mod_small (_ - _) 4294967296) by lia. lia.
  - rewrite (Z.mod_small (32 - _) 4294967296) by lia.
    rewrite (Z.mod_small (_ + _) 4294967296) by lia. lia.
Qed.

Lemma event_count_is_pending_witness :
  event_queue_wf (enqueue_events (numbered_events 5) idle_board) /\
  matrix_robust_get_event_count (enqueue_events (numbered_events 5) idle_board)
  = 5.
Proof.
  assert (Hwf : event_queue_wf (enqueue_events (numbered_events 5) idle_board)).
  { split; [reflexivity|]. split; split; (reflexivity || discriminate). }
  split; [exact Hwf|].
  destruct (event_count_is_pending _ Hwf) as (H & _). rewrite H. reflexivity.
Defined.

(** X2. [matrix_robust_clear_events] discards whatever is waiting: after it
    the count is 0, no event is pending and [matrix_robust_get_event]
    reports the queue empty without changing the state; the statistics,
    [queue_overflows] included, and the error queue are kept. *)
Theorem clear_events_empties (s : State) :
  matrix_robust_get_event_count (matrix_robust_clear_events s) = 0 /\
  pending_events (matrix_robust_clear_events s) = [] /\
  matrix_robust_get_event (matrix_robust_clear_events s)
  = (None, matrix_robust_clear_events s) /\
  stats (matrix_robust_clear_events s) = stats s /\
  error_queue_head (matrix_robust_clear_events s) = error_queue_head s /\
  error_queue_tail (matrix_robust_clear_events s) = error_queue_tail s.
Proof. repeat split. Qed.

(** X3. An event enqueued into a well-formed queue with fewer than 31
    events waiting is accepted, raises the count by one and no overflow, and
    a drain of the whole queue returns the events that were waiting, in
    order, followed by the new one, and leaves the queue empty. *)
Theorem enqueue_then_drain (s : State) (e : KeyEvent) (n : nat) :
  event_queue_wf s ->
  (length (pending_events s) < 31)%nat ->
  (length (pending_events s) < n)%nat ->
  fst (enqueue_event e s) = true /\
  stats (snd (enqueue_event e s)) = stats s /\
  matrix_robust_get_event_count (snd (enqueue_event e s))
  = matrix_robust_get_event_count s + 1 /\
  fst (drain_events n (snd (enqueue_event e s))) = pending_events s ++ [e] /\
  matrix_robust_get_event_count (snd (drain_events n (snd (enqueue_event e s))))
  = 0.
Proof.
  intros Hwf Hroom Hn.
  destruct (enqueue_event_room_pending e s Hwf Hroom) as (H1 & Hwf' & Hp & Hst).
  pose proof (get_event_count_pending s Hwf) as Hc.
  revert H1 Hwf' Hp Hst. generalize (enqueue_event e s) as r.
  intros [b s1]. cbn [fst snd]. intros H1 Hwf' Hp Hst.
  pose proof (get_event_count_pending s1 Hwf') as Hc'.
  destruct (drain_events_pending s1 n Hwf') as (Hd1 & Hd2 & Hd3).
  { rewrite Hp, length_app. cbn [length]. lia. }
  pose proof (get_event_count_pending _ Hd3) as Hc''.
  split; [exact H1|]. split; [exact Hst|]. split.
  { rewrite Hc', Hc, Hp, length_app. cbn [length]. lia. }
  split; [rewrite Hd1; exact Hp|]. rewrite Hc'', Hd2. reflexivity.
Qed.

Lemma enqueue_then_drain_witness :
  event_queue_wf (enqueue_events (numbered_events 5) idle_board) /\
  fst (drain_events 6
         (snd (enqueue_event (mkKeyEvent 6 KEY_RELEASED 0 0 6)
                 (enqueue_events (numbered_events 5) idle_board))))
  = pending_events (enqueue_events (numbered_events 5) idle_board)
    ++ [mkKeyEvent 6 KEY_RELEASED 0 0 6].
Proof.
  assert (Hwf : event_queue_wf (enqueue_events (numbered_events 5) idle_board)).
  { split; [reflexivity|]. split; split; (reflexivity || discriminate). }
  split; [exact Hwf|].
  apply (enqueue_then_drain _ (mkKeyEvent 6 KEY_RELEASED 0 0 6) 6 Hwf);
    vm_compute; lia.
Defined.

(** X4. [matrix_robust_get_event] on a well-formed queue: with nothing
    waiting it returns [false] and changes nothing; otherwise it returns the
    oldest waiting event, the remaining events keep their order, the count
    drops by one, and the array, the write index and the statistics are
    untouched. *)
Theorem get_event_takes_oldest (s : State) :
  event_queue_wf s ->
  (matrix_robust_get_event_count s = 0 ->
     matrix_robust_get_event s = (None, s)) /\
  (0 < matrix_robust_get_event_count s ->
     exists e s',
       matrix_robust_get_event s = (Some e, s') /\
       pending_events s = e :: pending_events s' /\
       matrix_robust_get_event_count s' = matrix_robust_get_event_count s - 1 /\
       event_queue s' = event_queue s /\
       event_queue_head s' = event_queue_head s /\
       stats s' = stats s).
Proof.
  intros Hwf. pose proof (get_event_count_pending s Hwf) as Hc.
  pose proof (get_event_pending s Hwf) as Hg. rewrite Hc. split.
  - intros H0. destruct (pending_events s); [exact Hg | discriminate H0].
  - intros Hpos. destruct (pending_events s) as [|e rest] eqn:Hp;
      [cbn in Hpos; lia|].
    destruct Hg as (s' & Hs' & Hwf' & Hrest & Hst).
    exists e, s'. split; [exact Hs'|]. split; [rewrite Hrest; reflexivity|].
    pose proof (get_event_count_pending s' Hwf') as Hc'.
    split; [rewrite Hc', Hrest; cbn [length]; lia|].
    unfold matrix_robust_get_event in Hs'.
    destruct (event_queue_head s =? event_queue_tail s);
      injection Hs' as _ <-; repeat split; exact Hst.
Qed.

Lemma get_event_takes_oldest_witness :
  event_queue_wf (enqueue_events (numbered_events 5) idle_board) /\
  exists s',
    matrix_robust_get_event (enqueue_events (numbered_events 5) idle_board)
    = (Some (mkKeyEvent 1 KEY_PRESSED 0 0 1), s') /\
    matrix_robust_get_event_count s' = 4.
Proof.
  assert (Hwf : event_queue_wf (enqueue_events (numbered_events 5) idle_board)).
  { split; [reflexivity|]. split; split; (reflexivity || discriminate). }
  split; [exact Hwf|].
  destruct (get_event_takes_oldest _ Hwf) as (_ & Hpos).
  destruct Hpos as (e & s' & Hs' & Hp & Hc & _); [vm_compute; reflexivity|].
  exists s'. split.
  - rewrite Hs'. f_equal. f_equal.
    assert (He : pending_events (enqueue_events (numbered_events 5) idle_board)
                 = e :: pending_events s') by exact Hp.
    vm_compute in He. injection He as He _. symmetry. exact He.
  - rewrite Hc. reflexivity.
Defined.

(** ** The error queue as a FIFO *)

Lemma ring8_push {A : Type} (d e : A) (buf : list A) (h t : Z) :
  length buf = 8%nat -> 0 <= h < 8 -> 0 <= t < 8 -> (h - t) mod 8 < 7 ->
  (h + 1) mod 8 <> t /\
  map (fun k => nth (Z.to_nat ((t + Z.of_nat k) mod 8))
                    (upd (Z.to_nat h) e buf) d)
      (seq 0 (Z.to_nat (((h + 1) mod 8 - t) mod 8)))
  = map (fun k => nth (Z.to_nat ((t + Z.of_nat k) mod 8)) buf d)
        (seq 0 (Z.to_nat ((h - t) mod 8))) ++ [e].
Proof.
  intros Hlen Hh Ht Hroom.
  assert (Hnf : (h + 1) mod 8 <> t).
  { intros Heq. revert Hroom. rewrite <- Heq. Z.div_mod_to_equations. lia. }
  split; [exact Hnf|].
  set (n := Z.to_nat ((h - t) mod 8)).
  assert (Hn : Z.to_nat (((h + 1) mod 8 - t) mod 8) = S n).
  { unfold n. rewrite <- Z2Nat.inj_succ by (apply Z.mod_pos_bound; lia).
    f_equal. revert Hnf. Z.div_mod_to_equations. lia. }
  rewrite Hn, seq_S, map_app. cbn [map Nat.add]. f_equal.
  - apply map_ext_in. intros k Hk. apply in_seq in Hk. rewrite nth_upd.
    destruct (Nat.eqb_spec (Z.to_nat h) (Z.to_nat ((t + Z.of_nat k) mod 8)))
      as [Heq|_]; [|reflexivity].
    exfalso. apply Z2Nat.inj in Heq; [|lia|apply Z.mod_pos_bound; lia].
    assert (Hk' : Z.of_nat k < (h - t) mod 8).
    { unfold n in Hk. pose proof (Z.mod_pos_bound (h - t) 8). lia. }
    revert Heq Hk'. Z.div_mod_to_equations. lia.
  - f_equal. rewrite nth_upd.
    assert (Hidx : Z.to_nat ((t + Z.of_nat n) mod 8) = Z.to_nat h).
    { f_equal. unfold n. rewrite Z2Nat.id by (apply Z.mod_pos_bound; lia).
      Z.div_mod_to_equations. lia. }
    rewrite Hidx, Nat.eqb_refl, Hlen.
    destruct (Nat.ltb_spec (Z.to_nat h) 8) as [_|Hge]; [reflexivity|lia].
Qed.

Lemma ring8_pop {A : Type} (d : A) (buf : list A) (h t : Z) :
  0 <= h < 8 -> 0 <= t < 8 -> h <> t ->
  map (fun k => nth (Z.to_nat ((t + Z.of_nat k) mod 8)) buf d)
      (seq 0 (Z.to_nat ((h - t) mod 8)))
  = nth (Z.to_nat t) buf d
    :: map (fun k => nth (Z.to_nat (((t + 1) mod 8 + Z.of_nat k) mod 8)) buf d)
           (seq 0 (Z.to_nat ((h - (t + 1) mod 8) mod 8))).
Proof.
  intros Hh Ht Hne.
  assert (Hn : exists n, Z.to_nat ((h - t) mod 8) = S n /\
                         Z.to_nat ((h - (t + 1) mod 8) mod 8) = n).
  { exists (Z.to_nat ((h - t) mod 8 - 1)). split.
    - rewrite <- Z2Nat.inj_succ; [f_equal; lia|].
      revert Hne. Z.div_mod_to_equations. lia.
    - f_equal. revert Hne. Z.div_mod_to_equations. lia. }
  destruct Hn as (n & Hn & Hn'). rewrite Hn, Hn'.
  cbn [seq map]. rewrite <- seq_shift, map_map.
  replace ((t + Z.of_nat 0) mod 8) with t
    by (rewrite Z.add_0_r; symmetry; apply Z.mod_small; lia).
  f_equal. apply map_ext. intros k. f_equal. f_equal.
  rewrite Nat2Z.inj_succ. Z.div_mod_to_equations. lia.
Qed.

Lemma pending_errors_length (s : State) :
  length (pending_errors s) =
  Z.to_nat ((error_queue_head s - error_queue_tail s) mod ERROR_QUEUE_SIZE).
Proof. unfold pending_errors. rewrite length_map, length_seq. reflexivity. Qed.

Lemma enqueue_error_tail (e : ErrorEvent) (s : State) :
  error_queue_tail (snd (enqueue_error e s)) = error_queue_tail s.
Proof. exact (fr_error_queue_tail _ _ (enqueue_error_frame e s)). Qed.

Lemma enqueue_error_room_pending (e : ErrorEvent) (s : State) :
  error_queue_wf s ->
  (length (pending_errors s) < 7)%nat ->
  fst (enqueue_error e s) = true /\
  error_queue_wf (snd (enqueue_error e s)) /\
  pending_errors (snd (enqueue_error e s)) = pending_errors s ++ [e] /\
  total_errors (stats (snd (enqueue_error e s)))
  = u32 (total_errors (stats s) + 1) /\
  error_callback_calls (snd (enqueue_error e s))
  = (if error_callback s then error_callback_calls s ++ [e]
     else error_callback_calls s) /\
  error_callback (snd (enqueue_error e s)) = error_callback s.
Proof.
  intros (Hlen & Hh & Ht) Hroom. rewrite pending_errors_length in Hroom.
  unfold ERROR_QUEUE_SIZE in *.
  assert (Hroom' : (error_queue_head s - error_queue_tail s) mod 8 < 7).
  { pose proof (Z.mod_pos_bound (error_queue_head s - error_queue_tail s) 8).
    lia. }
  destruct (ring8_push zero_error e (error_queue s) _ _ Hlen Hh Ht Hroom')
    as (Hnf & Hpush).
  destruct (enqueue_error_room e s Hnf) as (H1 & H2 & H3 & H4 & H5).
  pose proof (enqueue_error_tail e s) as H6.
  pose proof (fr_error_callback _ _ (enqueue_error_frame e s)) as H7.
  unfold ERROR_QUEUE_SIZE in *.
  split; [exact H1|]. split; [|split; [|auto]].
  - unfold error_queue_wf, ERROR_QUEUE_SIZE. rewrite H2, H3, H6, upd_length.
    split; [exact Hlen|]. split; [|exact Ht]. apply Z.mod_pos_bound. lia.
  - unfold pending_errors, ERROR_QUEUE_SIZE. rewrite H2, H3, H6. exact Hpush.
Qed.

Lemma get_error_pending (s : State) :
  error_queue_wf s ->
  match pending_errors s with
  | [] => matrix_robust_get_error s = (None, s)
  | e :: rest =>
      exists s', matrix_robust_get_error s = (Some e, s') /\
                 error_queue_wf s' /\ pending_errors s' = rest /\
                 stats s' = stats s /\
                 error_callback_calls s' = error_callback_calls s
  end.
Proof.
  intros (Hlen & Hh & Ht). unfold pending_errors, matrix_robust_get_error.
  unfold ERROR_QUEUE_SIZE in *.
  destruct (Z.eqb_spec (error_queue_head s) (error_queue_tail s)) as [Heq|Hne].
  - rewrite Heq, Z.sub_diag. reflexivity.
  - rewrite (ring8_pop zero_error (error_queue s) _ _ Hh Ht Hne).
    eexists. split; [reflexivity|]. split; [|repeat split].
    unfold error_queue_wf, ERROR_QUEUE_SIZE.
    cbn [error_queue error_queue_head error_queue_tail set_error_queue_tail].
    split; [exact Hlen|]. split; [exact Hh|]. apply Z.mod_pos_bound. lia.
Qed.

Lemma drain_errors_pending (s : State) (n : nat) :
  error_queue_wf s -> (length (pending_errors s) <= n)%nat ->
  fst (drain_errors n s) = pending_errors s /\
  pending_errors (snd (drain_errors n s)) = [] /\
  stats (snd (drain_errors n s)) = stats s /\
  error_queue_wf (snd (drain_errors n s)).
Proof.
  revert s; induction n as [|n IH]; intros s Hwf Hlen.
  - cbn [drain_errors fst snd].
    destruct (pending_errors s) eqn:Hp; [auto | cbn in Hlen; lia].
  - cbn [drain_errors]. pose proof (get_error_pending s Hwf) as Hget.
    destruct (pending_errors s) as [|e rest] eqn:Hp.
    + rewrite Hget. cbn [fst snd]. auto.
    + destruct Hget as (s' & -> & Hwf' & Hp' & Hst & _).
      cbn [length] in Hlen.
      destruct (IH s' Hwf') as (H1 & H2 & H3 & H4); [rewrite Hp'; lia|].
      destruct (drain_errors n s') as [l s'']. cbn [fst snd] in *.
      rewrite H1, Hp', H3. auto.
Qed.

Lemma enqueue_errors_nil (s : State) : enqueue_errors [] s = s.
Proof. reflexivity. Qed.

Lemma enqueue_errors_cons (e : ErrorEvent) (es : list ErrorEvent) (s : State) :
  enqueue_errors (e :: es) s = enqueue_errors es (snd (enqueue_error e s)).
Proof. reflexivity. Qed.

Lemma enqueue_errors_pending (es : list ErrorEvent) (s : State) :
  error_queue_wf s ->
  (length (pending_errors s) + length es <= 7)%nat ->
  0 <= total_errors (stats s) ->
  total_errors (stats s) + Z.of_nat (length es) <= UINT32_MAX ->
  error_queue_wf (enqueue_errors es s) /\
  pending_errors (enqueue_errors es s) = pending_errors s ++ es /\
  total_errors (stats (enqueue_errors es s))
  = total_errors (stats s) + Z.of_nat (length es) /\
  error_callback_calls (enqueue_errors es s)
  = error_callback_calls s ++ (if error_callback s then es else []).
Proof.
  revert s; induction es as [|e es IH]; intros s Hwf Hlen Ht0 Ht1.
  - rewrite enqueue_errors_nil, app_nil_r. cbn [length Z.of_nat].
    rewrite Z.add_0_r. destruct (error_callback s); rewrite app_nil_r; auto.
  - rewrite enqueue_errors_cons. cbn [length] in *.
    rewrite Nat2Z.inj_succ in *.
    destruct (enqueue_error_room_pending e s Hwf)
      as (_ & Hwf' & Hp' & Hte & Hcalls & Hcb); [lia|].
    rewrite u32_succ in Hte by lia.
    destruct (IH _ Hwf') as (H1 & H2 & H3 & H4).
    + rewrite Hp', length_app. cbn [length]. lia.
    + lia.
    + lia.
    + rewrite H2, H3, H4, Hp', Hte, Hcalls, Hcb, <- app_assoc.
      split; [exact H1|]. split; [reflexivity|]. split; [lia|].
      destruct (error_callback s); rewrite <- ?app_assoc; reflexivity.
Qed.

(** X5. The error queue is a FIFO of capacity 7. Up to seven reports
    enqueued into an empty, well-formed error queue are all accepted:
    [total_errors] grows by their number, the error callback, if one is
    registered, is called with each of them in order, and draining returns
    them in the order they were enqueued, without touching the
    statistics. *)
Theorem error_queue_fifo (s : State) (es : list ErrorEvent) (n : nat) :
  error_queue_wf s ->
  error_queue_head s = error_queue_tail s ->
  (length es <= 7)%nat -> (length es <= n)%nat ->
  0 <= total_errors (stats s) ->
  total_errors (stats s) + 7 <= UINT32_MAX ->
  total_errors (stats (enqueue_errors es s))
  = total_errors (stats s) + Z.of_nat (length es) /\
  error_callback_calls (enqueue_errors es s)
  = error_callback_calls s ++ (if error_callback s then es else []) /\
  fst (drain_errors n (enqueue_errors es s)) = es /\
  stats (snd (drain_errors n (enqueue_errors es s)))
  = stats (enqueue_errors es s) /\
  fst (matrix_robust_get_error (snd (drain_errors n (enqueue_errors es s))))
  = None.
Proof.
  intros Hwf Hempty Hlen Hn Ht0 Ht1.
  assert (Hp0 : pending_errors s = []).
  { unfold pending_errors. rewrite Hempty, Z.sub_diag. reflexivity. }
  destruct (enqueue_errors_pending es s Hwf) as (Hwf1 & Hp1 & Hte & Hcalls);
    [rewrite Hp0; cbn [length]; lia | exact Ht0 | lia |].
  rewrite Hp0 in Hp1. cbn [app] in Hp1.
  split; [exact Hte|]. split; [exact Hcalls|].
  revert Hwf1 Hp1. generalize (enqueue_errors es s) as s1. intros s1 Hwf1 Hp1.
  destruct (drain_errors_pending s1 n Hwf1) as (Hd1 & Hd2 & Hd3 & Hwf2);
    [rewrite Hp1; exact Hn|].
  split; [rewrite Hd1; exact Hp1|]. split; [exact Hd3|].
  pose proof (get_error_pending _ Hwf2) as Hg. rewrite Hd2 in Hg.
  rewrite Hg. reflexivity.
Qed.

Lemma error_queue_fifo_witness :
  error_queue_wf idle_board /\
  error_queue_head idle_board = error_queue_tail idle_board /\
  total_errors (stats (enqueue_errors (numbered_errors 7) idle_board)) = 7 /\
  fst (drain_errors 7 (enqueue_errors (numbered_errors 7) idle_board))
  = numbered_errors 7.
Proof.
  assert (Hwf : error_queue_wf idle_board).
  { split; [reflexivity|]. split; split; (reflexivity || discriminate). }
  assert (Hempty : error_queue_head idle_board = error_queue_tail idle_board)
    by reflexivity.
  assert (Hlen : (length (numbered_errors 7) <= 7)%nat)
    by (change (length (numbered_errors 7)) with 7%nat; lia).
  assert (Ht0 : 0 <= total_errors (stats idle_board))
    by (vm_compute; discriminate).
  assert (Ht1 : total_errors (stats idle_board) + 7 <= UINT32_MAX)
    by (vm_compute; discriminate).
  destruct (error_queue_fifo idle_board (numbered_errors 7) 7 Hwf Hempty
              Hlen Hlen Ht0 Ht1) as (H1 & _ & H3 & _).
  split; [exact Hwf|]. split; [exact Hempty|]. split; [|exact H3].
  rewrite H1. reflexivity.
Defined.

(** ** Start, stop and the low-power round trip *)

Lemma start_state (s : State) :
  scanning_active (matrix_robust_start s) = true /\
  (timer_consistent s -> timer_consistent (matrix_robust_start s)) /\
  wake_irq (matrix_robust_start s) = wake_irq s /\
  col_gpios (matrix_robust_start s) = col_gpios s.
Proof.
  unfold matrix_robust_start, timer_consistent.
  destruct (scanning_active s) eqn:E; cbn; repeat split; auto;
    intros ->; symmetry; exact E.
Qed.

Lemma stop_state (s : State) :
  scanning_active (matrix_robust_stop s) = false /\
  (timer_consistent s -> timer_consistent (matrix_robust_stop s)) /\
  wake_irq (matrix_robust_stop s) = wake_irq s /\
  col_gpios (matrix_robust_stop s) = col_gpios s.
Proof.
  unfold matrix_robust_stop, timer_consistent.
  destruct (scanning_active s) eqn:E; cbn; repeat split; auto;
    intros ->; symmetry; exact E.
Qed.

Lemma irq_loop_timer_consistent (enabled : bool) (s : State) :
  timer_consistent s ->
  timer_consistent
    (fold_left (fun s i => gpio_set_irq_enabled (nth i (col_gpios s) 0) enabled s)
       (seq 0 MATRIX_COLS) s).
Proof.
  unfold timer_consistent. intros H.
  destruct (fold_irq_frame enabled (seq 0 MATRIX_COLS) s) as (_ & H2 & H3 & _).
  cbv zeta in H2, H3. rewrite H2, H3. exact H.
Qed.

(** X6. Starting and stopping. [matrix_robust_start] on a running engine
    and [matrix_robust_stop] on a stopped one change nothing, so each is
    idempotent; on an engine whose timer is armed exactly when
    [scanning_active] is set, stop undoes start and start undoes stop; and
    that agreement of timer and flag is kept by start, stop, entering and
    leaving low power and the wake callback. *)
Theorem start_stop_discipline (s : State) (gpio events : Z) :
  timer_consistent s ->
  (scanning_active s = true -> matrix_robust_start s = s) /\
  (scanning_active s = false -> matrix_robust_stop s = s) /\
  matrix_robust_start (matrix_robust_start s) = matrix_robust_start s /\
  matrix_robust_stop (matrix_robust_stop s) = matrix_robust_stop s /\
  (scanning_active s = false -> matrix_robust_stop (matrix_robust_start s) = s) /\
  (scanning_active s = true -> matrix_robust_start (matrix_robust_stop s) = s) /\
  timer_consistent (matrix_robust_start s) /\
  timer_consistent (matrix_robust_stop s) /\
  timer_consistent (matrix_robust_enter_low_power s) /\
  timer_consistent (matrix_robust_exit_low_power s) /\
  timer_consistent (gpio_interrupt_callback gpio events s).
Proof.
  intros Hc.
  split; [intros H; unfold matrix_robust_start; rewrite H; reflexivity|].
  split; [intros H; unfold matrix_robust_stop; rewrite H; reflexivity|].
  split; [unfold matrix_robust_start; destruct (scanning_active s) eqn:E;
          cbn; rewrite ?E; reflexivity|].
  split; [unfold matrix_robust_stop; destruct (scanning_active s) eqn:E;
          cbn; rewrite ?E; reflexivity|].
  split.
  { intros H. unfold timer_consistent in Hc. rewrite H in Hc.
    unfold matrix_robust_start, matrix_robust_stop. rewrite H. cbn.
    destruct s. cbn in *. subst. reflexivity. }
  split.
  { intros H. unfold timer_consistent in Hc. rewrite H in Hc.
    unfold matrix_robust_start, matrix_robust_stop. rewrite H. cbn.
    destruct s. cbn in *. subst. reflexivity. }
  split; [apply start_state, Hc|]. split; [apply stop_state, Hc|].
  split.
  { unfold matrix_robust_enter_low_power, matrix_robust_enable_wake_interrupt.
    apply irq_loop_timer_consistent, stop_state, Hc. }
  split.
  { unfold matrix_robust_exit_low_power, matrix_robust_disable_wake_interrupt.
    apply start_state, irq_loop_timer_consistent, Hc. }
  unfold gpio_interrupt_callback.
  destruct (negb (scanning_active s)); [apply start_state, Hc | exact Hc].
Qed.

Lemma start_stop_discipline_witness :
  timer_consistent idle_board /\
  matrix_robust_stop (matrix_robust_start idle_board) = idle_board /\
  timer_consistent (matrix_robust_enter_low_power idle_board).
Proof.
  assert (Hc : timer_consistent idle_board) by reflexivity.
  destruct (start_stop_discipline idle_board 6 4 Hc)
    as (_ & _ & _ & _ & H5 & _ & _ & _ & H9 & _).
  split; [exact Hc|]. split; [apply H5; reflexivity | exact H9].
Defined.

Lemma existsb_pointwise {A : Type} (f g : A -> bool) (l : list A) :
  (forall x, f x = g x) -> existsb f l = existsb g l.
Proof.
  intros H. induction l as [|x l IH]; cbn [existsb]; [reflexivity|].
  rewrite H, IH. reflexivity.
Qed.

Lemma exit_low_power_state (s : State) :
  scanning_active (matrix_robust_exit_low_power s) = true /\
  col_gpios (matrix_robust_exit_low_power s) = col_gpios s /\
  (forall p, irq_enabled (matrix_robust_exit_low_power s) p =
             if existsb (fun i => p =? nth i (col_gpios s) 0) (seq 0 MATRIX_COLS)
             then false else irq_enabled s p).
Proof.
  unfold matrix_robust_exit_low_power, matrix_robust_disable_wake_interrupt.
  destruct (fold_irq_frame false (seq 0 MATRIX_COLS) s) as (H1 & _ & _ & H4).
  cbv zeta in H1, H4. revert H1 H4.
  generalize (fold_left
    (fun s0 i => gpio_set_irq_enabled (nth i (col_gpios s0) 0) false s0)
    (seq 0 MATRIX_COLS) s) as d.
  intros d H1 H4. destruct (start_state d) as (Ha & _ & Hw & Hg).
  split; [exact Ha|]. split; [rewrite Hg; exact H1|].
  intros p. unfold irq_enabled at 1. rewrite Hw. exact (H4 p).
Qed.

Lemma enter_low_power_irq (s : State) (p : Z) :
  irq_enabled (matrix_robust_enter_low_power s) p =
  if existsb (fun i => p =? nth i (col_gpios s) 0) (seq 0 MATRIX_COLS)
  then true else irq_enabled s p.
Proof.
  unfold matrix_robust_enter_low_power, matrix_robust_enable_wake_interrupt.
  destruct (fold_irq_frame true (seq 0 MATRIX_COLS) (matrix_robust_stop s))
    as (_ & _ & _ & H4).
  cbv zeta in H4. rewrite H4.
  destruct (stop_state s) as (_ & _ & Hw & Hg). rewrite Hg.
  unfold irq_enabled. rewrite Hw. reflexivity.
Qed.

Lemma column_pin_listed (s : State) (c : nat) :
  (c < MATRIX_COLS)%nat ->
  existsb (fun i => nth c (col_gpios s) 0 =? nth i (col_gpios s) 0)
          (seq 0 MATRIX_COLS) = true.
Proof.
  intros Hc. apply existsb_exists. exists c.
  split; [apply in_seq; lia | apply Z.eqb_refl].
Qed.

(** X7. Entering low power and leaving it with
    [matrix_robust_exit_low_power]: the engine is Active, the falling-edge
    interrupt of every column pin is disabled, so the wake source is
    disarmed, and the interrupt setting of every pin that is not a column
    pin is as it was before low power was entered. *)
Theorem low_power_round_trip (s : State) :
  engine_state (matrix_robust_exit_low_power (matrix_robust_enter_low_power s))
  = Active /\
  wake_armed (matrix_robust_exit_low_power (matrix_robust_enter_low_power s))
  = false /\
  (forall c, (c < MATRIX_COLS)%nat ->
     irq_enabled
       (matrix_robust_exit_low_power (matrix_robust_enter_low_power s))
       (nth c (col_gpios s) 0) = false) /\
  (forall p,
     existsb (fun i => p =? nth i (col_gpios s) 0) (seq 0 MATRIX_COLS) = false ->
     irq_enabled
       (matrix_robust_exit_low_power (matrix_robust_enter_low_power s)) p
     = irq_enabled s p).
Proof.
  destruct (enter_low_power_state s) as (_ & _ & Hcols & _).
  pose proof (enter_low_power_irq s) as Hin.
  revert Hcols Hin. generalize (matrix_robust_enter_low_power s) as l.
  intros l Hcols Hin.
  destruct (exit_low_power_state l) as (Hact & Hg & Hirq).
  rewrite Hcols in Hirq. rewrite Hcols in Hg.
  revert Hact Hg Hirq. generalize (matrix_robust_exit_low_power l) as x.
  intros x Hact Hg Hirq.
  assert (Hcolpins : forall c, (c < MATRIX_COLS)%nat ->
                       irq_enabled x (nth c (col_gpios s) 0) = false).
  { intros c Hc. rewrite Hirq, (column_pin_listed s c Hc). reflexivity. }
  split; [unfold engine_state; rewrite Hact; reflexivity|].
  split.
  { unfold wake_armed. rewrite Hg.
    destruct (existsb _ (seq 0 MATRIX_COLS)) eqn:E; [|reflexivity].
    apply existsb_exists in E. destruct E as (c & Hc & Hen).
    apply in_seq in Hc. rewrite Hcolpins in Hen by lia. discriminate Hen. }
  split; [exact Hcolpins|].
  intros p Hp. rewrite Hirq, Hp, Hin, Hp. reflexivity.
Qed.

(** X8. Entering low power twice is the same as entering it once, as far
    as the engine can be observed: the engine state, the scanning flag, the
    timer and the interrupt setting of every pin agree. *)
Theorem enter_low_power_twice (s : State) :
  engine_state (matrix_robust_enter_low_power (matrix_robust_enter_low_power s))
  = engine_state (matrix_robust_enter_low_power s) /\
  scanning_active (matrix_robust_enter_low_power (matrix_robust_enter_low_power s))
  = scanning_active (matrix_robust_enter_low_power s) /\
  timer_armed (matrix_robust_enter_low_power (matrix_robust_enter_low_power s))
  = timer_armed (matrix_robust_enter_low_power s) /\
  (forall p,
     irq_enabled
       (matrix_robust_enter_low_power (matrix_robust_enter_low_power s)) p
     = irq_enabled (matrix_robust_enter_low_power s) p).
Proof.
  destruct (enter_low_power_state s) as (Hact & _ & Hcols & _).
  pose proof (enter_low_power_irq s) as Hin.
  revert Hact Hcols Hin. generalize (matrix_robust_enter_low_power s) as l.
  intros l Hact Hcols Hin.
  destruct (enter_low_power_state l) as (Hact2 & Htm2 & Hcols2 & _).
  pose proof (enter_low_power_irq l) as Hin2. rewrite Hcols in Hin2.
  assert (Hstop : matrix_robust_stop l = l).
  { unfold matrix_robust_stop. rewrite Hact. reflexivity. }
  rewrite Hstop in Htm2.
  revert Hact2 Htm2 Hcols2 Hin2.
  generalize (matrix_robust_enter_low_power l) as l2.
  intros l2 Hact2 Htm2 Hcols2 Hin2.
  assert (Hirq : forall p, irq_enabled l2 p = irq_enabled l p).
  { intros p. rewrite Hin2, Hin.
    destruct (existsb _ (seq 0 MATRIX_COLS)); reflexivity. }
  split.
  { unfold engine_state, wake_armed. rewrite Hact, Hact2, Hcols2.
    rewrite (existsb_pointwise _ (fun i => irq_enabled l (nth i (col_gpios l) 0)));
      [reflexivity | intros c; apply Hirq]. }
  split; [rewrite Hact, Hact2; reflexivity|]. split; [exact Htm2 | exact Hirq].
Qed.

(** ** The transition of the board in one scan step *)

Lemma grid_wf_inb (g : grid) (r c : nat) :
  grid_wf g -> (r < MATRIX_ROWS)%nat -> (c < MATRIX_COLS)%nat -> inb g r c = true.
Proof.
  intros (Hlen & Hrows) Hr Hc. unfold inb.
  assert (Hrow : length (nth r g []) = MATRIX_COLS).
  { rewrite Forall_forall in Hrows. apply Hrows, nth_In. lia. }
  rewrite Hlen, Hrow. apply andb_true_intro. split; apply Nat.ltb_lt; assumption.
Qed.

Lemma Forall_upd_length (g : grid) (r : nat) (row : list Z) :
  length row = MATRIX_COLS ->
  Forall (fun x => length x = MATRIX_COLS) g ->
  Forall (fun x => length x = MATRIX_COLS) (upd r row g).
Proof. intros Hrow Hg. apply Forall_upd; assumption. Qed.

Lemma grid_wf_set2 (g : grid) (r c : nat) (v : Z) :
  grid_wf g -> (r < MATRIX_ROWS)%nat -> grid_wf (set2 g r c v).
Proof.
  intros (Hlen & Hrows) Hr. unfold grid_wf, set2. rewrite upd_length.
  split; [exact Hlen|]. apply Forall_upd_length; [|exact Hrows].
  rewrite upd_length. rewrite Forall_forall in Hrows. apply Hrows, nth_In. lia.
Qed.

Lemma enqueue_error_cells (e : ErrorEvent) (s : State) :
  key_state (snd (enqueue_error e s)) = key_state s /\
  key_timestamp (snd (enqueue_error e s)) = key_timestamp s /\
  current_row (snd (enqueue_error e s)) = current_row s.
Proof.
  unfold enqueue_error, call_error_callback, incr_total_errors.
  split_ifs; repeat split.
Qed.

(** The two per-cell arrays after the loop body. *)
Lemma scan_cell_arrays (i : ScanInput) (s : State) (col : nat) :
  let row := Z.to_nat (current_row s) in
  let st := get2 (key_state s) row col in
  let closed := negb (gpio_get i col) in
  key_state (scan_cell i s col) =
    (if closed && (st =? KEY_IDLE) then set2 (key_state s) row col KEY_IDLE
     else if closed && (st =? KEY_PRESSED) then set2 (key_state s) row col KEY_HELD
     else key_state s) /\
  key_timestamp (scan_cell i s col) =
    (if (closed && (st =? KEY_IDLE)) || (negb closed && is_pressed_state st)
     then set2 (key_timestamp s) row col (now_ms i)
     else key_timestamp s).
Proof.
  cbv zeta. rewrite scan_cell_live_eq. unfold scan_cell_live, is_pressed_state.
  destruct (negb (gpio_get i col)); cbn [andb orb negb].
  - destruct (_ =? KEY_IDLE); [split; reflexivity|].
    destruct (_ =? KEY_PRESSED); [|split; reflexivity].
    destruct (_ && _)%bool; [|split; reflexivity].
    match goal with
    | |- context [enqueue_error ?e ?m] =>
        destruct (enqueue_error_cells e m) as (E1 & E2 & _)
    end.
    rewrite E1, E2. split; reflexivity.
  - destruct (_ || _)%bool; split; reflexivity.
Qed.

(** The loop body on the two per-cell arrays: it rewrites the cell of its
    column in the scanned row and no other. *)
Lemma scan_cell_cells (i : ScanInput) (s : State) (col : nat) :
  board_wf s -> (col < MATRIX_COLS)%nat ->
  board_wf (scan_cell i s col) /\
  current_row (scan_cell i s col) = current_row s /\
  forall r c,
    get2 (key_state (scan_cell i s col)) r c =
    (if (r =? Z.to_nat (current_row s))%nat && (c =? col)%nat
     then next_key_state (negb (gpio_get i col)) (get2 (key_state s) r c)
     else get2 (key_state s) r c) /\
    get2 (key_timestamp (scan_cell i s col)) r c =
    (if (r =? Z.to_nat (current_row s))%nat && (c =? col)%nat
     then next_key_timestamp (negb (gpio_get i col)) (get2 (key_state s) r c)
            (get2 (key_timestamp s) r c) (now_ms i)
     else get2 (key_timestamp s) r c).
Proof.
  intros (Hks & Hkt & Hpk & Hrow) Hcol.
  assert (Hr : (Z.to_nat (current_row s) < MATRIX_ROWS)%nat) by lia.
  pose proof (grid_wf_inb _ _ _ Hks Hr Hcol) as Hin1.
  pose proof (grid_wf_inb _ _ _ Hkt Hr Hcol) as Hin2.
  pose proof (fr_pressed_keys _ _ (scan_cell_frame i s col)) as Hpk'.
  pose proof (scan_cell_current_row i s col) as Hcr.
  destruct (scan_cell_arrays i s col) as (Eks & Ekt). cbv zeta in Eks, Ekt.
  split.
  { unfold board_wf. rewrite Eks, Ekt, Hpk', Hcr.
    split; [|split; [|split; assumption]].
    - destruct (_ && _)%bool; [apply grid_wf_set2; assumption|].
      destruct (_ && _)%bool; [apply grid_wf_set2; assumption | assumption].
    - destruct (_ || _)%bool; [apply grid_wf_set2; assumption | assumption]. }
  split; [exact Hcr|].
  intros r c. rewrite Eks, Ekt.
  unfold next_key_state, next_key_timestamp, is_pressed_state.
  destruct ((r =? Z.to_nat (current_row s))%nat && (c =? col)%nat)%bool eqn:E.
  - apply andb_prop in E as [Er Ec]. apply Nat.eqb_eq in Er, Ec. subst r c.
    destruct (negb (gpio_get i col));
      destruct (Z.eqb_spec (get2 (key_state s) (Z.to_nat (current_row s)) col)
                           KEY_IDLE) as [Ha|Ha];
      destruct (Z.eqb_spec (get2 (key_state s) (Z.to_nat (current_row s)) col)
                           KEY_PRESSED) as [Hp|Hp];
      destruct (Z.eqb_spec (get2 (key_state s) (Z.to_nat (current_row s)) col)
                           KEY_HELD) as [Hh|Hh];
      cbn [andb orb negb]; rewrite ?get2_set2_same by assumption;
      unfold KEY_IDLE, KEY_PRESSED, KEY_HELD in *; split; lia.
  - assert (Hother : forall g v,
              get2 (set2 g (Z.to_nat (current_row s)) col v) r c = get2 g r c).
    { intros g v. rewrite get2_set2.
      rewrite (Nat.eqb_sym (Z.to_nat (current_row s)) r), (Nat.eqb_sym col c), E.
      reflexivity. }
    repeat match goal with
           | |- context [get2 (if ?b then _ else _) _ _] => destruct b
           end; rewrite ?Hother; split; reflexivity.
Qed.

Lemma fold_scan_cell_cells (i : ScanInput) (cols : list nat) (s : State) :
  board_wf s -> NoDup cols -> (forall c, In c cols -> (c < MATRIX_COLS)%nat) ->
  board_wf (fold_left (scan_cell i) cols s) /\
  current_row (fold_left (scan_cell i) cols s) = current_row s /\
  forall r c,
    get2 (key_state (fold_left (scan_cell i) cols s)) r c =
    (if (r =? Z.to_nat (current_row s))%nat && existsb (Nat.eqb c) cols
     then next_key_state (negb (gpio_get i c)) (get2 (key_state s) r c)
     else get2 (key_state s) r c) /\
    get2 (key_timestamp (fold_left (scan_cell i) cols s)) r c =
    (if (r =? Z.to_nat (current_row s))%nat && existsb (Nat.eqb c) cols
     then next_key_timestamp (negb (gpio_get i c)) (get2 (key_state s) r c)
            (get2 (key_timestamp s) r c) (now_ms i)
     else get2 (key_timestamp s) r c).
Proof.
  revert s; induction cols as [|k cols IH]; intros s Hwf Hnd Hin;
    cbn [fold_left existsb].
  - split; [exact Hwf|]. split; [reflexivity|]. intros r c.
    rewrite andb_false_r. auto.
  - inversion Hnd as [|? ? Hk Hnd']; subst.
    destruct (scan_cell_cells i s k Hwf) as (Hwf1 & Hcr1 & Hcell1);
      [apply Hin; left; reflexivity|].
    destruct (IH (scan_cell i s k) Hwf1 Hnd') as (Hwf2 & Hcr2 & Hcell2);
      [intros c Hc; apply Hin; right; exact Hc|].
    split; [exact Hwf2|]. split; [rewrite Hcr2; exact Hcr1|].
    intros r c. destruct (Hcell2 r c) as (H2a & H2b).
    destruct (Hcell1 r c) as (H1a & H1b).
    rewrite H2a, H2b, H1a, H1b, Hcr1.
    destruct (Nat.eqb_spec r (Z.to_nat (current_row s))) as [Hr|Hr];
      cbn [andb]; [|auto].
    destruct (Nat.eqb_spec c k) as [Hck|Hck]; cbn [orb].
    + subst c. assert (Hnot : existsb (Nat.eqb k) cols = false).
      { destruct (existsb (Nat.eqb k) cols) eqn:Ex; [|reflexivity].
        apply existsb_exists in Ex. destruct Ex as (x & Hx & Hkx).
        apply Nat.eqb_eq in Hkx. subst x. contradiction. }
      rewrite Hnot. auto.
    + destruct (existsb (Nat.eqb c) cols); auto.
Qed.

Lemma scan_columns_cells (i : ScanInput) (s : State) :
  board_wf s ->
  board_wf (scan_columns i s) /\
  forall r c, (c < MATRIX_COLS)%nat ->
    get2 (key_state (scan_columns i s)) r c =
    (if (r =? Z.to_nat (current_row s))%nat
     then next_key_state (negb (gpio_get i c)) (get2 (key_state s) r c)
     else get2 (key_state s) r c) /\
    get2 (key_timestamp (scan_columns i s)) r c =
    (if (r =? Z.to_nat (current_row s))%nat
     then next_key_timestamp (negb (gpio_get i c)) (get2 (key_state s) r c)
            (get2 (key_timestamp s) r c) (now_ms i)
     else get2 (key_timestamp s) r c).
Proof.
  intros Hwf. unfold scan_columns.
  destruct (fold_scan_cell_cells i (seq 0 MATRIX_COLS) s Hwf) as (H1 & _ & H3).
  - apply seq_NoDup.
  - intros c Hc. apply in_seq in Hc. lia.
  - split; [exact H1|]. intros r c Hc. destruct (H3 r c) as (Ha & Hb).
    assert (Hex : existsb (Nat.eqb c) (seq 0 MATRIX_COLS) = true).
    { apply existsb_exists. exists c. split; [apply in_seq; lia|].
      apply Nat.eqb_refl. }
    rewrite Hex, andb_true_r in Ha, Hb. auto.
Qed.

Lemma board_wf_same_cells (s s' : State) (row : Z) :
  key_state s' = key_state s -> key_timestamp s' = key_timestamp s ->
  pressed_keys s' = pressed_keys s -> current_row s' = row ->
  0 <= row < Z.of_nat MATRIX_ROWS ->
  board_wf s -> board_wf s'.
Proof.
  unfold board_wf. intros -> -> -> -> Hrow (H1 & H2 & H3 & _). auto.
Qed.

(** X9. One scan step on a well-formed board, cell by cell. A cell outside
    the scanned row keeps its state and its timestamp. A cell of the
    scanned row changes state only from Pressed to Held, when its column
    reads closed; its timestamp becomes the time of the scan when it is
    Idle and reads closed or is Pressed or Held and reads open, and is kept
    otherwise. The ghost buffer is not written, and the board is
    well-formed again. *)
Theorem scan_step_cells (i : ScanInput) (s s' : State) :
  board_wf s ->
  scan_timer_callback i s = Some s' ->
  board_wf s' /\
  pressed_keys s' = pressed_keys s /\
  forall r c, (c < MATRIX_COLS)%nat ->
    get2 (key_state s') r c =
    (if (r =? Z.to_nat (current_row s))%nat
     then next_key_state (negb (gpio_get i c)) (get2 (key_state s) r c)
     else get2 (key_state s) r c) /\
    get2 (key_timestamp s') r c =
    (if (r =? Z.to_nat (current_row s))%nat
     then next_key_timestamp (negb (gpio_get i c)) (get2 (key_state s) r c)
            (get2 (key_timestamp s) r c) (now_ms i)
     else get2 (key_timestamp s) r c).
Proof.
  intros Hwf H.
  pose proof (fr_pressed_keys _ _ (scan_timer_callback_frame i s s' H)) as Hpk.
  apply scan_timer_callback_cols in H. destruct H as (Hse & Hcr & _).
  pose proof (incr_total_scans_same_engine s) as H0.
  assert (Hwf0 : board_wf (incr_total_scans s)).
  { apply (board_wf_same_cells s _ (current_row s)); try reflexivity;
      [apply Hwf | exact Hwf]. }
  destruct (scan_columns_cells i (incr_total_scans s) Hwf0) as (Hwfm & Hcells).
  rewrite incr_total_scans_current_row in Hcells.
  split; [|split; [exact Hpk|]].
  - apply (board_wf_same_cells (scan_columns i (incr_total_scans s)) s'
             (u8 ((current_row s + 1) mod 4))).
    + exact (se_key_state _ _ Hse).
    + exact (se_key_timestamp _ _ Hse).
    + exact (se_pressed_keys _ _ Hse).
    + exact Hcr.
    + unfold u8, MATRIX_ROWS. 
      pose proof (Z.mod_pos_bound (current_row s + 1) 4).
      rewrite Z.mod_small; lia.
    + exact Hwfm.
  - intros r c Hc. rewrite (se_key_state _ _ Hse), (se_key_timestamp _ _ Hse).
    exact (Hcells r c Hc).
Qed.

Lemma idle_board_wf : board_wf idle_board.
Proof.
  unfold board_wf, grid_wf.
  repeat split; try reflexivity; try discriminate;
    repeat (constructor; try reflexivity).
Qed.

Lemma pressed00_board_wf : board_wf pressed00_board.
Proof.
  unfold board_wf, grid_wf.
  repeat split; try reflexivity; try discriminate;
    repeat (constructor; try reflexivity).
Qed.

Lemma scan_step_cells_witness :
  board_wf pressed00_board /\
  scan_timer_callback two_key_input pressed00_board = Some two_key_result /\
  get2 (key_state two_key_result) 0 0 = KEY_HELD /\
  get2 (key_timestamp two_key_result) 0 0 = 0 /\
  get2 (key_state two_key_result) 0 1 = KEY_IDLE /\
  get2 (key_timestamp two_key_result) 0 1 = 7.
Proof.
  assert (Hrun : scan_timer_callback two_key_input pressed00_board
                 = Some two_key_result) by (vm_compute; reflexivity).
  destruct (scan_step_cells _ _ _ pressed00_board_wf Hrun) as (_ & _ & Hcells).
  destruct (Hcells 0%nat 0%nat) as (Ha & Hb); [unfold MATRIX_COLS; lia|].
  destruct (Hcells 0%nat 1%nat) as (Hc & Hd); [unfold MATRIX_COLS; lia|].
  split; [exact pressed00_board_wf|]. split; [exact Hrun|].
  split; [rewrite Ha; reflexivity|]. split; [rewrite Hb; reflexivity|].
  split; [rewrite Hc; reflexivity | rewrite Hd; reflexivity].
Defined.

(** ** The row cursor and the scan count *)

Lemma scan_timer_callback_row (i : ScanInput) (s s' : State) :
  scan_timer_callback i s = Some s' ->
  current_row s' = (current_row s + 1) mod 4.
Proof.
  intros H. apply scan_timer_callback_cols in H. destruct H as (_ & Hcr & _).
  rewrite Hcr. unfold u8. pose proof (Z.mod_pos_bound (current_row s + 1) 4).
  apply Z.mod_small. lia.
Qed.

(** X10. The rows are scanned round-robin: each step moves the row cursor
    to the next row modulo 4, so after a run of n steps from a cursor inside
    the board it stands at [(current_row + n) mod 4]; four steps bring it
    back. *)
Theorem row_cursor_round_robin (inputs : list ScanInput) (s s' : State) :
  0 <= current_row s < 4 ->
  run_scans inputs s = Some s' ->
  current_row s' = (current_row s + Z.of_nat (length inputs)) mod 4 /\
  0 <= current_row s' < 4 /\
  (length inputs = 4%nat -> current_row s' = current_row s).
Proof.
  intros Hcr Hrun.
  assert (Hmain : current_row s'
                  = (current_row s + Z.of_nat (length inputs)) mod 4).
  { revert s Hcr Hrun. induction inputs as [|i rest IH]; intros s Hcr Hrun.
    - rewrite run_scans_nil in Hrun. injection Hrun as <-.
      cbn [length Z.of_nat]. rewrite Z.add_0_r. symmetry. apply Z.mod_small, Hcr.
    - apply run_scans_step in Hrun. destruct Hrun as (s1 & H1 & H2).
      pose proof (scan_timer_callback_row i s s1 H1) as Hrow.
      rewrite (IH s1); [|rewrite Hrow; apply Z.mod_pos_bound; lia | exact H2].
      rewrite Hrow. cbn [length]. rewrite Nat2Z.inj_succ.
      Z.div_mod_to_equations. lia. }
  split; [exact Hmain|]. split.
  - rewrite Hmain. apply Z.mod_pos_bound. lia.
  - intros H4. rewrite Hmain, H4. change (Z.of_nat 4) with 4.
    Z.div_mod_to_equations. lia.
Qed.

Lemma row_cursor_round_robin_witness :
  0 <= current_row idle_board < 4 /\
  run_scans press00_inputs idle_board = Some press00_result /\
  current_row press00_result = (0 + 40) mod 4.
Proof.
  assert (Hcr : 0 <= current_row idle_board < 4) 
    by (change (current_row idle_board) with 0; lia).
  assert (Hrun : run_scans press00_inputs idle_board = Some press00_result)
    by (vm_compute; reflexivity).
  destruct (row_cursor_round_robin _ _ _ Hcr Hrun) as (H & _).
  split; [exact Hcr|]. split; [exact Hrun|]. rewrite H. reflexivity.
Defined.

(** X11. [total_scans] counts the scan steps: a run of n steps from a
    count that leaves room for them below 4294967295 has a result, and the
    count has grown by exactly n. *)
Theorem scans_are_counted (inputs : list ScanInput) (s : State) :
  0 <= total_scans (stats s) ->
  total_scans (stats s) + Z.of_nat (length inputs) <= UINT32_MAX ->
  exists s', run_scans inputs s = Some s' /\
             total_scans (stats s')
             = total_scans (stats s) + Z.of_nat (length inputs).
Proof.
  revert s; induction inputs as [|i rest IH]; intros s H0 H1.
  - exists s. split; [reflexivity|]. cbn [length Z.of_nat]. lia.
  - cbn [length] in *. rewrite Nat2Z.inj_succ in *.
    destruct (scan_timer_callback_defined i s) as (s1 & Hs1).
    { rewrite u32_succ by lia. lia. }
    pose proof Hs1 as Hc. apply scan_timer_callback_cols in Hc.
    destruct Hc as (_ & _ & Hts & _). rewrite u32_succ in Hts by lia.
    destruct (IH s1) as (s' & Hs' & Hts'); [lia | lia |].
    exists s'. split; [|lia].
    rewrite run_scans_cons, Hs1. exact Hs'.
Qed.

Lemma scans_are_counted_witness :
  0 <= total_scans (stats idle_board) /\
  exists s', run_scans press00_inputs idle_board = Some s' /\
             total_scans (stats s') = 40.
Proof.
  assert (H0 : 0 <= total_scans (stats idle_board)) by (vm_compute; discriminate).
  split; [exact H0|].
  destruct (scans_are_counted press00_inputs idle_board H0) as (s' & Hs' & Hts).
  { vm_compute. discriminate. }
  exists s'. split; [exact Hs' | rewrite Hts; reflexivity].
Defined.

(** ** Scan-time statistics *)

Lemma enqueue_error_times (e : ErrorEvent) (s : State) :
  max_scan_time_us (stats (snd (enqueue_error e s))) = max_scan_time_us (stats s) /\
  avg_scan_time_us (stats (snd (enqueue_error e s))) = avg_scan_time_us (stats s).
Proof.
  unfold enqueue_error, call_error_callback, incr_total_errors.
  split_ifs; split; reflexivity.
Qed.

Lemma scan_cell_times (i : ScanInput) (s : State) (col : nat) :
  max_scan_time_us (stats (scan_cell i s col)) = max_scan_time_us (stats s) /\
  avg_scan_time_us (stats (scan_cell i s col)) = avg_scan_time_us (stats s).
Proof.
  rewrite scan_cell_live_eq. unfold scan_cell_live.
  split_ifs; try (split; reflexivity).
  match goal with
  | |- context [enqueue_error ?e ?m] =>
      destruct (enqueue_error_times e m) as (E1 & E2)
  end.
  rewrite E1, E2. split; reflexivity.
Qed.

Lemma scan_columns_times (i : ScanInput) (s : State) :
  max_scan_time_us (stats (scan_columns i s)) = max_scan_time_us (stats s) /\
  avg_scan_time_us (stats (scan_columns i s)) = avg_scan_time_us (stats s).
Proof.
  unfold scan_columns. generalize (seq 0 MATRIX_COLS) as cols.
  intros cols; revert s; induction cols as [|k cols IH]; intros s;
    cbn [fold_left]; [split; reflexivity|].
  destruct (IH (scan_cell i s k)) as (H1 & H2).
  destruct (scan_cell_times i s k) as (H3 & H4).
  rewrite H1, H2, H3, H4. split; reflexivity.
Qed.

Lemma update_scan_time_stats (t : Z) (m s' : State) :
  update_scan_time t m = Some s' ->
  max_scan_time_us (stats s') = Z.max (max_scan_time_us (stats m)) t /\
  avg_scan_time_us (stats s')
  = u32 (u32 (avg_scan_time_us (stats m) * u32 (total_scans (stats m) - 1)) + t)
    / total_scans (stats m).
Proof.
  unfold update_scan_time. intros H.
  destruct (Z.ltb_spec (max_scan_time_us (stats m)) t) as [Hlt|Hge];
    cbn [total_scans set_max_scan_time_us avg_scan_time_us] in H;
    destruct (total_scans (stats m) =? 0); try discriminate H;
    injection H as <-; cbn; split; try reflexivity; lia.
Qed.

Lemma set_current_row_stats (v : Z) (m : State) :
  stats (set_current_row v m) = stats m.
Proof. reflexivity. Qed.

Lemma scan_timer_callback_times (i : ScanInput) (s s' : State) :
  scan_timer_callback i s = Some s' ->
  max_scan_time_us (stats s') = Z.max (max_scan_time_us (stats s)) (scan_time i) /\
  avg_scan_time_us (stats s')
  = u32 (u32 (avg_scan_time_us (stats s)
              * u32 (u32 (total_scans (stats s) + 1) - 1)) + scan_time i)
    / u32 (total_scans (stats s) + 1).
Proof.
  rewrite scan_timer_callback_unfold. intros H.
  apply update_scan_time_stats in H. rewrite set_current_row_stats in H.
  destruct (scan_columns_times i (incr_total_scans s)) as (H1 & H2).
  assert (H3 : total_scans (stats (scan_columns i (incr_total_scans s)))
               = u32 (total_scans (stats s) + 1)).
  { unfold scan_columns. rewrite fold_scan_cell_total_scans. reflexivity. }
  rewrite H1, H2, H3 in H. exact H.
Qed.

(** X12. [max_scan_time_us] is a running maximum: after a step it is the
    larger of its old value and the duration of the step, so over a run it
    never decreases and ends at least as large as the duration of every
    step of the run. *)
Theorem max_scan_time_is_running_max (inputs : list ScanInput) (s s' : State) :
  run_scans inputs s = Some s' ->
  max_scan_time_us (stats s) <= max_scan_time_us (stats s') /\
  Forall (fun i => scan_time i <= max_scan_time_us (stats s')) inputs /\
  (max_scan_time_us (stats s') = max_scan_time_us (stats s) \/
   Exists (fun i => max_scan_time_us (stats s') = scan_time i) inputs).
Proof.
  revert s; induction inputs as [|i rest IH]; intros s Hrun.
  - rewrite run_scans_nil in Hrun. injection Hrun as <-.
    split; [lia|]. split; [constructor | left; reflexivity].
  - apply run_scans_step in Hrun. destruct Hrun as (s1 & H1 & H2).
    destruct (scan_timer_callback_times i s s1 H1) as (Hmax & _).
    destruct (IH s1 H2) as (Ha & Hb & Hc).
    split; [lia|]. split; [constructor; [lia | exact Hb]|].
    destruct Hc as [Hc|Hc].
    + destruct (Z.max_spec (max_scan_time_us (stats s)) (scan_time i))
        as [[_ Hm]|[_ Hm]].
      * right. apply Exists_cons_hd. lia.
      * left. lia.
    + right. apply Exists_cons_tl. exact Hc.
Qed.

Lemma max_scan_time_is_running_max_witness :
  run_scans press00_inputs idle_board = Some press00_result /\
  max_scan_time_us (stats press00_result) = 12.
Proof.
  assert (Hrun : run_scans press00_inputs idle_board = Some press00_result)
    by (vm_compute; reflexivity).
  destruct (max_scan_time_is_running_max _ _ _ Hrun) as (_ & _ & [H|H]).
  - split; [exact Hrun|]. reflexivity.
  - split; [exact Hrun|]. reflexivity.
Defined.

(** X13. The running average of the scan time. The first step after a
    reset sets it to the duration of that step. While the product of the
    average and the scan count stays below 2^32 no arithmetic wraps, the new
    average is [(avg * n + t) / (n + 1)] for the old count n and the
    duration t, and it lies between the smaller and the larger of the old
    average and the duration. *)
Theorem avg_scan_time_is_weighted_mean (i : ScanInput) (s s' : State) :
  scan_timer_callback i s = Some s' ->
  0 <= total_scans (stats s) ->
  0 <= avg_scan_time_us (stats s) ->
  (avg_scan_time_us (stats s) + 1) * (total_scans (stats s) + 1)
    + scan_time i <= UINT32_MAX ->
  avg_scan_time_us (stats s')
  = (avg_scan_time_us (stats s) * total_scans (stats s) + scan_time i)
    / (total_scans (stats s) + 1) /\
  Z.min (avg_scan_time_us (stats s)) (scan_time i) <= avg_scan_time_us (stats s')
  <= Z.max (avg_scan_time_us (stats s)) (scan_time i) /\
  (total_scans (stats s) = 0 -> avg_scan_time_us (stats s') = scan_time i).
Proof.
  intros H Hn Havg Hbound.
  destruct (scan_timer_callback_times i s s' H) as (_ & Ha).
  assert (Ht : 0 <= scan_time i < 4294967296).
  { unfold scan_time, u32. apply Z.mod_pos_bound. lia. }
  set (a := avg_scan_time_us (stats s)) in *.
  set (n := total_scans (stats s)) in *.
  set (t := scan_time i) in *.
  unfold UINT32_MAX in Hbound.
  assert (Hn1 : u32 (n + 1) = n + 1) by (unfold u32; apply Z.mod_small; nia).
  assert (Hn2 : u32 (n + 1 - 1) = n)
    by (replace (n + 1 - 1) with n by lia; unfold u32; apply Z.mod_small; nia).
  assert (Han : u32 (a * n) = a * n) by (unfold u32; apply Z.mod_small; nia).
  assert (Hsum : u32 (a * n + t) = a * n + t)
    by (unfold u32; apply Z.mod_small; nia).
  rewrite Hn1, Hn2, Han, Hsum in Ha.
  split; [exact Ha|]. split.
  - rewrite Ha. split.
    + apply Z.div_le_lower_bound; [lia|].
      destruct (Z.min_spec a t) as [[Hle ->]|[Hle ->]]; nia.
    + apply Z.div_le_upper_bound; [lia|].
      destruct (Z.max_spec a t) as [[Hle ->]|[Hle ->]]; nia.
  - intros H0. rewrite Ha, H0, Z.mul_0_r, Z.add_0_l, Z.add_0_l.
    apply Z.div_1_r.
Qed.

Lemma avg_scan_time_is_weighted_mean_witness :
  scan_timer_callback first_scan_input idle_board = Some first_scan_result /\
  total_scans (stats idle_board) = 0 /\
  avg_scan_time_us (stats first_scan_result) = scan_time first_scan_input.
Proof.
  assert (Hrun : scan_timer_callback first_scan_input idle_board
                 = Some first_scan_result) by (vm_compute; reflexivity).
  assert (H1 : 0 <= total_scans (stats idle_board)) by (vm_compute; discriminate).
  assert (H2 : 0 <= avg_scan_time_us (stats idle_board))
    by (vm_compute; discriminate).
  assert (H3 : (avg_scan_time_us (stats idle_board) + 1)
               * (total_scans (stats idle_board) + 1)
               + scan_time first_scan_input <= UINT32_MAX)
    by (vm_compute; discriminate).
  destruct (avg_scan_time_is_weighted_mean _ _ _ Hrun H1 H2 H3) as (_ & _ & H0).
  split; [exact Hrun|]. split; [reflexivity|]. apply H0. reflexivity.
Defined.

(** ** The detector switches *)

Lemma scan_cell_errors_same_disabled (i : ScanInput) (s : State) (col : nat) :
  stuck_detection_enabled s = false -> errors_same s (scan_cell i s col).
Proof.
  intros Hoff. rewrite scan_cell_live_eq. unfold scan_cell_live.
  cbn [stuck_detection_enabled set_key_state]. rewrite Hoff. cbn [andb].
  split_ifs; constructor; reflexivity.
Qed.

Lemma fold_scan_cell_errors_same_disabled (i : ScanInput) (cols : list nat)
    (s : State) :
  stuck_detection_enabled s = false ->
  errors_same s (fold_left (scan_cell i) cols s).
Proof.
  revert s; induction cols as [|k cols IH]; intros s Hoff; cbn [fold_left].
  - apply errors_same_refl.
  - apply (errors_same_trans s (scan_cell i s k)).
    + apply scan_cell_errors_same_disabled, Hoff.
    + apply IH. rewrite (fr_stuck_enabled _ _ (scan_cell_frame i s k)).
      exact Hoff.
Qed.

Lemma scan_timer_callback_errors_same_disabled (i : ScanInput) (s s' : State) :
  scan_timer_callback i s = Some s' ->
  stuck_detection_enabled s = false -> errors_same s s'.
Proof.
  intros H Hoff. apply scan_timer_callback_cols in H. destruct H as (Hse & _).
  pose proof (incr_total_scans_same_engine s) as H0.
  apply (errors_same_trans s (incr_total_scans s));
    [apply same_engine_errors_same, H0|].
  apply (errors_same_trans _ (scan_columns i (incr_total_scans s)));
    [|apply same_engine_errors_same, Hse].
  unfold scan_columns. apply fold_scan_cell_errors_same_disabled.
  rewrite (se_stuck_detection_enabled _ _ H0). exact Hoff.
Qed.

(** X14. With stuck detection switched off
    ([matrix_robust_set_stuck_detection(false, ...)]) no run of scan steps
    produces an error report, on any board and for any inputs: the error
    queue, its write index, the error callback calls and [total_errors]
    stay as they were, and the switch stays off. *)
Theorem stuck_detection_off_is_silent (inputs : list ScanInput) (s s' : State)
    (timeout_ms : Z) :
  run_scans inputs (matrix_robust_set_stuck_detection false timeout_ms s)
  = Some s' ->
  error_queue s' = error_queue s /\
  error_queue_head s' = error_queue_head s /\
  error_callback_calls s' = error_callback_calls s /\
  total_errors (stats s') = total_errors (stats s) /\
  stuck_detection_enabled s' = false.
Proof.
  intros Hrun.
  assert (H0 : errors_same s (matrix_robust_set_stuck_detection false timeout_ms s))
    by (constructor; reflexivity).
  assert (Hoff : stuck_detection_enabled
                   (matrix_robust_set_stuck_detection false timeout_ms s) = false)
    by reflexivity.
  revert Hrun H0 Hoff.
  generalize (matrix_robust_set_stuck_detection false timeout_ms s) as m.
  intros m Hrun H0 Hoff.
  assert (He : errors_same m s' /\ stuck_detection_enabled s' = false).
  { clear H0. revert m Hrun Hoff.
    induction inputs as [|i rest IH]; intros m Hrun Hoff.
    - rewrite run_scans_nil in Hrun. injection Hrun as <-.
      split; [apply errors_same_refl | exact Hoff].
    - apply run_scans_step in Hrun. destruct Hrun as (s1 & H1 & H2).
      assert (Hoff1 : stuck_detection_enabled s1 = false).
      { rewrite (fr_stuck_enabled _ _ (scan_timer_callback_frame i m s1 H1)).
        exact Hoff. }
      destruct (IH s1 H2 Hoff1) as (He & Hoff').
      split; [|exact Hoff'].
      exact (errors_same_trans _ _ _
               (scan_timer_callback_errors_same_disabled i m s1 H1 Hoff) He). }
  destruct He as (He & Hoff').
  destruct (errors_same_trans _ _ _ H0 He). auto.
Qed.

Lemma stuck_detection_off_is_silent_witness :
  run_scans [tick 6000 [false; true; true; true]]
    (matrix_robust_set_stuck_detection false 5000 pressed00_board)
  = Some (result_or initial_state
            (run_scans [tick 6000 [false; true; true; true]]
               (matrix_robust_set_stuck_detection false 5000 pressed00_board))) /\
  total_errors
    (stats (result_or initial_state
              (run_scans [tick 6000 [false; true; true; true]]
                 (matrix_robust_set_stuck_detection false 5000 pressed00_board))))
  = total_errors (stats pressed00_board).
Proof.
  assert (Hrun : run_scans [tick 6000 [false; true; true; true]]
                   (matrix_robust_set_stuck_detection false 5000 pressed00_board)
                 = Some (result_or initial_state
                     (run_scans [tick 6000 [false; true; true; true]]
                        (matrix_robust_set_stuck_detection false 5000
                           pressed00_board))))
    by (vm_compute; reflexivity).
  split; [exact Hrun|].
  destruct (stuck_detection_off_is_silent _ _ _ _ Hrun) as (_ & _ & _ & H & _).
  exact H.
Defined.

Lemma enqueue_error_set_ghost (b : bool) (e : ErrorEvent) (s : State) :
  snd (enqueue_error e (set_ghost_detection_enabled b s))
  = set_ghost_detection_enabled b (snd (enqueue_error e s)).
Proof.
  unfold enqueue_error, call_error_callback, incr_total_errors.
  cbn [error_queue_head error_queue_tail set_ghost_detection_enabled].
  destruct (_ =? _); [reflexivity|].
  cbn [error_callback set_stats set_error_queue_head set_error_queue
       set_ghost_detection_enabled].
  destruct (error_callback s); reflexivity.
Qed.

Lemma scan_cell_set_ghost (b : bool) (i : ScanInput) (s : State) (col : nat) :
  scan_cell i (set_ghost_detection_enabled b s) col
  = set_ghost_detection_enabled b (scan_cell i s col).
Proof.
  rewrite !scan_cell_live_eq. unfold scan_cell_live.
  cbn [current_row key_state key_timestamp set_ghost_detection_enabled].
  destruct (negb (gpio_get i col)).
  - destruct (_ =? KEY_IDLE); [reflexivity|].
    destruct (_ =? KEY_PRESSED); [|reflexivity].
    change (stuck_detection_enabled
              (set_key_state
                 (set2 (key_state s) (Z.to_nat (current_row s)) col KEY_HELD)
                 (set_ghost_detection_enabled b s)))
      with (stuck_detection_enabled s).
    change (stuck_detection_enabled
              (set_key_state
                 (set2 (key_state s) (Z.to_nat (current_row s)) col KEY_HELD) s))
      with (stuck_detection_enabled s).
    change (detect_stuck_key (Z.to_nat (current_row s)) col (now_ms i)
              (set_key_state
                 (set2 (key_state s) (Z.to_nat (current_row s)) col KEY_HELD)
                 (set_ghost_detection_enabled b s)))
      with (detect_stuck_key (Z.to_nat (current_row s)) col (now_ms i)
              (set_key_state
                 (set2 (key_state s) (Z.to_nat (current_row s)) col KEY_HELD) s)).
    destruct (_ && _)%bool; [|reflexivity].
    change (set_key_state
              (set2 (key_state s) (Z.to_nat (current_row s)) col KEY_HELD)
              (set_ghost_detection_enabled b s))
      with (set_ghost_detection_enabled b
              (set_key_state
                 (set2 (key_state s) (Z.to_nat (current_row s)) col KEY_HELD) s)).
    apply enqueue_error_set_ghost.
  - destruct (_ || _)%bool; reflexivity.
Qed.

Lemma fold_scan_cell_set_ghost (b : bool) (i : ScanInput) (cols : list nat)
    (s : State) :
  fold_left (scan_cell i) cols (set_ghost_detection_enabled b s)
  = set_ghost_detection_enabled b (fold_left (scan_cell i) cols s).
Proof.
  revert s; induction cols as [|k cols IH]; intros s; cbn [fold_left].
  - reflexivity.
  - rewrite scan_cell_set_ghost. apply IH.
Qed.

Lemma update_scan_time_set_ghost (b : bool) (t v : Z) (m : State) :
  update_scan_time t
    (set_current_row v (set_ghost_detection_enabled b m))
  = option_map (set_ghost_detection_enabled b)
      (update_scan_time t (set_current_row v m)).
Proof.
  unfold update_scan_time.
  cbn [stats set_current_row set_ghost_detection_enabled].
  destruct (_ =? 0); reflexivity.
Qed.

Lemma incr_total_scans_set_ghost (b : bool) (s : State) :
  incr_total_scans (set_ghost_detection_enabled b s)
  = set_ghost_detection_enabled b (incr_total_scans s).
Proof. reflexivity. Qed.

Lemma current_row_set_ghost (b : bool) (m : State) :
  current_row (set_ghost_detection_enabled b m) = current_row m.
Proof. reflexivity. Qed.

Lemma scan_columns_set_ghost (b : bool) (i : ScanInput) (s : State) :
  scan_columns i (set_ghost_detection_enabled b s)
  = set_ghost_detection_enabled b (scan_columns i s).
Proof. unfold scan_columns. apply fold_scan_cell_set_ghost. Qed.

(** X15. The ghost-detection switch has no influence on scanning: a scan
    step from a state with the switch set either way gives the result of the
    step from the original state, with the switch set that way. *)
Theorem ghost_switch_is_inert (b : bool) (i : ScanInput) (s : State) :
  scan_timer_callback i (matrix_robust_set_ghost_detection b s)
  = option_map (matrix_robust_set_ghost_detection b) (scan_timer_callback i s).
Proof.
  unfold matrix_robust_set_ghost_detection.
  rewrite !scan_timer_callback_unfold.
  rewrite incr_total_scans_set_ghost, scan_columns_set_ghost.
  generalize (scan_columns i (incr_total_scans s)) as m. intros m.
  rewrite current_row_set_ghost.
  apply update_scan_time_set_ghost.
Qed.

(** ** [matrix_robust_any_key_pressed] *)

(** X16. [matrix_robust_any_key_pressed] returns [true] exactly when some
    cell of the 4x4 board is not Idle. *)
Theorem any_key_pressed_spec (s : State) :
  matrix_robust_any_key_pressed s = true <->
  exists r c, (r < MATRIX_ROWS)%nat /\ (c < MATRIX_COLS)%nat /\
              get2 (key_state s) r c <> KEY_IDLE.
Proof.
  unfold matrix_robust_any_key_pressed. split.
  - intros H. apply existsb_exists in H. destruct H as (r & Hr & H).
    apply existsb_exists in H. destruct H as (c & Hc & H).
    apply in_seq in Hr, Hc. exists r, c.
    split; [lia|]. split; [lia|].
    apply negb_true_iff, Z.eqb_neq in H. exact H.
  - intros (r & c & Hr & Hc & H). apply existsb_exists. exists r.
    split; [apply in_seq; lia|]. apply existsb_exists. exists c.
    split; [apply in_seq; lia|]. apply negb_true_iff, Z.eqb_neq. exact H.
Qed.

Lemma any_key_pressed_all_idle (s : State) :
  (forall r c, (r < MATRIX_ROWS)%nat -> (c < MATRIX_COLS)%nat ->
     get2 (key_state s) r c = KEY_IDLE) ->
  matrix_robust_any_key_pressed s = false.
Proof.
  intros Hidle. destruct (matrix_robust_any_key_pressed s) eqn:E; [|reflexivity].
  unfold matrix_robust_any_key_pressed in E.
  apply existsb_exists in E. destruct E as (r & Hr & E).
  apply existsb_exists in E. destruct E as (c & Hc & E).
  apply in_seq in Hr, Hc. apply negb_true_iff, Z.eqb_neq in E.
  elim E. apply Hidle; lia.
Qed.

Lemma cell_step_idle (a b : Z) : cell_step a b -> a = KEY_IDLE -> b = KEY_IDLE.
Proof. intros [->|[-> _]] H; [exact H | discriminate H]. Qed.

(** X17. After [matrix_robust_init], whatever is read from the columns
    during any run of scan steps, [matrix_robust_any_key_pressed] returns
    [false]. *)
Theorem any_key_pressed_stays_false (row_pins col_pins : list Z)
    (scan_interval_us : Z) (s0 s s' : State) (inputs : list ScanInput) :
  matrix_robust_init row_pins col_pins scan_interval_us s0 = Some s ->
  run_scans inputs s = Some s' ->
  matrix_robust_any_key_pressed s = false /\
  matrix_robust_any_key_pressed s' = false.
Proof.
  intros Hinit Hrun.
  assert (Hidle : forall r c, (r < MATRIX_ROWS)%nat -> (c < MATRIX_COLS)%nat ->
                    get2 (key_state s) r c = KEY_IDLE).
  { unfold matrix_robust_init in Hinit.
    destruct (scan_interval_us =? 0); [discriminate|]. injection Hinit as <-.
    intros r c Hr Hc. cbn [key_state set_scan_interval set_pressed_keys
      set_key_timestamp set_key_state]. apply get2_fill2; assumption. }
  split.
  - apply any_key_pressed_all_idle. exact Hidle.
  - apply any_key_pressed_all_idle. intros r c Hr Hc.
    apply (cell_step_idle _ _ (run_scans_key_state inputs s s' r c Hrun)).
    apply Hidle; assumption.
Qed.

Lemma any_key_pressed_stays_false_witness :
  matrix_robust_init [2; 3; 4; 5] [6; 7; 8; 9] 1000 initial_state
  = Some idle_board /\
  run_scans press00_inputs idle_board = Some press00_result /\
  matrix_robust_any_key_pressed press00_result = false.
Proof.
  assert (Hrun : run_scans press00_inputs idle_board = Some press00_result)
    by (vm_compute; reflexivity).
  destruct (any_key_pressed_stays_false _ _ _ _ _ _ _ idle_board_is_init Hrun)
    as (_ & H).
  split; [exact idle_board_is_init|]. split; [exact Hrun | exact H].
Defined.

(** ** [detect_ghost_key] *)

Lemma keys_in_row_two (s : State) (row : nat) :
  2 <= keys_in_row s row ->
  exists c1 c2, (c1 < c2 < MATRIX_COLS)%nat /\
                get2 (pressed_keys s) row c1 <> 0 /\
                get2 (pressed_keys s) row c2 <> 0.
Proof.
  unfold keys_in_row. change (seq 0 MATRIX_COLS) with [0; 1; 2; 3]%nat.
  cbn [fold_left]. unfold MATRIX_COLS.
  destruct (Z.eqb_spec (get2 (pressed_keys s) row 0) 0) as [H0|H0];
    destruct (Z.eqb_spec (get2 (pressed_keys s) row 1) 0) as [H1|H1];
    destruct (Z.eqb_spec (get2 (pressed_keys s) row 2) 0) as [H2|H2];
    destruct (Z.eqb_spec (get2 (pressed_keys s) row 3) 0) as [H3|H3];
    intros H; try (exfalso; vm_compute in H; apply H; reflexivity);
    first [ exists 0%nat, 1%nat; split; [lia|split; assumption]
          | exists 0%nat, 2%nat; split; [lia|split; assumption]
          | exists 0%nat, 3%nat; split; [lia|split; assumption]
          | exists 1%nat, 2%nat; split; [lia|split; assumption]
          | exists 1%nat, 3%nat; split; [lia|split; assumption]
          | exists 2%nat, 3%nat; split; [lia|split; assumption] ].
Qed.

Lemma keys_in_col_two (s : State) (col : nat) :
  2 <= keys_in_col s col ->
  exists r1 r2, (r1 < r2 < MATRIX_ROWS)%nat /\
                get2 (pressed_keys s) r1 col <> 0 /\
                get2 (pressed_keys s) r2 col <> 0.
Proof.
  unfold keys_in_col. change (seq 0 MATRIX_ROWS) with [0; 1; 2; 3]%nat.
  cbn [fold_left]. unfold MATRIX_ROWS.
  destruct (Z.eqb_spec (get2 (pressed_keys s) 0 col) 0) as [H0|H0];
    destruct (Z.eqb_spec (get2 (pressed_keys s) 1 col) 0) as [H1|H1];
    destruct (Z.eqb_spec (get2 (pressed_keys s) 2 col) 0) as [H2|H2];
    destruct (Z.eqb_spec (get2 (pressed_keys s) 3 col) 0) as [H3|H3];
    intros H; try (exfalso; vm_compute in H; apply H; reflexivity);
    first [ exists 0%nat, 1%nat; split; [lia|split; assumption]
          | exists 0%nat, 2%nat; split; [lia|split; assumption]
          | exists 0%nat, 3%nat; split; [lia|split; assumption]
          | exists 1%nat, 2%nat; split; [lia|split; assumption]
          | exists 1%nat, 3%nat; split; [lia|split; assumption]
          | exists 2%nat, 3%nat; split; [lia|split; assumption] ].
Qed.

(** X18. [detect_ghost_key] answers [true] only when at least three cells
    of the ghost buffer are set: two in different columns of the row, and
    one more in the column, in another row. *)
Theorem detect_ghost_key_needs_three (s : State) (row col : nat) :
  detect_ghost_key row col s = true ->
  exists c1 c2 r,
    (c1 < MATRIX_COLS)%nat /\ (c2 < MATRIX_COLS)%nat /\ (r < MATRIX_ROWS)%nat /\
    c1 <> c2 /\ r <> row /\
    get2 (pressed_keys s) row c1 <> 0 /\
    get2 (pressed_keys s) row c2 <> 0 /\
    get2 (pressed_keys s) r col <> 0.
Proof.
  unfold detect_ghost_key. intros H. apply andb_prop in H as [Hr Hc].
  apply Z.leb_le in Hr, Hc.
  destruct (keys_in_row_two s row Hr) as (c1 & c2 & Hlt & Hc1 & Hc2).
  destruct (keys_in_col_two s col Hc) as (r1 & r2 & Hlt' & Hr1 & Hr2).
  destruct (Nat.eq_dec r1 row) as [E|E].
  - exists c1, c2, r2. repeat split; try lia; assumption.
  - exists c1, c2, r1. repeat split; try lia; assumption.
Qed.

Lemma detect_ghost_key_needs_three_witness :
  detect_ghost_key 2 2 ghost_board = true /\
  exists c1 c2 r,
    (c1 < MATRIX_COLS)%nat /\ (c2 < MATRIX_COLS)%nat /\ (r < MATRIX_ROWS)%nat /\
    c1 <> c2 /\ r <> 2%nat /\
    get2 (pressed_keys ghost_board) 2 c1 <> 0 /\
    get2 (pressed_keys ghost_board) 2 c2 <> 0 /\
    get2 (pressed_keys ghost_board) r 2 <> 0.
Proof.
  assert (H : detect_ghost_key 2 2 ghost_board = true) by reflexivity.
  split; [exact H|]. exact (detect_ghost_key_needs_three ghost_board 2 2 H).
Defined.

(** ** A stuck-key report that is made *)

Lemma pending_errors_ext (s s' : State) :
  error_queue s' = error_queue s -> error_queue_head s' = error_queue_head s ->
  error_queue_tail s' = error_queue_tail s ->
  pending_errors s' = pending_errors s /\
  (error_queue_wf s -> error_queue_wf s').
Proof.
  unfold pending_errors, error_queue_wf. intros -> -> ->. auto.
Qed.

Lemma errors_same_pending (s s' : State) :
  errors_same s s' -> error_queue_tail s' = error_queue_tail s ->
  pending_errors s' = pending_errors s /\
  (error_queue_wf s -> error_queue_wf s').
Proof.
  intros [H1 H2 _ _] H3. apply pending_errors_ext; assumption.
Qed.

(** The loop body adds at most one report to the error queue. *)
Lemma scan_cell_pending_errors (i : ScanInput) (m : State) (k : nat) :
  error_queue_wf m -> (length (pending_errors m) < 7)%nat ->
  error_queue_wf (scan_cell i m k) /\
  exists l, pending_errors (scan_cell i m k) = pending_errors m ++ l /\
            (length l <= 1)%nat.
Proof.
  intros Hwf Hroom.
  pose proof (fr_error_queue_tail _ _ (scan_cell_frame i m k)) as Htail.
  destruct (Z.eq_dec (get2 (key_state m) (Z.to_nat (current_row m)) k)
                     KEY_PRESSED) as [Hp|Hnp].
  - rewrite scan_cell_live_eq in *. unfold scan_cell_live in *. rewrite Hp in *.
    change (KEY_PRESSED =? KEY_IDLE) with false in *.
    change (KEY_PRESSED =? KEY_PRESSED) with true in *.
    cbn [orb] in *.
    destruct (negb (gpio_get i k)).
    + destruct (_ && _)%bool.
      * match goal with
        | |- context [enqueue_error ?e ?m1] =>
            destruct (enqueue_error_room_pending e m1) as (_ & Hwf' & Hp' & _);
              [exact Hwf | exact Hroom |]
        end.
        split; [exact Hwf'|]. eexists. split; [exact Hp'|]. cbn. lia.
      * split; [exact Hwf|]. exists []. rewrite app_nil_r. split; [reflexivity|].
        cbn. lia.
    + split; [exact Hwf|]. exists []. rewrite app_nil_r. split; [reflexivity|].
      cbn. lia.
  - destruct (errors_same_pending _ _ (scan_cell_errors_same i m k Hnp) Htail)
      as (Hpe & Hwf').
    split; [exact (Hwf' Hwf)|]. exists []. rewrite app_nil_r.
    split; [exact Hpe | cbn; lia].
Qed.

Lemma fold_scan_cell_pending_errors (i : ScanInput) (cols : list nat) (m : State) :
  error_queue_wf m ->
  (length (pending_errors m) + length cols <= 7)%nat ->
  error_queue_wf (fold_left (scan_cell i) cols m) /\
  exists l, pending_errors (fold_left (scan_cell i) cols m)
            = pending_errors m ++ l /\
            (length l <= length cols)%nat.
Proof.
  revert m; induction cols as [|k cols IH]; intros m Hwf Hlen;
    cbn [fold_left length] in *.
  - split; [exact Hwf|]. exists []. rewrite app_nil_r. auto.
  - destruct (scan_cell_pending_errors i m k Hwf) as (Hwf1 & l1 & Hp1 & Hl1);
      [lia|].
    destruct (IH (scan_cell i m k) Hwf1) as (Hwf2 & l2 & Hp2 & Hl2).
    + rewrite Hp1, length_app. lia.
    + split; [exact Hwf2|]. exists (l1 ++ l2).
      rewrite Hp2, Hp1, <- app_assoc, length_app. split; [reflexivity | lia].
Qed.

(** The loop body at a Pressed cell that reads closed past the timeout. *)
Lemma scan_cell_reports_stuck (i : ScanInput) (m : State) (k : nat) :
  error_queue_wf m -> (length (pending_errors m) < 7)%nat ->
  get2 (key_state m) (Z.to_nat (current_row m)) k = KEY_PRESSED ->
  gpio_get i k = false ->
  stuck_detection_enabled m = true ->
  stuck_key_timeout m
    < u32 (now_ms i - get2 (key_timestamp m) (Z.to_nat (current_row m)) k) ->
  pending_errors (scan_cell i m k)
  = pending_errors m
    ++ [mkErrorEvent ERROR_STUCK_KEY (current_row m) (Z.of_nat k) (now_ms i)] /\
  total_errors (stats (scan_cell i m k)) = u32 (total_errors (stats m) + 1).
Proof.
  intros Hwf Hroom Hp Hlow Hen Hto.
  rewrite scan_cell_live_eq. unfold scan_cell_live. rewrite Hlow, Hp.
  change (KEY_PRESSED =? KEY_IDLE) with false.
  change (KEY_PRESSED =? KEY_PRESSED) with true.
  cbn [negb stuck_detection_enabled set_key_state current_row].
  unfold detect_stuck_key. cbn [stuck_key_timeout key_timestamp set_key_state].
  rewrite Hen. apply Z.ltb_lt in Hto. rewrite Hto. cbn [andb].
  match goal with
  | |- context [enqueue_error ?e ?m1] =>
      destruct (enqueue_error_room_pending e m1) as (_ & _ & Hp' & Hte & _);
        [exact Hwf | exact Hroom |]
  end.
  split; [exact Hp' | exact Hte].
Qed.

Lemma fold_scan_cell_flags (i : ScanInput) (cols : list nat) (m : State) :
  stuck_detection_enabled (fold_left (scan_cell i) cols m)
  = stuck_detection_enabled m /\
  stuck_key_timeout (fold_left (scan_cell i) cols m) = stuck_key_timeout m.
Proof.
  destruct (fold_scan_cell_frame i cols m). auto.
Qed.

Lemma fold_reports_stuck (i : ScanInput) (pre post : list nat) (c : nat)
    (s : State) :
  board_wf s -> error_queue_wf s ->
  (length (pending_errors s) + length pre + 1 + length post <= 7)%nat ->
  NoDup pre -> ~ In c pre -> (forall k, In k pre -> (k < MATRIX_COLS)%nat) ->
  get2 (key_state s) (Z.to_nat (current_row s)) c = KEY_PRESSED ->
  gpio_get i c = false ->
  stuck_detection_enabled s = true ->
  stuck_key_timeout s
    < u32 (now_ms i - get2 (key_timestamp s) (Z.to_nat (current_row s)) c) ->
  In (mkErrorEvent ERROR_STUCK_KEY (current_row s) (Z.of_nat c) (now_ms i))
     (pending_errors (fold_left (scan_cell i) (pre ++ c :: post) s)).
Proof.
  intros Hb Hq Hlen Hnd Hnin Hpre Hp Hlow Hen Hto.
  rewrite fold_left_app. cbn [fold_left].
  destruct (fold_scan_cell_cells i pre s Hb Hnd Hpre) as (_ & Hcr & Hcells).
  destruct (fold_scan_cell_pending_errors i pre s Hq) as (Hq1 & l1 & Hp1 & Hl1);
    [lia|].
  destruct (fold_scan_cell_flags i pre s) as (Hen1 & Hto1).
  assert (Hnot : existsb (Nat.eqb c) pre = false).
  { destruct (existsb (Nat.eqb c) pre) eqn:Ex; [|reflexivity].
    apply existsb_exists in Ex. destruct Ex as (x & Hx & Hcx).
    apply Nat.eqb_eq in Hcx. subst x. contradiction. }
  destruct (Hcells (Z.to_nat (current_row s)) c) as (Hks & Hkt).
  rewrite Hnot, andb_false_r in Hks, Hkt.
  revert Hcr Hq1 Hp1 Hen1 Hto1 Hks Hkt.
  generalize (fold_left (scan_cell i) pre s) as m1.
  intros m1 Hcr Hq1 Hp1 Hen1 Hto1 Hks Hkt.
  destruct (scan_cell_reports_stuck i m1 c Hq1) as (Hp2 & _).
  - rewrite Hp1, length_app. lia.
  - rewrite Hcr, Hks. exact Hp.
  - exact Hlow.
  - rewrite Hen1. exact Hen.
  - rewrite Hto1, Hcr, Hkt. exact Hto.
  - destruct (scan_cell_pending_errors i m1 c Hq1) as (Hq2 & _);
      [rewrite Hp1, length_app; lia|].
    destruct (fold_scan_cell_pending_errors i post (scan_cell i m1 c) Hq2)
      as (_ & l3 & Hp3 & _).
    + rewrite Hp2, Hp1, !length_app. cbn [length]. lia.
    + rewrite Hp3, Hp2, Hcr. apply in_or_app. left. apply in_or_app. right.
      left. reflexivity.
Qed.

(** X19. The stuck-key detector when it does fire. In a scan step on a
    well-formed board, with stuck detection enabled and at most three
    reports waiting in the error queue, a cell of the scanned row that is
    Pressed, reads closed, and whose timestamp lies more than
    [stuck_key_timeout] ms back, is reported: after the step a StuckKey
    report with the row, the column and the time of the scan waits in the
    error queue, and the cell is Held. *)
Theorem stuck_key_is_reported (i : ScanInput) (s s' : State) (c : nat) :
  board_wf s -> error_queue_wf s ->
  (length (pending_errors s) <= 3)%nat ->
  (c < MATRIX_COLS)%nat ->
  get2 (key_state s) (Z.to_nat (current_row s)) c = KEY_PRESSED ->
  gpio_get i c = false ->
  stuck_detection_enabled s = true ->
  stuck_key_timeout s
    < u32 (now_ms i - get2 (key_timestamp s) (Z.to_nat (current_row s)) c) ->
  scan_timer_callback i s = Some s' ->
  In (mkErrorEvent ERROR_STUCK_KEY (current_row s) (Z.of_nat c) (now_ms i))
     (pending_errors s') /\
  get2 (key_state s') (Z.to_nat (current_row s)) c = KEY_HELD.
Proof.
  intros Hb Hq Hlen Hc Hp Hlow Hen Hto Hrun.
  apply scan_timer_callback_cols in Hrun. destruct Hrun as (Hse & _).
  pose proof (incr_total_scans_same_engine s) as H0.
  assert (Hb0 : board_wf (incr_total_scans s)).
  { apply (board_wf_same_cells s _ (current_row s)); try reflexivity;
      [apply Hb | exact Hb]. }
  assert (Hq0 : error_queue_wf (incr_total_scans s)) by exact Hq.
  split.
  - destruct (pending_errors_ext _ _ (se_error_queue _ _ Hse)
                (se_error_queue_head _ _ Hse) (se_error_queue_tail _ _ Hse))
      as (Hpe & _).
    rewrite Hpe. unfold scan_columns, MATRIX_COLS in *.
    assert (Hsplit : exists pre post,
              seq 0 4 = pre ++ c :: post /\ NoDup pre /\ ~ In c pre /\
              (forall k, In k pre -> (k < 4)%nat) /\
              (length pre + 1 + length post = 4)%nat).
    { assert (Hcases : (c = 0 \/ c = 1 \/ c = 2 \/ c = 3)%nat) by lia.
      destruct Hcases as [Hc0|[Hc0|[Hc0|Hc0]]]; subst c;
        [ exists [], [1; 2; 3]%nat
        | exists [0]%nat, [2; 3]%nat
        | exists [0; 1]%nat, [3]%nat
        | exists [0; 1; 2]%nat, [] ];
        (split; [reflexivity|]);
        (split; [repeat constructor; cbn; intuition discriminate|]);
        (split; [cbn; intuition discriminate|]);
        (split; [cbn; intros k Hk; intuition lia | reflexivity]). }
    destruct Hsplit as (pre & post & -> & Hnd & Hnin & Hpre & Hl).
    apply (fold_reports_stuck i pre post c (incr_total_scans s) Hb0 Hq0);
      try assumption.
    change (pending_errors (incr_total_scans s)) with (pending_errors s). lia.
  - rewrite (se_key_state _ _ Hse).
    destruct (scan_columns_cells i (incr_total_scans s) Hb0) as (_ & Hcells).
    destruct (Hcells (Z.to_nat (current_row s)) c Hc) as (Hks & _).
    rewrite Hks. rewrite incr_total_scans_current_row, Nat.eqb_refl.
    change (key_state (incr_total_scans s)) with (key_state s).
    rewrite Hp, Hlow. reflexivity.
Qed.

Lemma error_queue_wf_pressed00 : error_queue_wf pressed00_board.
Proof. split; [reflexivity|]. split; split; (reflexivity || discriminate). Qed.

Lemma stuck_key_is_reported_witness :
  scan_timer_callback stuck_fire_input pressed00_board = Some stuck_fire_result /\
  In (mkErrorEvent ERROR_STUCK_KEY 0 0 6000) (pending_errors stuck_fire_result) /\
  get2 (key_state stuck_fire_result) 0 0 = KEY_HELD.
Proof.
  assert (Hrun : scan_timer_callback stuck_fire_input pressed00_board
                 = Some stuck_fire_result) by (vm_compute; reflexivity).
  split; [exact Hrun|].
  apply (stuck_key_is_reported stuck_fire_input pressed00_board stuck_fire_result
           0 pressed00_board_wf error_queue_wf_pressed00).
  - change (pending_errors pressed00_board) with (@nil ErrorEvent). cbn. lia.
  - unfold MATRIX_COLS. lia.
  - reflexivity.
  - reflexivity.
  - reflexivity.
  - vm_compute. reflexivity.
  - exact Hrun.
Defined.

(** ** The function-mode layer *)

(** X20. The F key (0xF) toggles the mode: it is consumed in either mode,
    calls no function and leaves the table alone, and pressing it twice
    brings the mode back. *)
Theorem mode_toggle_involution (k : KeymapState) :
  fst (keymap_process_key 0xF k) = true /\
  keymap_get_mode (snd (keymap_process_key 0xF k)) <> keymap_get_mode k /\
  function_table (snd (keymap_process_key 0xF k)) = function_table k /\
  function_calls (snd (keymap_process_key 0xF k)) = function_calls k /\
  snd (keymap_process_key 0xF (snd (keymap_process_key 0xF k))) = k.
Proof.
  destruct k as [m t c]. destruct m; cbn; repeat split; discriminate.
Qed.

(** X21. Keys other than F. In normal mode the key is passed through:
    [keymap_process_key] returns [false] and changes nothing. In function
    mode the key is always consumed; the function mapped to it is called
    with the key when the key is below 15 and its table entry is set, and
    nothing is called otherwise - keys from 15 up never index the table.
    Mode and table are unchanged in both modes. *)
Theorem key_dispatch (key : Z) (k : KeymapState) :
  key <> 0xF ->
  current_mode (snd (keymap_process_key key k)) = current_mode k /\
  function_table (snd (keymap_process_key key k)) = function_table k /\
  (current_mode k = MODE_NORMAL ->
     keymap_process_key key k = (false, k)) /\
  (current_mode k = MODE_FUNCTION ->
     fst (keymap_process_key key k) = true /\
     function_calls (snd (keymap_process_key key k))
     = function_calls k
       ++ (if key <? MAX_FUNCTION_KEYS
           then match nth (Z.to_nat key) (function_table k) None with
                | Some f => [(f, key)]
                | None => []
                end
           else [])).
Proof.
  intros Hkey. apply Z.eqb_neq in Hkey. unfold keymap_process_key.
  rewrite Hkey. destruct k as [m t c]. cbn [current_mode function_table
    function_calls]. destruct m.
  - repeat split; intros; discriminate.
  - destruct (key <? MAX_FUNCTION_KEYS);
      [destruct (nth (Z.to_nat key) t None)|];
      cbn; rewrite ?app_nil_r; repeat split; intros; discriminate.
Qed.

Lemma key_dispatch_witness :
  3 <> 0xF /\
  function_calls
    (snd (keymap_process_key 3
            (snd (keymap_process_key 0xF
                    (keymap_init keymap_initial)))))
  = [(function_key_3, 3)].
Proof.
  assert (H3 : 3 <> 0xF) by discriminate.
  split; [exact H3|].
  destruct (key_dispatch 3
              (snd (keymap_process_key 0xF
                      (keymap_init keymap_initial))) H3)
    as (_ & _ & _ & Hf).
  destruct (Hf eq_refl) as (_ & Hcalls). rewrite Hcalls. reflexivity.
Defined.

Lemma keymap_set_function_wf (key : Z) (func : option KeyActionFunc)
    (k : KeymapState) :
  keymap_wf k -> keymap_wf (keymap_set_function key func k).
Proof.
  unfold keymap_wf, keymap_set_function. intros H.
  destruct (key <? MAX_FUNCTION_KEYS); cbn [function_table];
    rewrite ?upd_length; exact H.
Qed.

(** X22. Mapping and clearing. On a table of 15 entries
    [keymap_set_function] for a key below 15 makes exactly that key's entry
    the given function and keeps every other entry, so the key pressed in
    function mode then calls that function; [keymap_clear_function] empties
    the entry again, and the key is then consumed without a call; for a key
    from 15 up (F included) both leave the state as it is. *)
Theorem set_and_clear_function (key : Z) (f : KeyActionFunc) (k : KeymapState) :
  keymap_wf k -> 0 <= key ->
  (MAX_FUNCTION_KEYS <= key ->
     keymap_set_function key (Some f) k = k /\ keymap_clear_function key k = k) /\
  (key < MAX_FUNCTION_KEYS ->
     (forall key', 0 <= key' ->
        nth (Z.to_nat key') (function_table (keymap_set_function key (Some f) k))
            None
        = if key' =? key then Some f
          else nth (Z.to_nat key') (function_table k) None) /\
     (current_mode k = MODE_FUNCTION ->
        function_calls
          (snd (keymap_process_key key (keymap_set_function key (Some f) k)))
        = function_calls k ++ [(f, key)] /\
        keymap_process_key key
          (keymap_clear_function key (keymap_set_function key (Some f) k))
        = (true, keymap_clear_function key (keymap_set_function key (Some f) k)))).
Proof.
  intros Hwf Hkey. unfold keymap_wf, MAX_FUNCTION_KEYS in *. split.
  - intros Hbig. unfold keymap_set_function, keymap_clear_function,
      MAX_FUNCTION_KEYS.
    destruct (Z.ltb_spec key 15); [lia|]. split; reflexivity.
  - intros Hsmall.
    assert (Hlt : (key <? 15) = true) by (apply Z.ltb_lt; exact Hsmall).
    assert (Hnf : (key =? 15) = false) by (apply Z.eqb_neq; lia).
    assert (Hin : (Z.to_nat key <? length (function_table k))%nat = true).
    { apply Nat.ltb_lt. rewrite Hwf. lia. }
    split.
    + intros key' Hkey'. unfold keymap_set_function, MAX_FUNCTION_KEYS.
      rewrite Hlt. cbn [function_table]. rewrite nth_upd, Hin, andb_true_r.
      destruct (Z.eqb_spec key' key) as [->|Hne].
      * rewrite Nat.eqb_refl. reflexivity.
      * destruct (Nat.eqb_spec (Z.to_nat key) (Z.to_nat key')) as [E|_];
          [|reflexivity].
        apply Z2Nat.inj in E; [|lia|lia]. congruence.
    + intros Hmode. unfold keymap_process_key, keymap_set_function,
        keymap_clear_function, MAX_FUNCTION_KEYS.
      rewrite Hlt. cbn [current_mode function_table function_calls].
      rewrite Hnf, Hmode, ?Hlt.
      rewrite !nth_upd, ?upd_length, Hin, Nat.eqb_refl. cbn [andb snd].
      split; reflexivity.
Qed.

Lemma set_and_clear_function_witness :
  keymap_wf (keymap_init keymap_initial) /\
  nth 7 (function_table
           (keymap_set_function 7 (Some (user_function 1))
              (keymap_init keymap_initial))) None
  = Some (user_function 1) /\
  nth 3 (function_table
           (keymap_set_function 7 (Some (user_function 1))
              (keymap_init keymap_initial))) None
  = Some function_key_3.
Proof.
  assert (Hwf : keymap_wf (keymap_init keymap_initial))
    by reflexivity.
  destruct (set_and_clear_function 7 (user_function 1) _ Hwf) as (_ & H);
    [discriminate|].
  destruct H as (Hnth & _); [reflexivity|].
  split; [exact Hwf|]. split.
  - exact (Hnth 7 ltac:(discriminate)).
  - exact (Hnth 3 ltac:(discriminate)).
Defined.
(** ** Callbacks and queues at scan time (C7) *)







(** * The polled driver *)

Module MatrixFacts.
Import Matrix.

Lemma scan_col_unfold (g : bool) (levels : list bool) (s : State)
    (ev : option KeyEvent) (c : nat) :
  scan_col g levels (s, ev) c =
  settle g (bump_counter levels s c) ev c
    (debounced (get2 (debounce_counter (bump_counter levels s c))
                  (Z.to_nat (current_row s)) c))
    (get2 (last_key_state s) (Z.to_nat (current_row s)) c).
Proof.
  unfold scan_col, bump_counter, settle, debounced.
  destruct (negb (nth c levels true));
    [destruct (_ <? DEBOUNCE_PRESS) | destruct (0 <? _)]; reflexivity.
Qed.

Lemma bump_counter_spec (levels : list bool) (s : State) (c : nat) :
  scan_wf s -> (c < MATRIX_COLS)%nat ->
  grid_wf (debounce_counter (bump_counter levels s c)) /\
  last_key_state (bump_counter levels s c) = last_key_state s /\
  current_key_state (bump_counter levels s c) = current_key_state s /\
  keymap (bump_counter levels s c) = keymap s /\
  current_row (bump_counter levels s c) = current_row s /\
  forall r k,
    get2 (debounce_counter (bump_counter levels s c)) r k =
    if (r =? Z.to_nat (current_row s))%nat && (k =? c)%nat
    then next_counter (negb (nth c levels true)) (get2 (debounce_counter s) r k)
    else get2 (debounce_counter s) r k.
Proof.
  intros (Hdc & _ & _ & Hrow) Hc.
  assert (Hr : (Z.to_nat (current_row s) < MATRIX_ROWS)%nat) by lia.
  pose proof (grid_wf_inb _ _ _ Hdc Hr Hc) as Hin.
  unfold bump_counter, next_counter.
  assert (Hset : forall v r k,
            get2 (set2 (debounce_counter s) (Z.to_nat (current_row s)) c v) r k
            = if (r =? Z.to_nat (current_row s))%nat && (k =? c)%nat
              then v else get2 (debounce_counter s) r k).
  { intros v r k. rewrite get2_set2, Hin, andb_true_r.
    rewrite (Nat.eqb_sym (Z.to_nat (current_row s)) r), (Nat.eqb_sym c k).
    reflexivity. }
  assert (Hfin : forall m b,
            grid_wf (debounce_counter m) ->
            last_key_state m = last_key_state s ->
            current_key_state m = current_key_state s ->
            keymap m = keymap s -> current_row m = current_row s ->
            (forall r k,
               get2 (debounce_counter m) r k
               = if (r =? Z.to_nat (current_row s))%nat && (k =? c)%nat
                 then b else get2 (debounce_counter s) r k) ->
            (forall r k,
               (r =? Z.to_nat (current_row s))%nat && (k =? c)%nat = true ->
               b = (if negb (nth c levels true)
                    then if get2 (debounce_counter s) r k <? DEBOUNCE_PRESS
                         then u8 (get2 (debounce_counter s) r k + 1)
                         else get2 (debounce_counter s) r k
                    else if 0 <? get2 (debounce_counter s) r k
                         then u8 (get2 (debounce_counter s) r k - 1)
                         else get2 (debounce_counter s) r k)) ->
            grid_wf (debounce_counter m) /\
            last_key_state m = last_key_state s /\
            current_key_state m = current_key_state s /\
            keymap m = keymap s /\ current_row m = current_row s /\
            forall r k,
              get2 (debounce_counter m) r k
              = if (r =? Z.to_nat (current_row s))%nat && (k =? c)%nat
                then (if negb (nth c levels true)
                      then if get2 (debounce_counter s) r k <? DEBOUNCE_PRESS
                           then u8 (get2 (debounce_counter s) r k + 1)
                           else get2 (debounce_counter s) r k
                      else if 0 <? get2 (debounce_counter s) r k
                           then u8 (get2 (debounce_counter s) r k - 1)
                           else get2 (debounce_counter s) r k)
                else get2 (debounce_counter s) r k).
  { intros m b H1 H2 H3 H4 H5 H6 H7. repeat (split; [assumption|]).
    intros r k. rewrite H6.
    destruct ((r =? Z.to_nat (current_row s))%nat && (k =? c)%nat)%bool eqn:Ei;
      [apply H7; exact Ei | reflexivity]. }
  assert (Hidx : forall r k,
            (r =? Z.to_nat (current_row s))%nat && (k =? c)%nat = true ->
            get2 (debounce_counter s) r k
            = get2 (debounce_counter s) (Z.to_nat (current_row s)) c).
  { intros r k Ei. apply andb_prop in Ei as [Er Ek].
    apply Nat.eqb_eq in Er, Ek. subst r k. reflexivity. }
  destruct (negb (nth c levels true)) eqn:Ecl.
  - destruct (get2 (debounce_counter s) (Z.to_nat (current_row s)) c
              <? DEBOUNCE_PRESS) eqn:E.
    + apply (Hfin _ (u8 (get2 (debounce_counter s)
                           (Z.to_nat (current_row s)) c + 1)));
        try reflexivity; [apply grid_wf_set2; assumption | apply Hset |].
      intros r k Ei. rewrite (Hidx r k Ei), E. reflexivity.
    + apply (Hfin _ (get2 (debounce_counter s) (Z.to_nat (current_row s)) c));
        try reflexivity; [exact Hdc | |].
      * intros r k.
        destruct ((r =? Z.to_nat (current_row s))%nat && (k =? c)%nat)%bool
          eqn:Ei; [apply Hidx; exact Ei | reflexivity].
      * intros r k Ei. rewrite (Hidx r k Ei), E. reflexivity.
  - destruct (0 <? get2 (debounce_counter s) (Z.to_nat (current_row s)) c) eqn:E.
    + apply (Hfin _ (u8 (get2 (debounce_counter s)
                           (Z.to_nat (current_row s)) c - 1)));
        try reflexivity; [apply grid_wf_set2; assumption | apply Hset |].
      intros r k Ei. rewrite (Hidx r k Ei), E. reflexivity.
    + apply (Hfin _ (get2 (debounce_counter s) (Z.to_nat (current_row s)) c));
        try reflexivity; [exact Hdc | |].
      * intros r k.
        destruct ((r =? Z.to_nat (current_row s))%nat && (k =? c)%nat)%bool
          eqn:Ei; [apply Hidx; exact Ei | reflexivity].
      * intros r k Ei. rewrite (Hidx r k Ei), E. reflexivity.
Qed.


Lemma settle_spec (g : bool) (m : State) (ev : option KeyEvent) (c : nat)
    (new last : Z) :
  grid_wf (last_key_state m) -> grid_wf (current_key_state m) ->
  0 <= current_row m < Z.of_nat MATRIX_ROWS -> (c < MATRIX_COLS)%nat ->
  debounce_counter (fst (settle g m ev c new last)) = debounce_counter m /\
  keymap (fst (settle g m ev c new last)) = keymap m /\
  current_row (fst (settle g m ev c new last)) = current_row m /\
  grid_wf (last_key_state (fst (settle g m ev c new last))) /\
  grid_wf (current_key_state (fst (settle g m ev c new last))) /\
  (forall r k,
     get2 (last_key_state (fst (settle g m ev c new last))) r k
     = if (r =? Z.to_nat (current_row m))%nat && (k =? c)%nat
       then (if negb (new =? last) then new else get2 (last_key_state m) r k)
       else get2 (last_key_state m) r k) /\
  (forall r k,
     get2 (current_key_state (fst (settle g m ev c new last))) r k
     = if (r =? Z.to_nat (current_row m))%nat && (k =? c)%nat
       then next_current new last (get2 (current_key_state m) r k)
       else get2 (current_key_state m) r k) /\
  snd (settle g m ev c new last)
  = match ev with
    | Some e => Some e
    | None =>
        if g then
          option_map (fun st => mkKeyEvent
                                  (get2 (keymap m) (Z.to_nat (current_row m)) c)
                                  st (current_row m) (Z.of_nat c))
                     (transition new last)
        else None
    end.
Proof.
  intros Hl Hc Hrow Hcol.
  assert (Hr : (Z.to_nat (current_row m) < MATRIX_ROWS)%nat) by lia.
  pose proof (grid_wf_inb _ _ _ Hl Hr Hcol) as Hinl.
  pose proof (grid_wf_inb _ _ _ Hc Hr Hcol) as Hinc.
  assert (Hsetl : forall v r k,
            get2 (set2 (last_key_state m) (Z.to_nat (current_row m)) c v) r k
            = if (r =? Z.to_nat (current_row m))%nat && (k =? c)%nat
              then v else get2 (last_key_state m) r k).
  { intros v r k. rewrite get2_set2, Hinl, andb_true_r.
    rewrite (Nat.eqb_sym (Z.to_nat (current_row m)) r), (Nat.eqb_sym c k).
    reflexivity. }
  assert (Hsetc : forall v r k,
            get2 (set2 (current_key_state m) (Z.to_nat (current_row m)) c v) r k
            = if (r =? Z.to_nat (current_row m))%nat && (k =? c)%nat
              then v else get2 (current_key_state m) r k).
  { intros v r k. rewrite get2_set2, Hinc, andb_true_r.
    rewrite (Nat.eqb_sym (Z.to_nat (current_row m)) r), (Nat.eqb_sym c k).
    reflexivity. }
  unfold settle, transition, next_current.
  destruct (new =? last); cbn [negb];
    destruct (new =? KEY_PRESSED); destruct (last =? KEY_IDLE);
    destruct (new =? KEY_IDLE); destruct (last =? KEY_PRESSED);
    destruct ev as [e|]; destruct g; cbn -[get2 set2 grid_wf Nat.eqb];
    (split; [reflexivity|]); (split; [reflexivity|]); (split; [reflexivity|]);
    (split; [first [assumption | apply grid_wf_set2; assumption]|]);
    (split; [first [assumption | apply grid_wf_set2; assumption]|]);
    (split; [intros r k; rewrite ?Hsetl;
             destruct ((r =? Z.to_nat (current_row m))%nat && (k =? c)%nat)%bool;
             reflexivity|]);
    (split; [intros r k; rewrite ?Hsetc;
             destruct ((r =? Z.to_nat (current_row m))%nat && (k =? c)%nat)%bool;
             reflexivity|]);
    reflexivity.
Qed.

(** One column of a scan, on its cell and on the event. *)
Lemma scan_col_spec (g : bool) (levels : list bool) (s : State)
    (ev : option KeyEvent) (c : nat) :
  scan_wf s -> (c < MATRIX_COLS)%nat ->
  scan_wf (fst (scan_col g levels (s, ev) c)) /\
  keymap (fst (scan_col g levels (s, ev) c)) = keymap s /\
  current_row (fst (scan_col g levels (s, ev) c)) = current_row s /\
  (forall r k,
     get2 (debounce_counter (fst (scan_col g levels (s, ev) c))) r k
     = if (r =? Z.to_nat (current_row s))%nat && (k =? c)%nat
       then next_counter (negb (nth c levels true)) (get2 (debounce_counter s) r k)
       else get2 (debounce_counter s) r k) /\
  (forall r k,
     get2 (last_key_state (fst (scan_col g levels (s, ev) c))) r k
     = if (r =? Z.to_nat (current_row s))%nat && (k =? c)%nat
       then debounced (next_counter (negb (nth c levels true))
                         (get2 (debounce_counter s) r k))
       else get2 (last_key_state s) r k) /\
  (forall r k,
     get2 (current_key_state (fst (scan_col g levels (s, ev) c))) r k
     = if (r =? Z.to_nat (current_row s))%nat && (k =? c)%nat
       then next_current
              (debounced (next_counter (negb (nth c levels true))
                            (get2 (debounce_counter s) r k)))
              (get2 (last_key_state s) r k) (get2 (current_key_state s) r k)
       else get2 (current_key_state s) r k) /\
  snd (scan_col g levels (s, ev) c)
  = match ev with
    | Some e => Some e
    | None => if g then column_event levels s c else None
    end.
Proof.
  intros Hwf Hc. pose proof Hwf as (Hdc & Hl & Hcur & Hrow).
  rewrite scan_col_unfold.
  destruct (bump_counter_spec levels s c Hwf Hc)
    as (Bdc & Bl & Bcur & Bkm & Brow & Bcnt).
  assert (Hnew : get2 (debounce_counter (bump_counter levels s c))
                   (Z.to_nat (current_row s)) c
                 = next_counter (negb (nth c levels true))
                     (get2 (debounce_counter s) (Z.to_nat (current_row s)) c)).
  { rewrite Bcnt, !Nat.eqb_refl. reflexivity. }
  rewrite Hnew.
  revert Bdc Bl Bcur Bkm Brow Bcnt. generalize (bump_counter levels s c) as m.
  intros m Bdc Bl Bcur Bkm Brow Bcnt.
  destruct (settle_spec g m ev c
              (debounced (next_counter (negb (nth c levels true))
                 (get2 (debounce_counter s) (Z.to_nat (current_row s)) c)))
              (get2 (last_key_state s) (Z.to_nat (current_row s)) c))
    as (S1 & S2 & S3 & S4 & S5 & S6 & S7 & S8);
    [rewrite Bl; exact Hl | rewrite Bcur; exact Hcur | rewrite Brow; exact Hrow
    | exact Hc |].
  revert S1 S2 S3 S4 S5 S6 S7 S8.
  generalize (settle g m ev c
    (debounced (next_counter (negb (nth c levels true))
       (get2 (debounce_counter s) (Z.to_nat (current_row s)) c)))
    (get2 (last_key_state s) (Z.to_nat (current_row s)) c)) as res.
  intros [s' ev']. cbn [fst snd]. intros S1 S2 S3 S4 S5 S6 S7 S8.
  split; [unfold scan_wf; rewrite S1, S3, Brow; auto|].
  split; [rewrite S2; exact Bkm|]. split; [rewrite S3; exact Brow|].
  split; [intros r k; rewrite S1; apply Bcnt|].
  split.
  { intros r k. rewrite S6, Brow, Bl.
    destruct ((r =? Z.to_nat (current_row s))%nat && (k =? c)%nat)%bool eqn:Ei;
      [|reflexivity].
    apply andb_prop in Ei as [Er Ek]. apply Nat.eqb_eq in Er, Ek. subst r k.
    destruct (Z.eqb_spec
                (debounced (next_counter (negb (nth c levels true))
                   (get2 (debounce_counter s) (Z.to_nat (current_row s)) c)))
                (get2 (last_key_state s) (Z.to_nat (current_row s)) c))
      as [E|E]; cbn [negb]; [symmetry; exact E | reflexivity]. }
  split.
  { intros r k. rewrite S7, Brow, Bcur.
    destruct ((r =? Z.to_nat (current_row s))%nat && (k =? c)%nat)%bool eqn:Ei;
      [|reflexivity].
    apply andb_prop in Ei as [Er Ek]. apply Nat.eqb_eq in Er, Ek. subst r k.
    reflexivity. }
  rewrite S8, Bkm, Brow. unfold column_event. reflexivity.
Qed.


Lemma column_event_same (levels : list bool) (s s1 : State) (c : nat) :
  current_row s1 = current_row s -> keymap s1 = keymap s ->
  get2 (debounce_counter s1) (Z.to_nat (current_row s)) c
  = get2 (debounce_counter s) (Z.to_nat (current_row s)) c ->
  get2 (last_key_state s1) (Z.to_nat (current_row s)) c
  = get2 (last_key_state s) (Z.to_nat (current_row s)) c ->
  column_event levels s1 c = column_event levels s c.
Proof.
  intros Hr Hk Hd Hl. unfold column_event. rewrite Hr, Hk, Hd, Hl. reflexivity.
Qed.

Lemma first_event_same (levels : list bool) (s s1 : State) (cols : list nat) :
  (forall c, In c cols -> column_event levels s1 c = column_event levels s c) ->
  first_event levels s1 cols = first_event levels s cols.
Proof.
  induction cols as [|c rest IH]; intros H; [reflexivity|].
  cbn [first_event]. rewrite (H c (or_introl eq_refl)).
  rewrite IH; [reflexivity|]. intros c' Hc'. apply H. right. exact Hc'.
Qed.

Lemma scanned_notin (cols : list nat) (k : nat) :
  ~ In k cols -> scanned cols k = false.
Proof.
  intros H. unfold scanned. destruct (existsb (Nat.eqb k) cols) eqn:E;
    [|reflexivity].
  apply existsb_exists in E as (x & Hx & Ex). apply Nat.eqb_eq in Ex. subst x.
  contradiction.
Qed.

Lemma scanned_all (k : nat) :
  (k < MATRIX_COLS)%nat -> scanned (seq 0 MATRIX_COLS) k = true.
Proof.
  intros H. unfold scanned. apply existsb_exists. exists k.
  split; [apply in_seq; lia | apply Nat.eqb_refl].
Qed.

(** The column loop over any list of distinct columns. *)
Lemma fold_scan_col (g : bool) (levels : list bool) (cols : list nat) :
  forall (s : State) (ev : option KeyEvent),
  scan_wf s -> NoDup cols -> (forall c, In c cols -> (c < MATRIX_COLS)%nat) ->
  cols_done levels cols s (fst (fold_left (scan_col g levels) cols (s, ev))) /\
  snd (fold_left (scan_col g levels) cols (s, ev))
  = match ev with
    | Some e => Some e
    | None => if g then first_event levels s cols else None
    end.
Proof.
  induction cols as [|c rest IH]; intros s ev Hwf Hnd Hlt.
  - cbn [fold_left fst snd first_event]. split.
    + unfold cols_done, scanned. cbn [existsb].
      split; [exact Hwf|]. split; [reflexivity|]. split; [reflexivity|].
      split; [|split]; intros r k; rewrite andb_false_r; reflexivity.
    + destruct ev; [reflexivity|]. destruct g; reflexivity.
  - cbn [fold_left].
    destruct (scan_col_spec g levels s ev c Hwf (Hlt c (or_introl eq_refl)))
      as (P1 & P2 & P3 & P4 & P5 & P6 & P7).
    revert P1 P2 P3 P4 P5 P6 P7.
    generalize (scan_col g levels (s, ev) c) as res.
    intros [s1 ev1]. cbn [fst snd]. intros P1 P2 P3 P4 P5 P6 P7.
    inversion Hnd as [|c0 l0 Hnin Hnd']; subst c0 l0.
    destruct (IH s1 ev1 P1 Hnd' (fun c' Hc' => Hlt c' (or_intror Hc')))
      as ((Q1 & Q2 & Q3 & Q4 & Q5 & Q6) & Q7).
    revert Q1 Q2 Q3 Q4 Q5 Q6 Q7.
    generalize (fold_left (scan_col g levels) rest (s1, ev1)) as res.
    intros [s2 ev2]. cbn [fst snd]. intros Q1 Q2 Q3 Q4 Q5 Q6 Q7.
    split.
    + unfold cols_done. split; [exact Q1|].
      split; [rewrite Q2; exact P2|]. split; [rewrite Q3; exact P3|].
      change (scanned (c :: rest)) with
        (fun k => (k =? c)%nat || scanned rest k)%bool. cbv beta.
      split; [|split]; intros r k.
      * rewrite Q4, P3, !P4.
        destruct (r =? Z.to_nat (current_row s))%nat eqn:Er; cbn [andb];
          [|reflexivity].
        destruct (Nat.eqb_spec k c) as [E|E]; cbn [orb].
        -- subst k. rewrite (scanned_notin rest c Hnin). reflexivity.
        -- destruct (scanned rest k); reflexivity.
      * rewrite Q5, P3, !P4, P5.
        destruct (r =? Z.to_nat (current_row s))%nat eqn:Er; cbn [andb];
          [|reflexivity].
        destruct (Nat.eqb_spec k c) as [E|E]; cbn [orb].
        -- subst k. rewrite (scanned_notin rest c Hnin). reflexivity.
        -- destruct (scanned rest k); reflexivity.
      * rewrite Q6, P3, !P4, !P5, P6.
        destruct (r =? Z.to_nat (current_row s))%nat eqn:Er; cbn [andb];
          [|reflexivity].
        destruct (Nat.eqb_spec k c) as [E|E]; cbn [orb].
        -- subst k. rewrite (scanned_notin rest c Hnin). reflexivity.
        -- destruct (scanned rest k); reflexivity.
    + rewrite Q7, P7. cbn [first_event].
      assert (Hfe : first_event levels s1 rest = first_event levels s rest).
      { apply first_event_same. intros c' Hc'.
        assert (Hne : (c' =? c)%nat = false).
        { apply Nat.eqb_neq. intros ->. contradiction. }
        apply column_event_same; [exact P3 | exact P2 | |].
        - rewrite P4, Hne, andb_false_r. reflexivity.
        - rewrite P5, Hne, andb_false_r. reflexivity. }
      destruct ev as [e|]; [reflexivity|].
      destruct g; [|reflexivity].
      destruct (column_event levels s c); [reflexivity|]. exact Hfe.
Qed.


Lemma matrix_scan_done (g : bool) (levels : list bool) (s : State) :
  scan_wf s ->
  exists m,
    cols_done levels (seq 0 MATRIX_COLS) s m /\
    snd (matrix_scan g levels s)
    = set_current_row ((current_row s + 1) mod 4) m /\
    fst (matrix_scan g levels s)
    = (if g then first_event levels s (seq 0 MATRIX_COLS) else None).
Proof.
  intros Hwf. unfold matrix_scan.
  assert (Hnd : NoDup (seq 0 MATRIX_COLS)) by apply seq_NoDup.
  assert (Hlt : forall c, In c (seq 0 MATRIX_COLS) -> (c < MATRIX_COLS)%nat).
  { intros c Hc. apply in_seq in Hc. lia. }
  destruct (fold_scan_col g levels (seq 0 MATRIX_COLS) s None Hwf Hnd Hlt)
    as (Hdone & Hev).
  revert Hdone Hev.
  generalize (fold_left (scan_col g levels) (seq 0 MATRIX_COLS) (s, None)) as res.
  intros [m ev]. cbn [fst snd]. intros Hdone Hev. exists m.
  split; [exact Hdone|]. split; [|exact Hev].
  destruct Hdone as (_ & _ & Hrow & _). rewrite Hrow.
  change (Z.of_nat MATRIX_ROWS) with 4. unfold u8.
  rewrite (Z.mod_small ((current_row s + 1) mod 4) 256); [reflexivity|].
  pose proof (Z.mod_pos_bound (current_row s + 1) 4 ltac:(lia)). lia.
Qed.

Lemma grid_wf_fill2 (v : Z) : grid_wf (fill2 v).
Proof.
  unfold grid_wf. split; [reflexivity|]. repeat (constructor; try reflexivity).
Qed.

Lemma next_counter_range (b : bool) (cnt : Z) :
  0 <= cnt <= DEBOUNCE_PRESS -> 0 <= next_counter b cnt <= DEBOUNCE_PRESS.
Proof.
  unfold next_counter, u8, DEBOUNCE_PRESS. intros H.
  destruct b.
  - destruct (Z.ltb_spec cnt 3); [|lia].
    rewrite Z.mod_small by lia. lia.
  - destruct (Z.ltb_spec 0 cnt); [|lia].
    rewrite Z.mod_small by lia. lia.
Qed.

Lemma debounced_cases (cnt : Z) :
  debounced cnt = KEY_IDLE \/ debounced cnt = KEY_PRESSED.
Proof. unfold debounced. destruct (_ <=? _); [right | left]; reflexivity. Qed.

Lemma next_current_idle (new last cur : Z) :
  new = KEY_IDLE \/ new = KEY_PRESSED ->
  last = KEY_IDLE \/ last = KEY_PRESSED ->
  (cur = KEY_IDLE <-> last = KEY_IDLE) ->
  (next_current new last cur = KEY_IDLE <-> new = KEY_IDLE).
Proof.
  intros [-> | ->] [-> | ->] H; unfold next_current; cbn.
  - split; [reflexivity|]. intros _. apply H. reflexivity.
  - split; reflexivity.
  - split; intros E; exact E.
  - split; intros E; discriminate E.
Qed.

Lemma matrix_init_invariant (row_pins col_pins : list Z) (s0 : State) :
  0 <= current_row s0 < 4 -> scan_invariant (matrix_init row_pins col_pins s0).
Proof.
  intros Hrow. unfold scan_invariant, scan_wf, matrix_init.
  cbn [debounce_counter last_key_state current_key_state current_row].
  split.
  { split; [apply grid_wf_fill2|]. split; [apply grid_wf_fill2|].
    split; [apply grid_wf_fill2|]. exact Hrow. }
  split.
  - intros r c Hr Hc.
    cbn [debounce_counter last_key_state].
    rewrite !get2_fill2 by assumption.
    split; [unfold DEBOUNCE_PRESS; lia | reflexivity].
  - intros r c Hr Hc.
    cbn [current_key_state last_key_state].
    rewrite !get2_fill2 by assumption. split; reflexivity.
Qed.

Lemma matrix_scan_invariant (g : bool) (levels : list bool) (s : State) :
  scan_invariant s -> scan_invariant (snd (matrix_scan g levels s)).
Proof.
  intros (Hwf & Hcnt & Hst).
  destruct (matrix_scan_done g levels s Hwf)
    as (m & ((Hdc & Hl & Hcur & _) & _ & Hrow & D1 & D2 & D3) & Hs' & _).
  rewrite Hs'. unfold scan_invariant, scan_wf, counters_consistent,
    states_consistent.
  cbn [set_current_row debounce_counter last_key_state current_key_state
       current_row].
  split.
  { split; [exact Hdc|]. split; [exact Hl|]. split; [exact Hcur|].
    change (Z.of_nat MATRIX_ROWS) with 4.
    apply Z.mod_pos_bound. lia. }
  split.
  - intros r c Hr Hc. rewrite D1, D2, (scanned_all c Hc), andb_true_r.
    destruct (Hcnt r c Hr Hc) as (Hb & Hd).
    destruct (r =? Z.to_nat (current_row s))%nat.
    + split; [apply next_counter_range; exact Hb | reflexivity].
    + split; [exact Hb | exact Hd].
  - intros r c Hr Hc. rewrite D2, D3, (scanned_all c Hc), andb_true_r.
    destruct (Hcnt r c Hr Hc) as (Hb & Hd).
    destruct (r =? Z.to_nat (current_row s))%nat.
    + apply next_current_idle.
      * apply debounced_cases.
      * rewrite Hd. apply debounced_cases.
      * apply Hst; assumption.
    + apply Hst; assumption.
Qed.

Lemma scans_keep_invariant (inputs : list (bool * list bool)) :
  forall s, scan_invariant s -> scan_invariant (scans inputs s).
Proof.
  induction inputs as [|i rest IH]; intros s H; [exact H|].
  unfold scans. cbn [fold_left]. apply IH. apply matrix_scan_invariant. exact H.
Qed.

Lemma ready_invariant : scan_invariant ready.
Proof. apply matrix_init_invariant. cbn. lia. Qed.

Lemma pressed02_invariant : scan_invariant pressed02.
Proof. apply scans_keep_invariant. exact ready_invariant. Qed.

Lemma first_event_seq (levels : list bool) (s : State) (e : KeyEvent)
    (k n : nat) :
  forall a, (a <= k < a + n)%nat ->
  (forall j, (a <= j < k)%nat -> column_event levels s j = None) ->
  column_event levels s k = Some e ->
  first_event levels s (seq a n) = Some e.
Proof.
  induction n as [|n IH]; intros a Hk Hbefore He; [lia|].
  cbn [seq first_event].
  destruct (Nat.eq_dec a k) as [->|Hne].
  - rewrite He. reflexivity.
  - rewrite (Hbefore a ltac:(lia)).
    apply IH; [lia | | exact He]. intros j Hj. apply Hbefore. lia.
Qed.

Lemma find_seq_first (f : nat -> bool) (n : nat) :
  forall a c, find f (seq a n) = Some c ->
  (a <= c < a + n)%nat /\ f c = true /\
  forall j, (a <= j < c)%nat -> f j = false.
Proof.
  induction n as [|n IH]; intros a c H; [discriminate H|].
  cbn [seq find] in H. destruct (f a) eqn:Ea.
  - injection H as <-. split; [lia|]. split; [exact Ea|]. intros j Hj. lia.
  - destruct (IH (S a) c H) as (Hr & Hc & Hb).
    split; [lia|]. split; [exact Hc|]. intros j Hj.
    destruct (Nat.eq_dec j a) as [->|Hne]; [exact Ea | apply Hb; lia].
Qed.

Lemma get_key_rows_spec (levels : nat -> list bool) (s : State) (n : nat) :
  forall a,
  (exists r c,
     (a <= r < a + n)%nat /\ (c < MATRIX_COLS)%nat /\ closed levels r c = true /\
     (forall r' c', (a <= r')%nat -> (c' < MATRIX_COLS)%nat ->
        before r' c' r c -> closed levels r' c' = false) /\
     get_key_rows levels s (seq a n) = get2 (keymap s) r c)
  \/ ((forall r c, (a <= r < a + n)%nat -> (c < MATRIX_COLS)%nat ->
         closed levels r c = false) /\
      get_key_rows levels s (seq a n) = 0).
Proof.
  induction n as [|n IH]; intros a.
  - right. split; [intros r c Hr; lia | reflexivity].
  - cbn [seq get_key_rows].
    change (fun c => negb (nth c (levels a) true)) with (closed levels a).
    destruct (find (closed levels a) (seq 0 MATRIX_COLS)) as [c|] eqn:Ef.
    + left. exists a, c.
      destruct (find_seq_first _ _ _ _ Ef) as (Hc & Hcl & Hb).
      split; [lia|]. split; [lia|]. split; [exact Hcl|]. split; [|reflexivity].
      intros r' c' Hr' Hc' [Hlt | [-> Hlt]]; [lia|]. apply Hb. lia.
    + pose proof (find_none _ _ Ef) as Hnone.
      assert (Ha : forall c, (c < MATRIX_COLS)%nat -> closed levels a c = false).
      { intros c Hc. apply Hnone. apply in_seq. lia. }
      destruct (IH (S a)) as [(r & c & Hr & Hc & Hcl & Hb & E) | (Hall & E)].
      * left. exists r, c. split; [lia|]. split; [exact Hc|].
        split; [exact Hcl|]. split; [|exact E].
        intros r' c' Hr' Hc' Hbef.
        destruct (Nat.eq_dec r' a) as [->|Hne]; [apply Ha; exact Hc'|].
        apply Hb; [lia | exact Hc' | exact Hbef].
      * right. split; [|exact E]. intros r c Hr Hc.
        destruct (Nat.eq_dec r a) as [->|Hne]; [apply Ha; exact Hc|].
        apply Hall; [lia | exact Hc].
Qed.

(** X23. One call of [matrix_scan] touches only the cells of the row under
    the cursor: each counter moves one step towards the level read (up to
    [DEBOUNCE_PRESS], down to 0), [last_key_state] becomes the debounced
    reading of the new counter and [current_key_state] follows the
    transition; the other rows and the keymap are unchanged and the cursor
    moves to the next row, wrapping after the last. The event handed back
    is that of the lowest column whose debounced state changed, and none
    when no [event] is passed: the cells are updated all the same. *)
Theorem matrix_scan_row_step (g : bool) (levels : list bool) (s : State) :
  scan_wf s ->
  fst (matrix_scan g levels s)
  = (if g then first_event levels s (seq 0 MATRIX_COLS) else None) /\
  current_row (snd (matrix_scan g levels s)) = (current_row s + 1) mod 4 /\
  keymap (snd (matrix_scan g levels s)) = keymap s /\
  forall r k, (k < MATRIX_COLS)%nat ->
    get2 (debounce_counter (snd (matrix_scan g levels s))) r k
    = (if (r =? Z.to_nat (current_row s))%nat
       then next_counter (negb (nth k levels true))
              (get2 (debounce_counter s) r k)
       else get2 (debounce_counter s) r k) /\
    get2 (last_key_state (snd (matrix_scan g levels s))) r k
    = (if (r =? Z.to_nat (current_row s))%nat
       then debounced (next_counter (negb (nth k levels true))
                         (get2 (debounce_counter s) r k))
       else get2 (last_key_state s) r k) /\
    get2 (current_key_state (snd (matrix_scan g levels s))) r k
    = (if (r =? Z.to_nat (current_row s))%nat
       then next_current
              (debounced (next_counter (negb (nth k levels true))
                            (get2 (debounce_counter s) r k)))
              (get2 (last_key_state s) r k) (get2 (current_key_state s) r k)
       else get2 (current_key_state s) r k).
Proof.
  intros Hwf.
  destruct (matrix_scan_done g levels s Hwf)
    as (m & (_ & Hkm & Hrow & D1 & D2 & D3) & Hs' & Hev).
  split; [exact Hev|]. rewrite Hs'.
  cbn [set_current_row debounce_counter last_key_state current_key_state
       current_row keymap].
  split; [reflexivity|]. split; [exact Hkm|].
  intros r k Hk. rewrite D1, D2, D3, (scanned_all k Hk), andb_true_r.
  split; [reflexivity|]. split; reflexivity.
Qed.

Lemma matrix_scan_row_step_witness :
  fst (matrix_scan true col2_closed ready)
  = first_event col2_closed ready (seq 0 MATRIX_COLS) /\
  current_row (snd (matrix_scan true col2_closed ready)) = 1.
Proof.
  assert (Hwf : scan_wf ready) by exact (proj1 ready_invariant).
  destruct (matrix_scan_row_step true col2_closed ready Hwf) as (E & R & _).
  split; [exact E | exact R].
Defined.

(** X24. In every state reached from [matrix_init] by calls of
    [matrix_scan], whatever was read, every debounce counter lies between
    0 and [DEBOUNCE_PRESS] (the uint8_t never wraps), [last_key_state] is
    the debounced reading of the counter, and a cell is idle in
    [current_key_state] exactly when it is idle in [last_key_state]. *)
Theorem reachable_states_consistent (row_pins col_pins : list Z) (s0 : State)
    (inputs : list (bool * list bool)) :
  0 <= current_row s0 < 4 ->
  scan_invariant (scans inputs (matrix_init row_pins col_pins s0)).
Proof.
  intros H. apply scans_keep_invariant. apply matrix_init_invariant. exact H.
Qed.

Lemma reachable_states_consistent_witness :
  scan_invariant (scans (one_pass ++ one_pass ++ one_pass)
                    (matrix_init [2; 3; 4; 5] [6; 7; 8; 9] initial_state)).
Proof.
  assert (H : 0 <= current_row initial_state < 4) by (cbn; lia).
  exact (reachable_states_consistent [2; 3; 4; 5] [6; 7; 8; 9] initial_state
           (one_pass ++ one_pass ++ one_pass) H).
Defined.

(** X25. Press and release are not debounced alike. After a scan, a cell
    of the scanned row is pressed exactly when its column read closed and
    its counter was already at [DEBOUNCE_PRESS - 1] or above: from rest a
    key needs [DEBOUNCE_PRESS] closed reads, but a single open read takes
    a pressed key back to idle. *)
Theorem pressed_after_scan (g : bool) (levels : list bool) (s : State)
    (k : nat) :
  scan_invariant s -> (k < MATRIX_COLS)%nat ->
  (get2 (last_key_state (snd (matrix_scan g levels s)))
     (Z.to_nat (current_row s)) k = KEY_PRESSED
   <-> nth k levels true = false /\
       DEBOUNCE_PRESS - 1
       <= get2 (debounce_counter s) (Z.to_nat (current_row s)) k).
Proof.
  intros (Hwf & Hcnt & _) Hk.
  destruct (matrix_scan_done g levels s Hwf)
    as (m & (_ & _ & _ & _ & D2 & _) & Hs' & _).
  rewrite Hs'. cbn [set_current_row last_key_state].
  rewrite D2, (scanned_all k Hk), Nat.eqb_refl. cbn [andb].
  assert (Hr : (Z.to_nat (current_row s) < MATRIX_ROWS)%nat).
  { destruct Hwf as (_ & _ & _ & H). lia. }
  destruct (Hcnt _ _ Hr Hk) as (Hb & _). revert Hb.
  generalize (get2 (debounce_counter s) (Z.to_nat (current_row s)) k) as cnt.
  intros cnt Hb. unfold DEBOUNCE_PRESS in *.
  unfold debounced, next_counter, u8, DEBOUNCE_PRESS, KEY_PRESSED, KEY_IDLE.
  destruct (nth k levels true); cbn [negb].
  - destruct (Z.ltb_spec 0 cnt).
    + rewrite Z.mod_small by lia.
      destruct (Z.leb_spec 3 (cnt - 1)); [lia|].
      split; [discriminate | intros [E _]; discriminate E].
    + destruct (Z.leb_spec 3 cnt); [lia|].
      split; [discriminate | intros [E _]; discriminate E].
  - destruct (Z.ltb_spec cnt 3).
    + rewrite Z.mod_small by lia.
      destruct (Z.leb_spec 3 (cnt + 1)).
      * split; [intros _; split; [reflexivity | lia] | reflexivity].
      * split; [discriminate | intros [_ E]; lia].
    + destruct (Z.leb_spec 3 cnt); [|lia].
      split; [intros _; split; [reflexivity | lia] | reflexivity].
Qed.

Lemma pressed_after_scan_witness :
  get2 (last_key_state (snd (matrix_scan true open_row pressed02))) 0 2
  <> KEY_PRESSED.
Proof.
  assert (Hk : (2 < MATRIX_COLS)%nat) by (unfold MATRIX_COLS; lia).
  destruct (pressed_after_scan true open_row pressed02 2 pressed02_invariant Hk)
    as (H & _).
  intros E. destruct (H E) as (Habs & _). discriminate Habs.
Defined.

(** X26. A release is reported at the first open read. When a pressed key
    of the scanned row reads open once, and no lower column of that row
    changes in the same scan, [matrix_scan] hands back the KEY_RELEASED
    event of that key and marks it idle; its counter is left at
    [DEBOUNCE_PRESS - 1], one closed read away from a new press.
    [DEBOUNCE_RELEASE] plays no part. *)
Theorem release_at_first_open_read (levels : list bool) (s : State) (k : nat) :
  scan_invariant s -> (k < MATRIX_COLS)%nat ->
  get2 (last_key_state s) (Z.to_nat (current_row s)) k = KEY_PRESSED ->
  nth k levels true = true ->
  (forall j, (j < k)%nat -> column_event levels s j = None) ->
  fst (matrix_scan true levels s)
  = Some (mkKeyEvent (get2 (keymap s) (Z.to_nat (current_row s)) k)
            KEY_RELEASED (current_row s) (Z.of_nat k)) /\
  get2 (current_key_state (snd (matrix_scan true levels s)))
    (Z.to_nat (current_row s)) k = KEY_IDLE /\
  get2 (debounce_counter (snd (matrix_scan true levels s)))
    (Z.to_nat (current_row s)) k = DEBOUNCE_PRESS - 1.
Proof.
  intros (Hwf & Hcnt & _) Hk Hlast Hopen Hbefore.
  assert (Hr : (Z.to_nat (current_row s) < MATRIX_ROWS)%nat).
  { destruct Hwf as (_ & _ & _ & H). lia. }
  destruct (Hcnt _ _ Hr Hk) as (Hb & Hd).
  assert (Hc3 : get2 (debounce_counter s) (Z.to_nat (current_row s)) k = 3).
  { rewrite Hlast in Hd. unfold debounced, DEBOUNCE_PRESS in Hd, Hb.
    destruct (Z.leb_spec 3 (get2 (debounce_counter s)
                              (Z.to_nat (current_row s)) k));
      [lia | discriminate Hd]. }
  destruct (matrix_scan_done true levels s Hwf)
    as (m & (_ & _ & _ & D1 & _ & D3) & Hs' & Hev).
  rewrite Hev, Hs'. cbn [set_current_row current_key_state debounce_counter].
  rewrite D1, D3, (scanned_all k Hk), Nat.eqb_refl. cbn [andb].
  rewrite Hopen, Hlast, Hc3. cbn [negb].
  split; [|split; reflexivity].
  apply (first_event_seq levels s _ k MATRIX_COLS 0); [lia | |].
  - intros j Hj. apply Hbefore. lia.
  - unfold column_event. rewrite Hopen, Hlast, Hc3. reflexivity.
Qed.

Lemma release_at_first_open_read_witness :
  fst (matrix_scan true open_row pressed02)
  = Some (mkKeyEvent 3 KEY_RELEASED 0 2).
Proof.
  assert (Hk : (2 < MATRIX_COLS)%nat) by (unfold MATRIX_COLS; lia).
  assert (Hl : get2 (last_key_state pressed02)
                 (Z.to_nat (current_row pressed02)) 2 = KEY_PRESSED)
    by (vm_compute; reflexivity).
  assert (Ho : nth 2 open_row true = true) by reflexivity.
  assert (Hb : forall j, (j < 2)%nat -> column_event open_row pressed02 j = None).
  { intros j Hj. destruct j as [|[|j]]; [vm_compute; reflexivity ..|lia]. }
  destruct (release_at_first_open_read open_row pressed02 2
              pressed02_invariant Hk Hl Ho Hb) as (E & _).
  exact E.
Defined.

(** X27. [matrix_get_key] returns the keymap code of the first cell, in
    row-major order, whose column reads closed while its row is driven,
    and 0 when no cell reads closed. It does not look at the debounce
    state. *)
Theorem matrix_get_key_first_closed (levels : nat -> list bool) (s : State) :
  (exists r c,
     (r < MATRIX_ROWS)%nat /\ (c < MATRIX_COLS)%nat /\
     closed levels r c = true /\
     (forall r' c', (c' < MATRIX_COLS)%nat -> before r' c' r c ->
        closed levels r' c' = false) /\
     matrix_get_key levels s = get2 (keymap s) r c)
  \/ ((forall r c, (r < MATRIX_ROWS)%nat -> (c < MATRIX_COLS)%nat ->
         closed levels r c = false) /\
      matrix_get_key levels s = 0).
Proof.
  unfold matrix_get_key.
  destruct (get_key_rows_spec levels s MATRIX_ROWS 0)
    as [(r & c & Hr & Hc & Hcl & Hb & E) | (Hall & E)].
  - left. exists r, c. split; [lia|]. split; [exact Hc|]. split; [exact Hcl|].
    split; [|exact E]. intros r' c' Hc' Hbef. apply Hb; [lia | exact Hc' | exact Hbef].
  - right. split; [|exact E]. intros r c Hr Hc. apply Hall; [lia | exact Hc].
Qed.

(** X28. The answer 0 of [matrix_get_key] does not tell "no key" from the
    key 0: with the keymap that [matrix_init] installs, the driver returns
    0 when cell (3,0) is the first one read closed, as it does when no
    cell is closed. *)
Theorem matrix_get_key_zero_is_ambiguous (row_pins col_pins : list Z)
    (s0 : State) (levels : nat -> list bool) :
  closed levels 3 0 = true ->
  (forall r c, (r < 3)%nat -> (c < MATRIX_COLS)%nat ->
     closed levels r c = false) ->
  matrix_get_key levels (matrix_init row_pins col_pins s0) = 0.
Proof.
  intros Hcl Hopen.
  unfold matrix_get_key.
  destruct (get_key_rows_spec levels (matrix_init row_pins col_pins s0)
              MATRIX_ROWS 0)
    as [(r & c & Hr & Hc & Hrc & Hb & E) | (Hall & E)]; [|exact E].
  rewrite E.
  assert (Hr3 : r = 3%nat).
  { destruct (Nat.lt_ge_cases r 3) as [Hlt|Hge].
    - rewrite (Hopen r c Hlt Hc) in Hrc. discriminate Hrc.
    - unfold MATRIX_ROWS in Hr. lia. }
  subst r.
  assert (Hc0 : c = 0%nat).
  { destruct c as [|c]; [reflexivity|].
    assert (Hbef : before 3 0 3 (S c)) by (right; split; [reflexivity | lia]).
    rewrite (Hb 3%nat 0%nat ltac:(lia) ltac:(unfold MATRIX_COLS; lia) Hbef)
      in Hcl.
    discriminate Hcl. }
  subst c. reflexivity.
Qed.


Lemma matrix_get_key_zero_is_ambiguous_witness :
  matrix_get_key key30 (matrix_init [2; 3; 4; 5] [6; 7; 8; 9] initial_state) = 0
  /\ closed key30 3 0 = true.
Proof.
  assert (Hcl : closed key30 3 0 = true) by reflexivity.
  assert (Hopen : forall r c, (r < 3)%nat -> (c < MATRIX_COLS)%nat ->
                    closed key30 r c = false).
  { unfold MATRIX_COLS. intros r c Hr Hc.
    destruct r as [|[|[|r]]]; [| | |lia];
      destruct c as [|[|[|[|c]]]]; try lia; reflexivity. }
  split; [|exact Hcl].
  exact (matrix_get_key_zero_is_ambiguous [2; 3; 4; 5] [6; 7; 8; 9]
           initial_state key30 Hcl Hopen).
Defined.

(** X29. In every state the scans keep consistent, hence in every state
    reached from [matrix_init], [matrix_any_key_pressed] answers [true]
    exactly when some cell has its debounce counter at [DEBOUNCE_PRESS]:
    it reports debounced keys, pressed or held, and nothing else. *)
Theorem matrix_any_key_pressed_debounced (s : State) :
  scan_invariant s ->
  (matrix_any_key_pressed s = true <->
   exists r c, (r < MATRIX_ROWS)%nat /\ (c < MATRIX_COLS)%nat /\
               get2 (debounce_counter s) r c = DEBOUNCE_PRESS).
Proof.
  intros (_ & Hcnt & Hst).
  assert (Hcell : forall r c, (r < MATRIX_ROWS)%nat -> (c < MATRIX_COLS)%nat ->
            (get2 (current_key_state s) r c <> KEY_IDLE <->
             get2 (debounce_counter s) r c = DEBOUNCE_PRESS)).
  { intros r c Hr Hc. destruct (Hcnt r c Hr Hc) as (Hb & Hd).
    pose proof (Hst r c Hr Hc) as Hiff. rewrite Hd in Hiff.
    unfold debounced, DEBOUNCE_PRESS in *.
    destruct (Z.leb_spec 3 (get2 (debounce_counter s) r c)).
    - split; [intros _; lia|]. intros _ E. apply Hiff in E. discriminate E.
    - split; [|lia]. intros E. elim E. apply Hiff. reflexivity. }
  unfold matrix_any_key_pressed. split.
  - intros H. apply existsb_exists in H. destruct H as (r & Hr & H).
    apply existsb_exists in H. destruct H as (c & Hc & H).
    apply in_seq in Hr, Hc. exists r, c.
    split; [lia|]. split; [lia|].
    apply negb_true_iff, Z.eqb_neq in H. apply Hcell; [lia | lia | exact H].
  - intros (r & c & Hr & Hc & H). apply existsb_exists. exists r.
    split; [apply in_seq; lia|]. apply existsb_exists. exists c.
    split; [apply in_seq; lia|]. apply negb_true_iff, Z.eqb_neq.
    apply Hcell; assumption.
Qed.

Lemma matrix_any_key_pressed_debounced_witness :
  matrix_any_key_pressed pressed02 = true <->
  exists r c, (r < MATRIX_ROWS)%nat /\ (c < MATRIX_COLS)%nat /\
              get2 (debounce_counter pressed02) r c = DEBOUNCE_PRESS.
Proof.
  exact (matrix_any_key_pressed_debounced pressed02 pressed02_invariant).
Defined.

End MatrixFacts.
